(** * Duplicate removal and cross-file matching of spreadsheet rows

    Shallow embedding of the two request handlers
    [src/app/api/process-excel/route.ts] and
    [src/app/api/match-columns/route.ts], and the properties of the
    matching engine proved about them.

    Conventions of the embedding.
    - A JavaScript string is a [string]: a sequence of code units, here the
      Latin-1 range U+0000..U+00FF, on which [toLowerCase] acts unit by unit
      and [trim] removes the units TAB, LF, VT, FF, CR, SPACE and NBSP.
    - A cell is a [value]; a number cell is carried by the text that
      [Number::toString] gives for it, which is the only way the handlers
      look at a number.
    - A row (a JSON object) is a finite map from column names to cells;
      [row[col]] on an absent key is [VUndefined].
    - The elements of the arrays [data], [file1Data] and [file2Data] are
      references to row objects. The handlers are embedded twice: over an
      abstract type [A] of references with a function [read] that gives the
      object a reference designates (the functional view, in the modules
      [ProcessExcel] and [MatchColumns]), and over an explicit object store
      in which the handlers allocate and assign (the module [Store]).
    - A score or a threshold, a double in the source, is a rational number;
      the quotient in the Levenshtein score is exact. *)

From Stdlib Require Import Ascii QArith.
From stdpp Require Import gmap gmultiset strings list fin_maps sorting.

Local Open Scope string_scope.
Local Open Scope list_scope.

(** ** The JavaScript built-ins the handlers use *)

Module JS.

(** WhiteSpace and LineTerminator code units below U+0100. *)
Definition isWhiteSpace (c : ascii) : bool :=
  let n := N_of_ascii c in
  ((9 <=? n)%N && (n <=? 13)%N) || (n =? 32)%N || (n =? 160)%N.

Fixpoint trimStart (s : string) : string :=
  match s with
  | EmptyString => EmptyString
  | String c s' => if isWhiteSpace c then trimStart s' else s
  end.

Fixpoint trimEnd (s : string) : string :=
  match s with
  | EmptyString => EmptyString
  | String c s' =>
      match trimEnd s' with
      | EmptyString => if isWhiteSpace c then EmptyString else String c EmptyString
      | t => String c t
      end
  end.

(** [String.prototype.trim] *)
Definition trim (s : string) : string := trimEnd (trimStart s).

(** Lower-case mapping of one code unit: A-Z, and the Latin-1 capitals
    U+00C0..U+00DE except the multiplication sign U+00D7. *)
Definition toLowerUnit (c : ascii) : ascii :=
  let n := N_of_ascii c in
  if ((65 <=? n)%N && (n <=? 90)%N)
     || ((192 <=? n)%N && (n <=? 222)%N && negb (n =? 215)%N)
  then ascii_of_N (n + 32) else c.

(** [String.prototype.toLowerCase] *)
Fixpoint toLowerCase (s : string) : string :=
  match s with
  | EmptyString => EmptyString
  | String c s' => String (toLowerUnit c) (toLowerCase s')
  end.

(** Cell values as [JSON.parse] and property access produce them. *)
Inductive value : Type :=
| VUndefined
| VNull
| VBool (b : bool)
| VNum (repr : string)
| VStr (s : string).

#[global] Instance value_eq_dec : EqDecision value.
Proof. solve_decision. Defined.

(** [String(value)] *)
Definition ToString (v : value) : string :=
  match v with
  | VUndefined => "undefined"
  | VNull => "null"
  | VBool true => "true"
  | VBool false => "false"
  | VNum repr => repr
  | VStr s => s
  end.

(** Truthiness of a string: [!s] holds exactly for the empty string. *)
Definition falsy (s : string) : bool :=
  match s with EmptyString => true | _ => false end.

(** [Array.prototype.join] on an array of strings. *)
Definition join (sep : string) (l : list string) : string := String.concat sep l.

(** [Array.prototype.join] on an array of cells: [undefined] and [null]
    contribute the empty string. *)
Definition joinValues (sep : string) (l : list value) : string :=
  join sep (map (fun v => match v with
                          | VUndefined | VNull => EmptyString
                          | _ => ToString v
                          end) l).

(** [Array.prototype.slice(start, end)] for integral arguments. *)
Definition slice {A : Type} (l : list A) (start end_ : Z) : list A :=
  let len := Z.of_nat (length l) in
  let k := if (start <? 0)%Z then Z.max (len + start) 0 else Z.min start len in
  let final := if (end_ <? 0)%Z then Z.max (len + end_) 0 else Z.min end_ len in
  take (Z.to_nat (final - k)) (drop (Z.to_nat k) l).

(** [a ?? b] *)
Definition nullish (a b : value) : value :=
  match a with
  | VUndefined | VNull => b
  | _ => a
  end.

End JS.

Export JS.

(** A record: a JSON object read as a map from column names to cells. *)
Abbreviation row := (gmap string value).

(** [row[col]] *)
Definition get (r : row) (col : string) : value := default VUndefined (r !! col).

(** ** The string metrics of the [natural] package

    The handlers import three metrics from the third-party package
    [natural], which is not part of the repository. *)

Module natural.

(** Modelled from the spec: [natural.LevenshteinDistance], which is not
    under src/; the spec describes it as the raw edit distance, here with
    unit cost for an insertion, a deletion and a substitution. *)
Fixpoint LevenshteinDistance (s t : string) : nat :=
  match s with
  | EmptyString => String.length t
  | String a s' =>
      (fix against (t : string) : nat :=
         match t with
         | EmptyString => String.length s
         | String b t' =>
             Nat.min (Nat.min (S (LevenshteinDistance s' t)) (S (against t')))
                     (LevenshteinDistance s' t' + (if Ascii.eqb a b then 0 else 1))
         end) t
  end.

(** Adjacent-character bigrams of a string, in order. *)
Fixpoint bigrams (s : string) : list string :=
  match s with
  | String a ((String b _) as s') => String a (String b EmptyString) :: bigrams s'
  | _ => []
  end.

(** Number of shared bigrams: the size of the multiset intersection. *)
Definition sharedBigrams (a b : string) : nat :=
  size (list_to_set_disj (bigrams a) ∩ list_to_set_disj (bigrams b) : gmultiset string).

(** Modelled from the spec: [natural.DiceCoefficient], which is not under
    src/; in the spec's words it is 1 for identical non-empty strings, and
    it is defined as 2 * |shared bigrams| / (|bigrams a| + |bigrams b|) on
    bags of adjacent-character bigrams, a repeated bigram counting up to its
    multiplicity in the smaller bag. The spec does not say what the
    coefficient is where neither string has a bigram and the strings are not
    identical and non-empty: its quotient is 0/0 there, which the division
    of [Q] makes 0. Nothing below rests on the value there. *)
Definition DiceCoefficient (a b : string) : Q :=
  if String.eqb a b && (0 <? String.length a)%nat then 1%Q
  else
    let total := (length (bigrams a) + length (bigrams b))%nat in
    (inject_Z (Z.of_nat (2 * sharedBigrams a b)) / inject_Z (Z.of_nat total))%Q.

End natural.

Inductive ComparisonMode : Type := Exact | Fuzzy.

Inductive SimilarityAlgorithm : Type := Dice | JaroWinkler | Levenshtein.

(** Outcome of a request handler: the JSON body of a 200 response, or the
    status and message of an error response. *)
Inductive Response (A : Type) : Type :=
| Ok (body : A)
| Error (status : nat) (message : string).
Arguments Ok {A} body.
Arguments Error {A} status message.

(** [score >= threshold] and [score > best] on scores. *)
Definition geq (a b : Q) : bool := Qle_bool b a.
Definition gt (a b : Q) : bool := negb (Qle_bool a b).

(** ** [src/app/api/process-excel/route.ts] *)

Module ProcessExcel.

(** The request body; [A] is the type of the references to row objects. *)
Record ProcessRequest (A : Type) : Type := {
  data : list A;
  columns : list string;
  comparisonMode : option ComparisonMode;
  similarityThreshold : option Q;
  similarityAlgorithm : option SimilarityAlgorithm;
  sliceStart : option Z;
  sliceEnd : option Z
}.
Arguments data {A} _.
Arguments columns {A} _.
Arguments comparisonMode {A} _.
Arguments similarityThreshold {A} _.
Arguments similarityAlgorithm {A} _.
Arguments sliceStart {A} _.
Arguments sliceEnd {A} _.

Record DuplicateInfo : Type := {
  original : string;
  duplicate : string;
  originalIndex : nat;
  duplicateIndex : nat;
  score : option Q
}.

Record RemoveDuplicatesResult (A : Type) : Type := {
  uniqueRows : list A;
  duplicatesFound : list DuplicateInfo
}.
Arguments uniqueRows {A} _.
Arguments duplicatesFound {A} _.

(** The response body; [R] is the type of the rows of [uniqueRows]. *)
Record ProcessResponse (R : Type) : Type := {
  resp_uniqueRows : list R;
  originalCount : Z;
  uniqueCount : Z;
  removedCount : Z;
  resp_duplicatesFound : list DuplicateInfo
}.
Arguments resp_uniqueRows {R} _.
Arguments originalCount {R} _.
Arguments uniqueCount {R} _.
Arguments removedCount {R} _.
Arguments resp_duplicatesFound {R} _.

(** The normalisation of one cell inside [createSignature] (the body of
    its [columns.map] callback). *)
Definition normalizeCell (value : value) : string :=
  match value with
  | VNull | VUndefined => "NULL"
  | _ => toLowerCase (trim (ToString value))
  end.

Definition createSignature (r : row) (columns : list string) : string :=
  let values := map (fun col => normalizeCell (get r col)) columns in
  join " " values.

(** The variables of the loop of [removeExactDuplicates]. *)
Record ExactState (A : Type) : Type := {
  seen : gmap string nat;
  ex_uniqueRows : list A;
  ex_duplicatesFound : list DuplicateInfo
}.
Arguments seen {A} _.
Arguments ex_uniqueRows {A} _.
Arguments ex_duplicatesFound {A} _.

Record MatchResult : Type := {
  matchedSignature : string;
  matchedIndex : nat;
  matchedScore : Q
}.

(** An element of [uniqueSignatures]. *)
Record Accepted : Type := {
  signature : string;
  index : nat
}.

(** The variables of the loop of [removeFuzzyDuplicates]. *)
Record FuzzyState (A : Type) : Type := {
  fz_uniqueRows : list A;
  uniqueSignatures : list Accepted;
  fz_duplicatesFound : list DuplicateInfo
}.
Arguments fz_uniqueRows {A} _.
Arguments uniqueSignatures {A} _.
Arguments fz_duplicatesFound {A} _.

Section Handler.

Context {A : Type}.

(** [natural.JaroWinklerDistance]: a function of the third-party package,
    of which the spec says too little for a definition; the handler is
    embedded over any such function. *)
Variable JaroWinklerDistance : string → string → Q.

(** The object that a reference designates. *)
Variable read : A → row.

(** *** Exact mode *)

(** One iteration of the loop, at index [i] on row [r]. *)
Definition exactStep (columns : list string) (i : nat) (r : A)
    (st : ExactState A) : ExactState A :=
  let signature := createSignature (read r) columns in
  match seen st !! signature with
  | None =>
      {| seen := <[signature := i]> (seen st);
         ex_uniqueRows := ex_uniqueRows st ++ [r];
         ex_duplicatesFound := ex_duplicatesFound st |}
  | Some first =>
      {| seen := seen st;
         ex_uniqueRows := ex_uniqueRows st;
         ex_duplicatesFound :=
           ex_duplicatesFound st ++
             [{| original := signature; duplicate := signature;
                 originalIndex := first; duplicateIndex := i;
                 score := None |}] |}
  end.

(** [for (let i = ...; i < data.length; i++)] on the rows from [i] on. *)
Fixpoint exactLoop (columns : list string) (rows : list A) (i : nat)
    (st : ExactState A) : ExactState A :=
  match rows with
  | [] => st
  | r :: rest => exactLoop columns rest (S i) (exactStep columns i r st)
  end.

Definition exactInit : ExactState A :=
  {| seen := ∅; ex_uniqueRows := []; ex_duplicatesFound := [] |}.

Definition removeExactDuplicates (data : list A) (columns : list string)
    : RemoveDuplicatesResult A :=
  let st := exactLoop columns data 0 exactInit in
  {| uniqueRows := ex_uniqueRows st; duplicatesFound := ex_duplicatesFound st |}.

(** *** Fuzzy mode *)

Definition calculateSimilarity (str1 str2 : string)
    (algorithm : SimilarityAlgorithm) : Q :=
  match algorithm with
  | Dice => natural.DiceCoefficient str1 str2
  | JaroWinkler => JaroWinklerDistance str1 str2
  | Levenshtein =>
      let maxLen := Nat.max (String.length str1) (String.length str2) in
      if (maxLen =? 0)%nat then 1%Q
      else
        let distance := natural.LevenshteinDistance str1 str2 in
        (1 - inject_Z (Z.of_nat distance) / inject_Z (Z.of_nat maxLen))%Q
  end.

(** One iteration of the loop of [findSimilarMatch] on [existing]. *)
Definition similarStep (sig : string) (threshold : Q)
    (algorithm : SimilarityAlgorithm) (existing : Accepted)
    (bestMatch : option MatchResult) : option MatchResult :=
  let score := calculateSimilarity sig (signature existing) algorithm in
  if geq score threshold
     && match bestMatch with
        | None => true
        | Some b => gt score (matchedScore b)
        end
  then Some {| matchedSignature := signature existing;
               matchedIndex := index existing;
               matchedScore := score |}
  else bestMatch.

Fixpoint similarLoop (sig : string) (threshold : Q)
    (algorithm : SimilarityAlgorithm) (existingSignatures : list Accepted)
    (bestMatch : option MatchResult) : option MatchResult :=
  match existingSignatures with
  | [] => bestMatch
  | existing :: rest =>
      similarLoop sig threshold algorithm rest
        (similarStep sig threshold algorithm existing bestMatch)
  end.

Definition findSimilarMatch (sig : string) (existingSignatures : list Accepted)
    (threshold : Q) (algorithm : SimilarityAlgorithm) : option MatchResult :=
  if (length existingSignatures =? 0)%nat then None
  else similarLoop sig threshold algorithm existingSignatures None.

Definition fuzzyStep (columns : list string) (threshold : Q)
    (algorithm : SimilarityAlgorithm) (i : nat) (r : A)
    (st : FuzzyState A) : FuzzyState A :=
  let sig := createSignature (read r) columns in
  match findSimilarMatch sig (uniqueSignatures st) threshold algorithm with
  | None =>
      {| fz_uniqueRows := fz_uniqueRows st ++ [r];
         uniqueSignatures :=
           uniqueSignatures st ++ [{| signature := sig; index := i |}];
         fz_duplicatesFound := fz_duplicatesFound st |}
  | Some matchResult =>
      {| fz_uniqueRows := fz_uniqueRows st;
         uniqueSignatures := uniqueSignatures st;
         fz_duplicatesFound :=
           fz_duplicatesFound st ++
             [{| original := matchedSignature matchResult;
                 duplicate := sig;
                 originalIndex := matchedIndex matchResult;
                 duplicateIndex := i;
                 score := Some (matchedScore matchResult) |}] |}
  end.

Fixpoint fuzzyLoop (columns : list string) (threshold : Q)
    (algorithm : SimilarityAlgorithm) (rows : list A) (i : nat)
    (st : FuzzyState A) : FuzzyState A :=
  match rows with
  | [] => st
  | r :: rest =>
      fuzzyLoop columns threshold algorithm rest (S i)
        (fuzzyStep columns threshold algorithm i r st)
  end.

Definition fuzzyInit : FuzzyState A :=
  {| fz_uniqueRows := []; uniqueSignatures := []; fz_duplicatesFound := [] |}.

Definition removeFuzzyDuplicates (data : list A) (columns : list string)
    (threshold : Q) (algorithm : SimilarityAlgorithm) : RemoveDuplicatesResult A :=
  let st := fuzzyLoop columns threshold algorithm data 0 fuzzyInit in
  {| uniqueRows := fz_uniqueRows st; duplicatesFound := fz_duplicatesFound st |}.

Definition removeDuplicateRows (data : list A) (columns : list string)
    (comparisonMode : ComparisonMode) (threshold : Q)
    (algorithm : SimilarityAlgorithm) : RemoveDuplicatesResult A :=
  match comparisonMode with
  | Exact => removeExactDuplicates data columns
  | Fuzzy => removeFuzzyDuplicates data columns threshold algorithm
  end.

(** *** The handler *)

(** The object that the callback of [rawUniqueRows.map] builds from the
    object [r]: a copy of [r] with the [isni] property set to a link built
    from the selected cells. *)
Definition annotate (columns : list string) (r : row) : row :=
  let mergeColumns := joinValues " " (map (fun col => get r col) columns) in
  let isniLink :=
    ("https://isni.oclc.org/sru/?query=pica.nw+%3D+%22" ++ mergeColumns
       ++ "%22&operation=searchRetrieve&recordSchema=isni-b")%string in
  <["isni" := VStr ("<a href=" ++ isniLink ++ ">" ++ mergeColumns ++ "</a>")%string]> r.

(** The handler in the functional view: the rows of [uniqueRows] in the
    response are the new objects themselves. Nothing throws on a request of
    this type, so the [catch] branch (status 500) is not reached. *)
Definition POST (body : ProcessRequest A) : Response (ProcessResponse row) :=
  let data := data body in
  let columns := columns body in
  let comparisonMode := default Fuzzy (comparisonMode body) in
  let similarityThreshold := default (8 # 10)%Q (similarityThreshold body) in
  let similarityAlgorithm := default JaroWinkler (similarityAlgorithm body) in
  let sliceStart := default 0%Z (sliceStart body) in
  if (length data =? 0)%nat then Error 400 "Invalid or empty data"
  else if (length columns =? 0)%nat then Error 400 "No columns selected"
  else
    let endIndex := default (Z.of_nat (length data)) (sliceEnd body) in
    let slicedData := slice data sliceStart endIndex in
    let res := removeDuplicateRows slicedData columns comparisonMode
                 similarityThreshold similarityAlgorithm in
    let uniqueRows := map (fun r => annotate columns (read r)) (uniqueRows res) in
    Ok {| resp_uniqueRows := uniqueRows;
          originalCount := Z.of_nat (length data);
          uniqueCount := Z.of_nat (length uniqueRows);
          removedCount := (Z.of_nat (length data) - Z.of_nat (length uniqueRows))%Z;
          resp_duplicatesFound := duplicatesFound res |}.

End Handler.
End ProcessExcel.

(** ** [src/app/api/match-columns/route.ts] *)

Module MatchColumns.

(** The request body; [A] is the type of the references to row objects. *)
Record MatchRequest (A : Type) : Type := {
  file1Data : list A;
  file2Data : list A;
  file1Column : option string;
  file2Column : option string;
  file1AdditionalColumns : option (list string);
  file2AdditionalColumns : option (list string);
  similarityThreshold : option Q;
  similarityAlgorithm : option SimilarityAlgorithm
}.
Arguments file1Data {A} _.
Arguments file2Data {A} _.
Arguments file1Column {A} _.
Arguments file2Column {A} _.
Arguments file1AdditionalColumns {A} _.
Arguments file2AdditionalColumns {A} _.
Arguments similarityThreshold {A} _.
Arguments similarityAlgorithm {A} _.

(** An element of [matches]; [D] is the type of the two objects of
    additional data. *)
Record MatchResult (D : Type) : Type := {
  file1RowIndex : nat;
  file2RowIndex : option nat;       (* [None] is [null] *)
  file1Value : value;
  file2Value : value;
  score : Q;
  file1AdditionalData : D;
  file2AdditionalData : D
}.
Arguments file1RowIndex {D} _.
Arguments file2RowIndex {D} _.
Arguments file1Value {D} _.
Arguments file2Value {D} _.
Arguments score {D} _.
Arguments file1AdditionalData {D} _.
Arguments file2AdditionalData {D} _.

Record MatchResponse (D : Type) : Type := {
  matches : list (MatchResult D);
  totalFile1Rows : nat;
  totalFile2Rows : nat;
  matchedCount : nat;
  unmatchedCount : nat
}.
Arguments matches {D} _.
Arguments totalFile1Rows {D} _.
Arguments totalFile2Rows {D} _.
Arguments matchedCount {D} _.
Arguments unmatchedCount {D} _.

Record File2Entry (A : Type) : Type := {
  index : nat;
  value : string;
  entryRow : A
}.
Arguments index {A} _.
Arguments value {A} _.
Arguments entryRow {A} _.

Record BestMatch (A : Type) : Type := {
  bestIndex : nat;
  bestScore : Q;
  bestRow : A
}.
Arguments bestIndex {A} _.
Arguments bestScore {A} _.
Arguments bestRow {A} _.

(** The variables of the main loop of [POST]. *)
Record LoopState (D : Type) : Type := {
  st_matches : list (MatchResult D);
  st_matchedCount : nat;
  st_unmatchedCount : nat
}.
Arguments st_matches {D} _.
Arguments st_matchedCount {D} _.
Arguments st_unmatchedCount {D} _.

Definition normalizeValue (value : JS.value) : string :=
  match value with
  | VNull | VUndefined => EmptyString
  | _ => toLowerCase (trim (ToString value))
  end.

(** The contents of the object that
    [for (const col of cols) { acc[col] = r[col] }] fills from the object
    [r], starting from the empty object. *)
Definition collect (cols : list string) (r : row) : gmap string JS.value :=
  fold_left (fun acc col => <[col := get r col]> acc) cols ∅.

Section Handler.

Context {A : Type}.

(** [natural.JaroWinklerDistance], as in [ProcessExcel]. *)
Variable JaroWinklerDistance : string → string → Q.

(** The object that a reference designates. *)
Variable read : A → row.

Definition calculateSimilarity (str1 str2 : string)
    (algorithm : SimilarityAlgorithm) : Q :=
  if falsy str1 || falsy str2 then 0%Q
  else
    match algorithm with
    | Dice => natural.DiceCoefficient str1 str2
    | JaroWinkler => JaroWinklerDistance str1 str2
    | Levenshtein =>
        let maxLen := Nat.max (String.length str1) (String.length str2) in
        if (maxLen =? 0)%nat then 1%Q
        else
          let distance := natural.LevenshteinDistance str1 str2 in
          (1 - inject_Z (Z.of_nat distance) / inject_Z (Z.of_nat maxLen))%Q
    end.

(** One iteration of the loop of [findBestMatch] on [entry]. *)
Definition bestStep (searchValue : string) (threshold : Q)
    (algorithm : SimilarityAlgorithm) (entry : File2Entry A)
    (bestMatch : option (BestMatch A)) : option (BestMatch A) :=
  let score := calculateSimilarity searchValue (value entry) algorithm in
  if geq score threshold
     && match bestMatch with
        | None => true
        | Some b => gt score (bestScore b)
        end
  then Some {| bestIndex := index entry; bestScore := score;
               bestRow := entryRow entry |}
  else bestMatch.

(** The loop of [findBestMatch]; [calls] counts the calls of
    [calculateSimilarity] made so far. *)
Fixpoint bestLoop (searchValue : string) (threshold : Q)
    (algorithm : SimilarityAlgorithm) (file2Values : list (File2Entry A))
    (bestMatch : option (BestMatch A)) (calls : nat)
    : option (BestMatch A) * nat :=
  match file2Values with
  | [] => (bestMatch, calls)
  | entry :: rest =>
      bestLoop searchValue threshold algorithm rest
        (bestStep searchValue threshold algorithm entry bestMatch) (S calls)
  end.

(** [findBestMatch] with the number of candidates it scored. *)
Definition findBestMatchCounted (searchValue : string)
    (file2Values : list (File2Entry A)) (threshold : Q)
    (algorithm : SimilarityAlgorithm) : option (BestMatch A) * nat :=
  if falsy searchValue then (None, 0%nat)
  else bestLoop searchValue threshold algorithm file2Values None 0.

Definition findBestMatch (searchValue : string)
    (file2Values : list (File2Entry A)) (threshold : Q)
    (algorithm : SimilarityAlgorithm) : option (BestMatch A) :=
  fst (findBestMatchCounted searchValue file2Values threshold algorithm).

(** The object pushed on [matches] at index [i] for [file1Row], given the
    best match and the two objects of additional data. *)
Definition makeMatch {D : Type} (file1Column file2Column : string)
    (i : nat) (file1Row : A) (bestMatch : option (BestMatch A))
    (file1AdditionalData file2AdditionalData : D) : MatchResult D :=
  {| file1RowIndex := i;
     file2RowIndex := option_map bestIndex bestMatch;
     file1Value := get (read file1Row) file1Column;
     file2Value :=
       match bestMatch with
       | Some b => nullish (get (read (bestRow b)) file2Column) VNull
       | None => VNull
       end;
     score :=
       match bestMatch with
       | Some b => bestScore b
       | None => 0%Q
       end;
     file1AdditionalData := file1AdditionalData;
     file2AdditionalData := file2AdditionalData |}.

(** [matchedCount++] or [unmatchedCount++], and [matches.push(m)]. *)
Definition pushMatch {D : Type} (bestMatch : option (BestMatch A))
    (m : MatchResult D) (st : LoopState D) : LoopState D :=
  {| st_matches := st_matches st ++ [m];
     st_matchedCount :=
       match bestMatch with
       | Some _ => S (st_matchedCount st)
       | None => st_matchedCount st
       end;
     st_unmatchedCount :=
       match bestMatch with
       | Some _ => st_unmatchedCount st
       | None => S (st_unmatchedCount st)
       end |}.

(** The object pushed on [matches] by the iteration at index [i] on row
    [file1Row], in the functional view: the two objects of additional data
    are given by their contents. *)
Definition matchEntry (file2Values : list (File2Entry A))
    (file1Column file2Column : string)
    (file1AdditionalColumns file2AdditionalColumns : list string)
    (similarityThreshold : Q) (similarityAlgorithm : SimilarityAlgorithm)
    (i : nat) (file1Row : A) : MatchResult (gmap string JS.value) :=
  let file1Value := normalizeValue (get (read file1Row) file1Column) in
  let bestMatch :=
    findBestMatch file1Value file2Values similarityThreshold similarityAlgorithm in
  let file1AdditionalData := collect file1AdditionalColumns (read file1Row) in
  let file2AdditionalData :=
    match bestMatch with
    | Some b => collect file2AdditionalColumns (read (bestRow b))
    | None => ∅
    end in
  makeMatch file1Column file2Column i file1Row bestMatch
    file1AdditionalData file2AdditionalData.

(** One iteration of the main loop, at index [i] on row [file1Row]. *)
Definition matchStep (file2Values : list (File2Entry A))
    (file1Column file2Column : string)
    (file1AdditionalColumns file2AdditionalColumns : list string)
    (similarityThreshold : Q) (similarityAlgorithm : SimilarityAlgorithm)
    (i : nat) (file1Row : A) (st : LoopState (gmap string JS.value))
    : LoopState (gmap string JS.value) :=
  let file1Value := normalizeValue (get (read file1Row) file1Column) in
  let bestMatch :=
    findBestMatch file1Value file2Values similarityThreshold similarityAlgorithm in
  let file1AdditionalData := collect file1AdditionalColumns (read file1Row) in
  let file2AdditionalData :=
    match bestMatch with
    | Some b => collect file2AdditionalColumns (read (bestRow b))
    | None => ∅
    end in
  pushMatch bestMatch
    (makeMatch file1Column file2Column i file1Row bestMatch
       file1AdditionalData file2AdditionalData) st.

Fixpoint matchLoop (file2Values : list (File2Entry A))
    (file1Column file2Column : string)
    (file1AdditionalColumns file2AdditionalColumns : list string)
    (similarityThreshold : Q) (similarityAlgorithm : SimilarityAlgorithm)
    (rows : list A) (i : nat) (st : LoopState (gmap string JS.value))
    : LoopState (gmap string JS.value) :=
  match rows with
  | [] => st
  | file1Row :: rest =>
      matchLoop file2Values file1Column file2Column
        file1AdditionalColumns file2AdditionalColumns
        similarityThreshold similarityAlgorithm rest (S i)
        (matchStep file2Values file1Column file2Column
           file1AdditionalColumns file2AdditionalColumns
           similarityThreshold similarityAlgorithm i file1Row st)
  end.

(** [file2Data.map((row, index) => ...)] *)
Definition preprocess (file2Column : string) (file2Data : list A)
    : list (File2Entry A) :=
  imap (fun index r =>
          {| index := index;
             value := normalizeValue (get (read r) file2Column);
             entryRow := r |}) file2Data.

(** The handler in the functional view: the objects of additional data in
    the response are given by their contents. Nothing throws on a request of
    this type, so the [catch] branch (status 500) is not reached. *)
Definition POST (body : MatchRequest A)
    : Response (MatchResponse (gmap string JS.value)) :=
  let file1Data := file1Data body in
  let file2Data := file2Data body in
  let file1AdditionalColumns := default [] (file1AdditionalColumns body) in
  let file2AdditionalColumns := default [] (file2AdditionalColumns body) in
  let similarityThreshold := default (8 # 10)%Q (similarityThreshold body) in
  let similarityAlgorithm := default Dice (similarityAlgorithm body) in
  if (length file1Data =? 0)%nat then
    Error 400 "Invalid or empty data for file 1"
  else if (length file2Data =? 0)%nat then
    Error 400 "Invalid or empty data for file 2"
  else
    match file1Column body, file2Column body with
    | Some file1Column, Some file2Column =>
        if falsy file1Column || falsy file2Column then
          Error 400 "Please select a column from each file"
        else
          let file2Values := preprocess file2Column file2Data in
          let st :=
            matchLoop file2Values file1Column file2Column
              file1AdditionalColumns file2AdditionalColumns
              similarityThreshold similarityAlgorithm file1Data 0
              {| st_matches := []; st_matchedCount := 0;
                 st_unmatchedCount := 0 |} in
          Ok {| matches := st_matches st;
                totalFile1Rows := length file1Data;
                totalFile2Rows := length file2Data;
                matchedCount := st_matchedCount st;
                unmatchedCount := st_unmatchedCount st |}
    | _, _ => Error 400 "Please select a column from each file"
    end.

End Handler.
End MatchColumns.

(** ** The handlers on an object store *)

Module Store.

(** The objects in memory: the fields of each object, by address. *)
Abbreviation store := (gmap nat row).

(** The object at an address. *)
Definition deref (h : store) (l : nat) : row := default ∅ (h !! l).

(** A new object with the fields [o]: it gets an address that is not in
    use. *)
Definition alloc (h : store) (o : row) : nat * store :=
  let l := fresh (dom h) in (l, <[l := o]> h).

(** [target[col] = v] *)
Definition assign (h : store) (target : nat) (col : string) (v : value) : store :=
  <[target := <[col := v]> (deref h target)]> h.

(** [for (const col of cols) { target[col] = source[col] }] *)
Fixpoint copyFields (cols : list string) (source target : nat) (h : store)
    : store :=
  match cols with
  | [] => h
  | col :: rest =>
      copyFields rest source target
        (assign h target col (get (deref h source) col))
  end.

(** [rows.map((row) => ({...row, isni: ...}))]: each call of the callback
    reads the object [row] and allocates the new object. *)
Fixpoint annotateAll (columns : list string) (rows : list nat) (h : store)
    : list nat * store :=
  match rows with
  | [] => ([], h)
  | r :: rest =>
      let (l, h1) := alloc h (ProcessExcel.annotate columns (deref h r)) in
      let (ls, h2) := annotateAll columns rest h1 in
      (l :: ls, h2)
  end.

Section Handlers.

Variable JaroWinklerDistance : string → string → Q.

(** [POST] of [process-excel/route.ts]: the elements of [data] and of
    [uniqueRows] are addresses. The reducers only read the store. *)
Definition POST_processExcel (h : store) (body : ProcessExcel.ProcessRequest nat)
    : Response (ProcessExcel.ProcessResponse nat) * store :=
  let data := ProcessExcel.data body in
  let columns := ProcessExcel.columns body in
  let comparisonMode := default Fuzzy (ProcessExcel.comparisonMode body) in
  let similarityThreshold :=
    default (8 # 10)%Q (ProcessExcel.similarityThreshold body) in
  let similarityAlgorithm :=
    default JaroWinkler (ProcessExcel.similarityAlgorithm body) in
  let sliceStart := default 0%Z (ProcessExcel.sliceStart body) in
  if (length data =? 0)%nat then (Error 400 "Invalid or empty data", h)
  else if (length columns =? 0)%nat then (Error 400 "No columns selected", h)
  else
    let endIndex := default (Z.of_nat (length data)) (ProcessExcel.sliceEnd body) in
    let slicedData := slice data sliceStart endIndex in
    let res :=
      ProcessExcel.removeDuplicateRows JaroWinklerDistance (deref h) slicedData
        columns comparisonMode similarityThreshold similarityAlgorithm in
    let (uniqueRows, h') :=
      annotateAll columns (ProcessExcel.uniqueRows res) h in
    (Ok {| ProcessExcel.resp_uniqueRows := uniqueRows;
           ProcessExcel.originalCount := Z.of_nat (length data);
           ProcessExcel.uniqueCount := Z.of_nat (length uniqueRows);
           ProcessExcel.removedCount :=
             (Z.of_nat (length data) - Z.of_nat (length uniqueRows))%Z;
           ProcessExcel.resp_duplicatesFound :=
             ProcessExcel.duplicatesFound res |}, h').

(** One iteration of the main loop of [POST] of [match-columns/route.ts],
    at index [i] on the row at address [file1Row]: the two objects of
    additional data are allocated and filled by assignment. *)
Definition matchStep (file2Values : list (MatchColumns.File2Entry nat))
    (file1Column file2Column : string)
    (file1AdditionalColumns file2AdditionalColumns : list string)
    (similarityThreshold : Q) (similarityAlgorithm : SimilarityAlgorithm)
    (i : nat) (file1Row : nat) (st : MatchColumns.LoopState nat) (h : store)
    : MatchColumns.LoopState nat * store :=
  let file1Value :=
    MatchColumns.normalizeValue (get (deref h file1Row) file1Column) in
  let bestMatch :=
    MatchColumns.findBestMatch JaroWinklerDistance file1Value file2Values
      similarityThreshold similarityAlgorithm in
  let (file1AdditionalData, h1) := alloc h ∅ in
  let h2 := copyFields file1AdditionalColumns file1Row file1AdditionalData h1 in
  let (file2AdditionalData, h3) := alloc h2 ∅ in
  let h4 :=
    match bestMatch with
    | Some b =>
        copyFields file2AdditionalColumns (MatchColumns.bestRow b)
          file2AdditionalData h3
    | None => h3
    end in
  (MatchColumns.pushMatch bestMatch
     (MatchColumns.makeMatch (deref h4) file1Column file2Column i file1Row
        bestMatch file1AdditionalData file2AdditionalData) st,
   h4).

Fixpoint matchLoop (file2Values : list (MatchColumns.File2Entry nat))
    (file1Column file2Column : string)
    (file1AdditionalColumns file2AdditionalColumns : list string)
    (similarityThreshold : Q) (similarityAlgorithm : SimilarityAlgorithm)
    (rows : list nat) (i : nat) (st : MatchColumns.LoopState nat) (h : store)
    : MatchColumns.LoopState nat * store :=
  match rows with
  | [] => (st, h)
  | file1Row :: rest =>
      let (st1, h1) :=
        matchStep file2Values file1Column file2Column
          file1AdditionalColumns file2AdditionalColumns
          similarityThreshold similarityAlgorithm i file1Row st h in
      matchLoop file2Values file1Column file2Column
        file1AdditionalColumns file2AdditionalColumns
        similarityThreshold similarityAlgorithm rest (S i) st1 h1
  end.

(** [POST] of [match-columns/route.ts]: the elements of [file1Data] and
    [file2Data], and the objects of additional data, are addresses. *)
Definition POST_matchColumns (h : store) (body : MatchColumns.MatchRequest nat)
    : Response (MatchColumns.MatchResponse nat) * store :=
  let file1Data := MatchColumns.file1Data body in
  let file2Data := MatchColumns.file2Data body in
  let file1AdditionalColumns :=
    default [] (MatchColumns.file1AdditionalColumns body) in
  let file2AdditionalColumns :=
    default [] (MatchColumns.file2AdditionalColumns body) in
  let similarityThreshold :=
    default (8 # 10)%Q (MatchColumns.similarityThreshold body) in
  let similarityAlgorithm :=
    default Dice (MatchColumns.similarityAlgorithm body) in
  if (length file1Data =? 0)%nat then
    (Error 400 "Invalid or empty data for file 1", h)
  else if (length file2Data =? 0)%nat then
    (Error 400 "Invalid or empty data for file 2", h)
  else
    match MatchColumns.file1Column body, MatchColumns.file2Column body with
    | Some file1Column, Some file2Column =>
        if falsy file1Column || falsy file2Column then
          (Error 400 "Please select a column from each file", h)
        else
          let file2Values :=
            MatchColumns.preprocess (deref h) file2Column file2Data in
          let (st, h') :=
            matchLoop file2Values file1Column file2Column
              file1AdditionalColumns file2AdditionalColumns
              similarityThreshold similarityAlgorithm file1Data 0
              {| MatchColumns.st_matches := [];
                 MatchColumns.st_matchedCount := 0;
                 MatchColumns.st_unmatchedCount := 0 |} h in
          (Ok {| MatchColumns.matches := MatchColumns.st_matches st;
                 MatchColumns.totalFile1Rows := length file1Data;
                 MatchColumns.totalFile2Rows := length file2Data;
                 MatchColumns.matchedCount := MatchColumns.st_matchedCount st;
                 MatchColumns.unmatchedCount := MatchColumns.st_unmatchedCount st |},
           h')
    | _, _ => (Error 400 "Please select a column from each file", h)
    end.

End Handlers.
End Store.

(** ** The earlier handler kept in [src/app/api/process-excel/route.ts]

    The file holds a second document (lines 236-316): a handler without
    comparison modes and without slice, whose reducer keeps a [Set] of
    signatures and joins the cells with a pipe. Its [createSignature]
    normalises a cell by the same callback as the handler above, and its
    [POST] annotates the rows by the same callback. *)

Module ProcessExcelSet.

Record ProcessRequest (A : Type) : Type := {
  data : list A;
  columns : list string
}.
Arguments data {A} _.
Arguments columns {A} _.

Record ProcessResponse (R : Type) : Type := {
  uniqueRows : list R;
  originalCount : Z;
  uniqueCount : Z;
  removedCount : Z
}.
Arguments uniqueRows {R} _.
Arguments originalCount {R} _.
Arguments uniqueCount {R} _.
Arguments removedCount {R} _.

Definition createSignature (r : row) (columns : list string) : string :=
  let values := map (fun col => ProcessExcel.normalizeCell (get r col)) columns in
  join "|" values.

(** The variables of the loop of [removeDuplicateRows]. *)
Record LoopState (A : Type) : Type := {
  seen : gset string;
  st_uniqueRows : list A
}.
Arguments seen {A} _.
Arguments st_uniqueRows {A} _.

Section Handler.

Context {A : Type}.

(** The object that a reference designates. *)
Variable read : A → row.

(** One iteration of [for (const row of data)]. *)
Definition step (columns : list string) (r : A) (st : LoopState A)
    : LoopState A :=
  let signature := createSignature (read r) columns in
  if decide (signature ∈ seen st) then st
  else {| seen := {[ signature ]} ∪ seen st;
          st_uniqueRows := st_uniqueRows st ++ [r] |}.

Fixpoint loop (columns : list string) (rows : list A) (st : LoopState A)
    : LoopState A :=
  match rows with
  | [] => st
  | r :: rest => loop columns rest (step columns r st)
  end.

Definition removeDuplicateRows (data : list A) (columns : list string)
    : list A :=
  st_uniqueRows (loop columns data {| seen := ∅; st_uniqueRows := [] |}).

(** The handler in the functional view, as [ProcessExcel.POST]. *)
Definition POST (body : ProcessRequest A) : Response (ProcessResponse row) :=
  let data := data body in
  let columns := columns body in
  if (length data =? 0)%nat then Error 400 "Invalid or empty data"
  else if (length columns =? 0)%nat then Error 400 "No columns selected"
  else
    let uniqueRows :=
      map (fun r => ProcessExcel.annotate columns (read r))
        (removeDuplicateRows data columns) in
    Ok {| uniqueRows := uniqueRows;
          originalCount := Z.of_nat (length data);
          uniqueCount := Z.of_nat (length uniqueRows);
          removedCount := (Z.of_nat (length data) - Z.of_nat (length uniqueRows))%Z |}.

End Handler.
End ProcessExcelSet.

(** ** [src/app/page.tsx]: the parts of the page that compute on the data *)

Module Page.

(** What the text of a number input gives to [parseInt]: nothing to parse
    (the empty text included, [NaN]) or an integer. *)
Inductive ParseInt : Type :=
| NaN
| Parsed (n : Z).

(** [parseInt(text) || fallback] *)
Definition orElse (p : ParseInt) (fallback : Z) : Z :=
  match p with
  | NaN => fallback
  | Parsed n => if (n =? 0)%Z then fallback else n
  end.

(** The [onChange] callback of the input of the first row of the slice:
    the new [sliceStart]. *)
Definition onSliceStartChange (totalRows : Z) (text : ParseInt) : Z :=
  let val := orElse text 0 in
  let maxStart := if (0 <? totalRows)%Z then (totalRows - 1)%Z else val in
  Z.max 0 (Z.min val maxStart).

(** The [onChange] callback of the input of the end of the slice: the new
    [sliceEnd]; [empty] tells whether the text is empty, and [None] is
    [undefined]. *)
Definition onSliceEndChange (totalRows : Z) (empty : bool) (text : ParseInt)
    : option Z :=
  if empty then None
  else
    let num := orElse text 1 in
    let maxEnd := if (0 <? totalRows)%Z then totalRows else num in
    Some (Z.max 1 (Z.min num maxEnd)).

(** [const rowCount = (sliceEnd ?? totalRows) - sliceStart] of the
    performance warning. *)
Definition rowCount (totalRows sliceStart : Z) (sliceEnd : option Z) : Z :=
  (default totalRows sliceEnd - sliceStart)%Z.

(** [new Set(duplicatesFound.map((_, idx) => idx))]: the selection after a
    submission, and after [handleSelectAllDuplicates(true)]. *)
Definition allDuplicateIndexes (duplicatesFound : list ProcessExcel.DuplicateInfo)
    : gset nat :=
  list_to_set (imap (fun idx _ => idx) duplicatesFound).

Definition handleSelectAllDuplicates
    (duplicatesFound : list ProcessExcel.DuplicateInfo) (selectAll : bool)
    : gset nat :=
  if selectAll then list_to_set (imap (fun idx _ => idx) duplicatesFound)
  else ∅.

(** The new selection that [handleDuplicateToggle] sets. *)
Definition handleDuplicateToggle (selectedDuplicates : gset nat) (index : nat)
    : gset nat :=
  if decide (index ∈ selectedDuplicates) then selectedDuplicates ∖ {[ index ]}
  else {[ index ]} ∪ selectedDuplicates.

(** The [forEach] of [handleExport] that fills [indexesToRemove], from the
    report at position [idx] on. *)
Fixpoint removeLoop (duplicatesFound : list ProcessExcel.DuplicateInfo)
    (idx : nat) (selectedDuplicates indexesToRemove : gset nat) : gset nat :=
  match duplicatesFound with
  | [] => indexesToRemove
  | dup :: rest =>
      removeLoop rest (S idx) selectedDuplicates
        (if decide (idx ∈ selectedDuplicates)
         then {[ ProcessExcel.duplicateIndex dup ]} ∪ indexesToRemove
         else indexesToRemove)
  end.

(** [l.filter((_, index) => keep(index))], from the position [index] on. *)
Fixpoint filterIndex {A : Type} (keep : nat → bool) (l : list A) (index : nat)
    : list A :=
  match l with
  | [] => []
  | x :: rest =>
      if keep index then x :: filterIndex keep rest (S index)
      else filterIndex keep rest (S index)
  end.

(** The rows that [handleExport] writes to the exported sheet:
    [filteredData]. *)
Definition filteredData {A : Type} (originalData : list A) (sliceStart : Z)
    (sliceEnd : option Z) (duplicatesFound : list ProcessExcel.DuplicateInfo)
    (selectedDuplicates : gset nat) : list A :=
  let endIndex := default (Z.of_nat (length originalData)) sliceEnd in
  let slicedData := slice originalData sliceStart endIndex in
  let indexesToRemove := removeLoop duplicatesFound 0 selectedDuplicates ∅ in
  filterIndex (fun index => bool_decide (index ∉ indexesToRemove)) slicedData 0.

End Page.

(** ** Vocabulary of the statements *)

(** A string that does not begin with white space. *)
Definition startsClean (s : string) : Prop :=
  match s with
  | EmptyString => True
  | String c _ => isWhiteSpace c = false
  end.

(** A stand-in for [natural.JaroWinklerDistance] in closed examples: it is
    symmetric and bounded, and the examples that use it either select another
    algorithm or do not depend on the score. *)
Definition constantJaroWinkler : string → string → Q := fun _ _ => 0%Q.

(** Row [i] of [data] is the first row of [data] with its signature. *)
Definition isFirstOccurrence {A : Type} (read : A → row)
    (columns : list string) (data : list A) (i : nat) : Prop :=
  ∃ r, data !! i = Some r
       ∧ ∀ j r', (j < i)%nat → data !! j = Some r' →
           ProcessExcel.createSignature (read r') columns
           ≠ ProcessExcel.createSignature (read r) columns.

(** [rows] is the sub-sequence of [data] made of the first occurrences of
    the signatures, in the order of [data]: the rows of [data] at an
    increasing list of indices that holds exactly the first occurrences. *)
Definition firstOccurrenceSubsequence {A : Type} (read : A → row)
    (columns : list string) (data rows : list A) : Prop :=
  ∃ idxs : list nat,
    StronglySorted lt idxs
    ∧ (∀ i, i ∈ idxs ↔ isFirstOccurrence read columns data i)
    ∧ Forall2 (fun i r => data !! i = Some r) idxs rows.

(** The rows that a deduplication request processes: its slice of [data]. *)
Definition processedRows {A : Type} (body : ProcessExcel.ProcessRequest A)
    : list A :=
  slice (ProcessExcel.data body)
    (default 0%Z (ProcessExcel.sliceStart body))
    (default (Z.of_nat (length (ProcessExcel.data body)))
       (ProcessExcel.sliceEnd body)).

(** What the variables of the loop of [removeExactDuplicates] hold after the
    rows [l]. *)
Record ExactInv {A : Type} (read : A → row) (columns : list string)
    (l : list A) (st : ProcessExcel.ExactState A) : Prop := {
  seen_first :
    ∀ s j, ProcessExcel.seen st !! s = Some j →
      ∃ r, l !! j = Some r ∧ ProcessExcel.createSignature (read r) columns = s;
  seen_none :
    ∀ s, ProcessExcel.seen st !! s = None →
      ∀ j r, l !! j = Some r → ProcessExcel.createSignature (read r) columns ≠ s;
  unique_first :
    firstOccurrenceSubsequence read columns l (ProcessExcel.ex_uniqueRows st)
}.

(** The accepted candidate [e], at position [k] of [accepted], is the one
    against which a row of signature [sig] is reported: its score reaches
    the threshold, no accepted candidate scores more, and every candidate
    before it scores strictly less. *)
Definition isBestAccepted (jw : string → string → Q) (sig : string)
    (threshold : Q) (alg : SimilarityAlgorithm)
    (accepted : list ProcessExcel.Accepted) (k : nat)
    (e : ProcessExcel.Accepted) : Prop :=
  let score := fun e' =>
    ProcessExcel.calculateSimilarity jw sig (ProcessExcel.signature e') alg in
  accepted !! k = Some e
  ∧ (threshold <= score e)%Q
  ∧ (∀ j e', accepted !! j = Some e' → (score e' <= score e)%Q)
  ∧ (∀ j e', (j < k)%nat → accepted !! j = Some e' → (score e' < score e)%Q).

(** What [bestMatch] holds in [findSimilarMatch] once the candidates [pre]
    have been scored. *)
Definition bestSoFar (jw : string → string → Q) (sig : string)
    (threshold : Q) (alg : SimilarityAlgorithm)
    (pre : list ProcessExcel.Accepted)
    (best : option ProcessExcel.MatchResult) : Prop :=
  match best with
  | None =>
      ∀ e, e ∈ pre →
        (ProcessExcel.calculateSimilarity jw sig (ProcessExcel.signature e) alg
         < threshold)%Q
  | Some m =>
      ∃ k e,
        isBestAccepted jw sig threshold alg pre k e
        ∧ m = {| ProcessExcel.matchedSignature := ProcessExcel.signature e;
                 ProcessExcel.matchedIndex := ProcessExcel.index e;
                 ProcessExcel.matchedScore :=
                   ProcessExcel.calculateSimilarity jw sig
                     (ProcessExcel.signature e) alg |}
  end.

(** The loop variables of the fuzzy reducer after the first [n] rows. *)
Definition fuzzyAfter {A : Type} (jw : string → string → Q) (read : A → row)
    (columns : list string) (threshold : Q) (alg : SimilarityAlgorithm)
    (data : list A) (n : nat) : ProcessExcel.FuzzyState A :=
  ProcessExcel.fuzzyLoop jw read columns threshold alg (take n data) 0
    ProcessExcel.fuzzyInit.

(** The pair of indices that a duplicate report carries. *)
Definition duplicatePair (d : ProcessExcel.DuplicateInfo) : nat * nat :=
  (ProcessExcel.originalIndex d, ProcessExcel.duplicateIndex d).

(** The loop variables of the exact and of the fuzzy reducer agree: same
    accepted rows, the signatures seen are those of the accepted list, with
    the same indices and without repetition, and the same duplicate pairs. *)
Record reducersAgree {A : Type} (es : ProcessExcel.ExactState A)
    (fs : ProcessExcel.FuzzyState A) : Prop := {
  agree_rows : ProcessExcel.ex_uniqueRows es = ProcessExcel.fz_uniqueRows fs;
  agree_seen :
    ∀ s j, ProcessExcel.seen es !! s = Some j
           ↔ {| ProcessExcel.signature := s; ProcessExcel.index := j |}
             ∈ ProcessExcel.uniqueSignatures fs;
  agree_nodup :
    NoDup (map ProcessExcel.signature (ProcessExcel.uniqueSignatures fs));
  agree_pairs :
    map duplicatePair (ProcessExcel.ex_duplicatesFound es)
    = map duplicatePair (ProcessExcel.fz_duplicatesFound fs)
}.

(** *** Stores *)

(** Every object of [h] is in [h'] with the same fields. *)
Definition preserved (h h' : gmap nat row) : Prop :=
  ∀ l, l ∈ dom h → h' !! l = h !! l.

(** The addresses [refs] are those of objects of [h]. *)
Definition allocated (h : gmap nat row) (refs : list nat) : Prop :=
  Forall (fun l => l ∈ dom h) refs.

(** An element of [matches] with its two objects of additional data read
    from the store. *)
Definition readMatch (h : gmap nat row) (m : MatchColumns.MatchResult nat)
    : MatchColumns.MatchResult (gmap string value) :=
  {| MatchColumns.file1RowIndex := MatchColumns.file1RowIndex m;
     MatchColumns.file2RowIndex := MatchColumns.file2RowIndex m;
     MatchColumns.file1Value := MatchColumns.file1Value m;
     MatchColumns.file2Value := MatchColumns.file2Value m;
     MatchColumns.score := MatchColumns.score m;
     MatchColumns.file1AdditionalData :=
       Store.deref h (MatchColumns.file1AdditionalData m);
     MatchColumns.file2AdditionalData :=
       Store.deref h (MatchColumns.file2AdditionalData m) |}.

(** The variables of the main loop on the store hold, once the objects of
    additional data are read, what they hold in the functional view. *)
Definition loopRefines (h : gmap nat row) (st : MatchColumns.LoopState nat)
    (stF : MatchColumns.LoopState (gmap string value)) : Prop :=
  map (readMatch h) (MatchColumns.st_matches st) = MatchColumns.st_matches stF
  ∧ MatchColumns.st_matchedCount st = MatchColumns.st_matchedCount stF
  ∧ MatchColumns.st_unmatchedCount st = MatchColumns.st_unmatchedCount stF
  ∧ Forall (fun m => MatchColumns.file1AdditionalData m ∈ dom h
                     ∧ MatchColumns.file2AdditionalData m ∈ dom h)
      (MatchColumns.st_matches st).

(** The response of the deduplication handler on the store, with the rows of
    [uniqueRows] read from the store. *)
Definition readProcessResponse (h : gmap nat row)
    (r : Response (ProcessExcel.ProcessResponse nat))
    : Response (ProcessExcel.ProcessResponse row) :=
  match r with
  | Ok resp =>
      Ok {| ProcessExcel.resp_uniqueRows :=
              map (Store.deref h) (ProcessExcel.resp_uniqueRows resp);
            ProcessExcel.originalCount := ProcessExcel.originalCount resp;
            ProcessExcel.uniqueCount := ProcessExcel.uniqueCount resp;
            ProcessExcel.removedCount := ProcessExcel.removedCount resp;
            ProcessExcel.resp_duplicatesFound :=
              ProcessExcel.resp_duplicatesFound resp |}
  | Error status message => Error status message
  end.

(** The response of the cross-file handler on the store, with the objects
    of additional data read from the store. *)
Definition readMatchResponse (h : gmap nat row)
    (r : Response (MatchColumns.MatchResponse nat))
    : Response (MatchColumns.MatchResponse (gmap string value)) :=
  match r with
  | Ok resp =>
      Ok {| MatchColumns.matches :=
              map (readMatch h) (MatchColumns.matches resp);
            MatchColumns.totalFile1Rows := MatchColumns.totalFile1Rows resp;
            MatchColumns.totalFile2Rows := MatchColumns.totalFile2Rows resp;
            MatchColumns.matchedCount := MatchColumns.matchedCount resp;
            MatchColumns.unmatchedCount := MatchColumns.unmatchedCount resp |}
  | Error status message => Error status message
  end.

(** The row [l] of the response is a new object, made from the accepted
    row [src]: it is not an object of [h], it is the annotated copy of
    [src], it has the fields of [src] other than [isni] with their values,
    and it has a field [isni]. *)
Definition annotatedCopy (columns : list string) (h h' : gmap nat row)
    (l src : nat) : Prop :=
  (l ∉ dom h)
  ∧ h' !! l = Some (ProcessExcel.annotate columns (Store.deref h src))
  ∧ (∀ col, col ≠ "isni" →
       Store.deref h' l !! col = Store.deref h src !! col)
  ∧ is_Some (Store.deref h' l !! "isni")
  ∧ dom (Store.deref h' l) = {[ "isni" ]} ∪ dom (Store.deref h src).

(** A store with two row objects; the first has a column "isni". *)
Definition sampleStore : gmap nat row :=
  {[ 0%nat := {[ "v" := VStr "x"; "isni" := VStr "0000 0001 2103 2683" ]};
     1%nat := {[ "v" := VStr "X " ]} ]}.

(** An exact-mode request on the two objects of [sampleStore]. *)
Definition sampleStoreRequest : ProcessExcel.ProcessRequest nat :=
  {| ProcessExcel.data := [0%nat; 1%nat];
     ProcessExcel.columns := ["v"];
     ProcessExcel.comparisonMode := Some Exact;
     ProcessExcel.similarityThreshold := None;
     ProcessExcel.similarityAlgorithm := None;
     ProcessExcel.sliceStart := None;
     ProcessExcel.sliceEnd := None |}.

(** *** Sample inputs *)

(** A row with the single column "v". *)
Definition rowV (v : value) : row := {[ "v" := v ]}.

(** A row with the columns "Name" and "Email". *)
Definition person (name email : string) : row :=
  {[ "Name" := VStr name; "Email" := VStr email ]}.

(** The five rows of the test sheet: rows 2 and 4 repeat rows 0 and 1. *)
Definition sampleRows : list row :=
  [ person "John Doe" "john@e.com"; person "Jane" "jane@e.com";
    person "John Doe" "john@e.com"; person "Bob" "bob@e.com";
    person "Jane" "jane@e.com" ].

(** An exact-mode request on the test sheet, without slice. *)
Definition sampleExactRequest : ProcessExcel.ProcessRequest row :=
  {| ProcessExcel.data := sampleRows;
     ProcessExcel.columns := ["Name"; "Email"];
     ProcessExcel.comparisonMode := Some Exact;
     ProcessExcel.similarityThreshold := None;
     ProcessExcel.similarityAlgorithm := None;
     ProcessExcel.sliceStart := None;
     ProcessExcel.sliceEnd := None |}.

(** A request on the test sheet whose slice starts beyond the last row. *)
Definition sampleEmptySliceRequest : ProcessExcel.ProcessRequest row :=
  {| ProcessExcel.data := sampleRows;
     ProcessExcel.columns := ["Name"; "Email"];
     ProcessExcel.comparisonMode := None;
     ProcessExcel.similarityThreshold := None;
     ProcessExcel.similarityAlgorithm := Some Levenshtein;
     ProcessExcel.sliceStart := Some 7%Z;
     ProcessExcel.sliceEnd := None |}.

(** Two rows whose signatures share their bigrams without being equal. *)
Definition swappedRows : list row := [rowV (VStr "aba"); rowV (VStr "bab")].

(** The request for these two rows in fuzzy mode, with threshold 1 and the
    dice algorithm, and the request for them in exact mode. *)
Definition requestSwappedFuzzy : ProcessExcel.ProcessRequest row :=
  {| ProcessExcel.data := swappedRows;
     ProcessExcel.columns := ["v"];
     ProcessExcel.comparisonMode := Some Fuzzy;
     ProcessExcel.similarityThreshold := Some 1%Q;
     ProcessExcel.similarityAlgorithm := Some Dice;
     ProcessExcel.sliceStart := None;
     ProcessExcel.sliceEnd := None |}.

Definition requestSwappedExact : ProcessExcel.ProcessRequest row :=
  {| ProcessExcel.data := swappedRows;
     ProcessExcel.columns := ["v"];
     ProcessExcel.comparisonMode := Some Exact;
     ProcessExcel.similarityThreshold := None;
     ProcessExcel.similarityAlgorithm := None;
     ProcessExcel.sliceStart := None;
     ProcessExcel.sliceEnd := None |}.

(** An exact-mode request on the rows 1 to 4 of the test sheet. *)
Definition sampleSlicedRequest : ProcessExcel.ProcessRequest row :=
  {| ProcessExcel.data := sampleRows;
     ProcessExcel.columns := ["Name"; "Email"];
     ProcessExcel.comparisonMode := Some Exact;
     ProcessExcel.similarityThreshold := None;
     ProcessExcel.similarityAlgorithm := None;
     ProcessExcel.sliceStart := Some 1%Z;
     ProcessExcel.sliceEnd := Some 5%Z |}.

(** A cross-file request on column "v" of both files, with threshold 0. *)
Definition requestThresholdZero : MatchColumns.MatchRequest row :=
  {| MatchColumns.file1Data := [rowV (VStr "x")];
     MatchColumns.file2Data := [rowV (VStr EmptyString)];
     MatchColumns.file1Column := Some "v";
     MatchColumns.file2Column := Some "v";
     MatchColumns.file1AdditionalColumns := None;
     MatchColumns.file2AdditionalColumns := None;
     MatchColumns.similarityThreshold := Some 0%Q;
     MatchColumns.similarityAlgorithm := Some Levenshtein |}.

(** A cross-file request on column "v" with the default threshold, whose
    first source row has a blank cell. *)
Definition requestBlankSource : MatchColumns.MatchRequest row :=
  {| MatchColumns.file1Data := [rowV (VStr "  "); rowV (VStr "Smith")];
     MatchColumns.file2Data := [rowV (VStr EmptyString); rowV (VStr "smith ")];
     MatchColumns.file1Column := Some "v";
     MatchColumns.file2Column := Some "v";
     MatchColumns.file1AdditionalColumns := None;
     MatchColumns.file2AdditionalColumns := None;
     MatchColumns.similarityThreshold := None;
     MatchColumns.similarityAlgorithm := Some Levenshtein |}.


(** *** Reports of the reducers *)

(** The rows [l], scanned from left to right, were each either kept (in
    [kept], in order) or reported (in [reports], in order, the report of a
    row carrying the index of that row as [duplicateIndex]). *)
Inductive splitsRows {A : Type}
    : list A → list A → list ProcessExcel.DuplicateInfo → Prop :=
| splits_nil : splitsRows [] [] []
| splits_keep (l kept : list A) (reports : list ProcessExcel.DuplicateInfo) (r : A) :
    splitsRows l kept reports → splitsRows (l ++ [r]) (kept ++ [r]) reports
| splits_report (l kept : list A) (reports : list ProcessExcel.DuplicateInfo)
    (r : A) (rep : ProcessExcel.DuplicateInfo) :
    splitsRows l kept reports →
    ProcessExcel.duplicateIndex rep = length l →
    splitsRows (l ++ [r]) kept (reports ++ [rep]).

(** The set of the indices of the reported rows. *)
Definition reportedIndexes (reports : list ProcessExcel.DuplicateInfo) : gset nat :=
  list_to_set (map ProcessExcel.duplicateIndex reports).

(** A report of the exact reducer on [data] is well formed: it refers to
    the first row with the signature and to a later row with the same
    signature, and carries that signature twice and no score. *)
Definition exactReport {A : Type} (read : A → row) (columns : list string)
    (data : list A) (rep : ProcessExcel.DuplicateInfo) : Prop :=
  ∃ r1 r2,
    data !! ProcessExcel.originalIndex rep = Some r1
    ∧ data !! ProcessExcel.duplicateIndex rep = Some r2
    ∧ (ProcessExcel.originalIndex rep < ProcessExcel.duplicateIndex rep)%nat
    ∧ isFirstOccurrence read columns data (ProcessExcel.originalIndex rep)
    ∧ ProcessExcel.original rep = ProcessExcel.createSignature (read r1) columns
    ∧ ProcessExcel.duplicate rep = ProcessExcel.createSignature (read r2) columns
    ∧ ProcessExcel.original rep = ProcessExcel.duplicate rep
    ∧ ProcessExcel.score rep = None.

(** A report of the fuzzy reducer on [data] is well formed: it refers to
    an accepted row and to a later row, carries their signatures, and its
    score is their similarity, which reaches the threshold. *)
Definition fuzzyReport {A : Type} (jw : string → string → Q) (read : A → row)
    (columns : list string) (threshold : Q) (alg : SimilarityAlgorithm)
    (data kept : list A) (rep : ProcessExcel.DuplicateInfo) : Prop :=
  ∃ r1 r2,
    data !! ProcessExcel.originalIndex rep = Some r1
    ∧ data !! ProcessExcel.duplicateIndex rep = Some r2
    ∧ (ProcessExcel.originalIndex rep < ProcessExcel.duplicateIndex rep)%nat
    ∧ r1 ∈ kept
    ∧ ProcessExcel.original rep = ProcessExcel.createSignature (read r1) columns
    ∧ ProcessExcel.duplicate rep = ProcessExcel.createSignature (read r2) columns
    ∧ ProcessExcel.score rep
      = Some (ProcessExcel.calculateSimilarity jw (ProcessExcel.duplicate rep)
                (ProcessExcel.original rep) alg)
    ∧ (threshold
       <= ProcessExcel.calculateSimilarity jw (ProcessExcel.duplicate rep)
            (ProcessExcel.original rep) alg)%Q.

(** The fuzzy reducer has kept a sub-sequence of what the exact reducer has
    kept, and every signature seen so far reaches the threshold against an
    accepted signature. *)
Definition fuzzyBelow {A : Type} (jw : string → string → Q) (threshold : Q)
    (alg : SimilarityAlgorithm) (es : ProcessExcel.ExactState A)
    (fs : ProcessExcel.FuzzyState A) : Prop :=
  ProcessExcel.fz_uniqueRows fs `sublist_of` ProcessExcel.ex_uniqueRows es
  ∧ ∀ s j, ProcessExcel.seen es !! s = Some j →
      ∃ e, e ∈ ProcessExcel.uniqueSignatures fs
           ∧ (threshold
              <= ProcessExcel.calculateSimilarity jw s (ProcessExcel.signature e) alg)%Q.

(** *** Signatures *)

(** The code unit [c] occurs in [s]. *)
Fixpoint occursIn (c : ascii) (s : string) : bool :=
  match s with
  | EmptyString => false
  | String c' s' => Ascii.eqb c c' || occursIn c s'
  end.

(** The cells of the row [r] in the selected columns, normalised as
    [createSignature] normalises them. *)
Definition normalizedCells (r : row) (columns : list string) : list string :=
  map (fun col => ProcessExcel.normalizeCell (get r col)) columns.

(** The request that the earlier handler gets from the page that sends
    [request] to the present handler: the rows and the columns only. *)
Definition earlierRequest {A : Type} (request : ProcessExcel.ProcessRequest A)
    : ProcessExcelSet.ProcessRequest A :=
  {| ProcessExcelSet.data := ProcessExcel.data request;
     ProcessExcelSet.columns := ProcessExcel.columns request |}.

(** The two handlers answer alike: the same error, or the same rows and
    the same three counts. *)
Definition sameAnswer {R : Type} (present : Response (ProcessExcel.ProcessResponse R))
    (earlier : Response (ProcessExcelSet.ProcessResponse R)) : Prop :=
  match present, earlier with
  | Ok resp, Ok resp' =>
      ProcessExcel.resp_uniqueRows resp = ProcessExcelSet.uniqueRows resp'
      ∧ ProcessExcel.originalCount resp = ProcessExcelSet.originalCount resp'
      ∧ ProcessExcel.uniqueCount resp = ProcessExcelSet.uniqueCount resp'
      ∧ ProcessExcel.removedCount resp = ProcessExcelSet.removedCount resp'
  | Error status message, Error status' message' =>
      status = status' ∧ message = message'
  | _, _ => False
  end.

(** *** Candidates of the cross-file matcher *)

(** The entry [e], at position [k] of [entries], is the one that
    [findBestMatch] returns for [searchValue]: its score reaches the
    threshold, no entry scores more, and every entry before it scores
    strictly less. *)
Definition isBestEntry {A : Type} (jw : string → string → Q)
    (searchValue : string) (threshold : Q) (alg : SimilarityAlgorithm)
    (entries : list (MatchColumns.File2Entry A)) (k : nat)
    (e : MatchColumns.File2Entry A) : Prop :=
  let score := fun e' =>
    MatchColumns.calculateSimilarity jw searchValue (MatchColumns.value e') alg in
  entries !! k = Some e
  ∧ (threshold <= score e)%Q
  ∧ (∀ j e', entries !! j = Some e' → (score e' <= score e)%Q)
  ∧ (∀ j e', (j < k)%nat → entries !! j = Some e' → (score e' < score e)%Q).

(** The value of [bestMatch] that stands for the entry [e]. *)
Definition bestOf {A : Type} (jw : string → string → Q) (searchValue : string)
    (alg : SimilarityAlgorithm) (e : MatchColumns.File2Entry A)
    : MatchColumns.BestMatch A :=
  {| MatchColumns.bestIndex := MatchColumns.index e;
     MatchColumns.bestScore :=
       MatchColumns.calculateSimilarity jw searchValue (MatchColumns.value e) alg;
     MatchColumns.bestRow := MatchColumns.entryRow e |}.

(** What [bestMatch] holds in [findBestMatch] once the entries [pre] have
    been scored. *)
Definition bestEntrySoFar {A : Type} (jw : string → string → Q)
    (searchValue : string) (threshold : Q) (alg : SimilarityAlgorithm)
    (pre : list (MatchColumns.File2Entry A))
    (best : option (MatchColumns.BestMatch A)) : Prop :=
  match best with
  | None =>
      ∀ e, e ∈ pre →
        (MatchColumns.calculateSimilarity jw searchValue (MatchColumns.value e) alg
         < threshold)%Q
  | Some b =>
      ∃ k e, isBestEntry jw searchValue threshold alg pre k e
             ∧ b = bestOf jw searchValue alg e
  end.

(** The element of [matches] has a row of the second file. *)
Definition isMatched {D : Type} (m : MatchColumns.MatchResult D) : Prop :=
  is_Some (MatchColumns.file2RowIndex m).

#[global] Instance isMatched_dec {D : Type} (m : MatchColumns.MatchResult D) :
  Decision (isMatched m).
Proof. unfold isMatched. apply _. Defined.

(** The addresses of the objects of additional data of the entries. *)
Definition additionalObjects (ms : list (MatchColumns.MatchResult nat))
    : list nat :=
  flat_map (fun m => [MatchColumns.file1AdditionalData m;
                      MatchColumns.file2AdditionalData m]) ms.

(** The request [body] with other rows for the first file. *)
Definition withFile1 {A : Type} (body : MatchColumns.MatchRequest A)
    (rows : list A) : MatchColumns.MatchRequest A :=
  {| MatchColumns.file1Data := rows;
     MatchColumns.file2Data := MatchColumns.file2Data body;
     MatchColumns.file1Column := MatchColumns.file1Column body;
     MatchColumns.file2Column := MatchColumns.file2Column body;
     MatchColumns.file1AdditionalColumns := MatchColumns.file1AdditionalColumns body;
     MatchColumns.file2AdditionalColumns := MatchColumns.file2AdditionalColumns body;
     MatchColumns.similarityThreshold := MatchColumns.similarityThreshold body;
     MatchColumns.similarityAlgorithm := MatchColumns.similarityAlgorithm body |}.

(** The entry [m] with its row index in the first file moved by [n]. *)
Definition shiftIndex {D : Type} (n : nat) (m : MatchColumns.MatchResult D)
    : MatchColumns.MatchResult D :=
  {| MatchColumns.file1RowIndex := n + MatchColumns.file1RowIndex m;
     MatchColumns.file2RowIndex := MatchColumns.file2RowIndex m;
     MatchColumns.file1Value := MatchColumns.file1Value m;
     MatchColumns.file2Value := MatchColumns.file2Value m;
     MatchColumns.score := MatchColumns.score m;
     MatchColumns.file1AdditionalData := MatchColumns.file1AdditionalData m;
     MatchColumns.file2AdditionalData := MatchColumns.file2AdditionalData m |}.


(** * Properties *)

(** ** Trimming and case folding *)

Section StringFacts.

Lemma toLowerUnit_idem (c : ascii) : toLowerUnit (toLowerUnit c) = toLowerUnit c.
Proof. destruct c as [[] [] [] [] [] [] [] []]; reflexivity. Qed.

Lemma isWhiteSpace_toLowerUnit (c : ascii) :
  isWhiteSpace (toLowerUnit c) = isWhiteSpace c.
Proof. destruct c as [[] [] [] [] [] [] [] []]; reflexivity. Qed.

Lemma toLowerCase_idem (s : string) : toLowerCase (toLowerCase s) = toLowerCase s.
Proof.
  induction s as [|c s IH]; simpl; [reflexivity|].
  now rewrite toLowerUnit_idem, IH.
Qed.

Lemma toLowerCase_empty_iff (s : string) :
  toLowerCase s = EmptyString ↔ s = EmptyString.
Proof. destruct s; simpl; split; congruence. Qed.

Lemma trimStart_toLowerCase (s : string) :
  trimStart (toLowerCase s) = toLowerCase (trimStart s).
Proof.
  induction s as [|c s IH]; simpl; [reflexivity|].
  rewrite isWhiteSpace_toLowerUnit.
  destruct (isWhiteSpace c); [exact IH | reflexivity].
Qed.

Lemma trimEnd_toLowerCase (s : string) :
  trimEnd (toLowerCase s) = toLowerCase (trimEnd s).
Proof.
  induction s as [|c s IH]; simpl; [reflexivity|].
  rewrite IH, isWhiteSpace_toLowerUnit.
  destruct (trimEnd s) as [|d t]; simpl.
  - destruct (isWhiteSpace c); reflexivity.
  - reflexivity.
Qed.

Lemma trim_toLowerCase (s : string) : trim (toLowerCase s) = toLowerCase (trim s).
Proof. unfold trim. now rewrite trimStart_toLowerCase, trimEnd_toLowerCase. Qed.

Lemma trimStart_startsClean (s : string) : startsClean (trimStart s).
Proof.
  induction s as [|c s IH]; simpl; [exact I|].
  destruct (isWhiteSpace c) eqn:E; [exact IH | exact E].
Qed.

Lemma trimStart_clean (s : string) : startsClean s → trimStart s = s.
Proof. destruct s as [|c s]; simpl; [reflexivity|]. now intros ->. Qed.

Lemma trimEnd_startsClean (s : string) : startsClean s → startsClean (trimEnd s).
Proof.
  destruct s as [|c s]; simpl; [exact id|]. intros Hc.
  destruct (trimEnd s); [rewrite Hc|]; exact Hc.
Qed.

Lemma trimEnd_idem (s : string) : trimEnd (trimEnd s) = trimEnd s.
Proof.
  induction s as [|c s IH]; simpl; [reflexivity|].
  destruct (trimEnd s) as [|d t] eqn:E.
  - destruct (isWhiteSpace c) eqn:Ec; simpl; [reflexivity|]. now rewrite Ec.
  - change (trimEnd (String c (String d t))) with
      (match trimEnd (String d t) with
       | EmptyString =>
           if isWhiteSpace c then EmptyString else String c EmptyString
       | u => String c u
       end).
    now rewrite IH.
Qed.

Lemma trim_idem (s : string) : trim (trim s) = trim s.
Proof.
  unfold trim.
  rewrite (trimStart_clean (trimEnd (trimStart s))).
  - apply trimEnd_idem.
  - apply trimEnd_startsClean, trimStart_startsClean.
Qed.

(** Folding then trimming a folded, trimmed string changes nothing. *)
Lemma fold_trim_idem (s : string) :
  toLowerCase (trim (toLowerCase (trim s))) = toLowerCase (trim s).
Proof. now rewrite trim_toLowerCase, trim_idem, toLowerCase_idem. Qed.

End StringFacts.

(** ** The metrics *)

Section MetricFacts.
Import natural.

Lemma lev_nil_r (s : string) : LevenshteinDistance s EmptyString = String.length s.
Proof. destruct s; reflexivity. Qed.

Lemma lev_cons_cons (a b : ascii) (s t : string) :
  LevenshteinDistance (String a s) (String b t) =
  Nat.min (Nat.min (S (LevenshteinDistance s (String b t)))
                   (S (LevenshteinDistance (String a s) t)))
          (LevenshteinDistance s t + (if Ascii.eqb a b then 0 else 1)).
Proof. reflexivity. Qed.

Lemma lev_le_max (s t : string) :
  (LevenshteinDistance s t ≤ Nat.max (String.length s) (String.length t))%nat.
Proof.
  revert t. induction s as [|a s IHs]; intros t.
  - simpl. lia.
  - destruct t as [|b t].
    + rewrite lev_nil_r. lia.
    + rewrite lev_cons_cons. specialize (IHs t). simpl String.length.
      destruct (Ascii.eqb a b); lia.
Qed.

Lemma lev_zero_iff (s t : string) : LevenshteinDistance s t = 0%nat ↔ s = t.
Proof.
  revert t. induction s as [|a s IHs]; intros t.
  - destruct t; simpl; split; congruence.
  - destruct t as [|b t].
    + rewrite lev_nil_r. simpl. split; congruence.
    + rewrite lev_cons_cons. specialize (IHs t).
      destruct (Ascii.eqb a b) eqn:E.
      * apply Ascii.eqb_eq in E. subst b. split.
        -- intros H. f_equal. apply IHs. lia.
        -- intros H. injection H as H. apply IHs in H. lia.
      * apply Ascii.eqb_neq in E. split; [lia | congruence].
Qed.

(** [1 - num / den] for [num <= den], as the handlers compute it. *)
Lemma one_minus_ratio_bounds (num den : nat) :
  den ≠ 0%nat → (num ≤ den)%nat →
  (0 <= 1 - inject_Z (Z.of_nat num) / inject_Z (Z.of_nat den))%Q ∧
  (1 - inject_Z (Z.of_nat num) / inject_Z (Z.of_nat den) <= 1)%Q.
Proof.
  intros Hden Hle.
  destruct den as [|den]; [congruence|].
  unfold Qle, Qminus, Qplus, Qopp, Qdiv, Qmult, Qinv, inject_Z.
  simpl Qnum. simpl Qden. cbn [Z.of_nat]. simpl Qnum. simpl Qden.
  split; nia.
Qed.

Lemma one_minus_ratio_ge_1 (num den : nat) :
  den ≠ 0%nat →
  (1 <= 1 - inject_Z (Z.of_nat num) / inject_Z (Z.of_nat den))%Q ↔ num = 0%nat.
Proof.
  intros Hden.
  destruct den as [|den]; [congruence|].
  unfold Qle, Qminus, Qplus, Qopp, Qdiv, Qmult, Qinv, inject_Z.
  simpl Qnum. simpl Qden. cbn [Z.of_nat]. simpl Qnum. simpl Qden.
  split; nia.
Qed.

End MetricFacts.

(** ** The similarity scorer *)

Section ScorerFacts.

Variable jw : string → string → Q.

Lemma levenshtein_score_bounds (a b : string) :
  (0 <= ProcessExcel.calculateSimilarity jw a b Levenshtein)%Q ∧
  (ProcessExcel.calculateSimilarity jw a b Levenshtein <= 1)%Q.
Proof.
  unfold ProcessExcel.calculateSimilarity.
  destruct (Nat.eqb_spec (Nat.max (String.length a) (String.length b)) 0) as [E|E].
  - split; discriminate.
  - apply one_minus_ratio_bounds; [exact E | apply lev_le_max].
Qed.

(** Under levenshtein only identical strings reach the score 1. *)
Lemma levenshtein_score_ge_1 (a b : string) :
  (1 <= ProcessExcel.calculateSimilarity jw a b Levenshtein)%Q ↔ a = b.
Proof.
  unfold ProcessExcel.calculateSimilarity.
  destruct (Nat.eqb_spec (Nat.max (String.length a) (String.length b)) 0) as [E|E].
  - split; [intros _ | discriminate].
    destruct a, b; simpl in E; try lia. reflexivity.
  - rewrite one_minus_ratio_ge_1 by exact E. apply lev_zero_iff.
Qed.

(** In the cross-file handler the guard on empty strings comes first;
    behind it the scorer is the one of the deduplication handler. *)
Lemma match_score_unfold (a b : string) (alg : SimilarityAlgorithm) :
  MatchColumns.calculateSimilarity jw a b alg =
  if falsy a || falsy b then 0%Q
  else ProcessExcel.calculateSimilarity jw a b alg.
Proof. reflexivity. Qed.

End ScorerFacts.



(** C7, as the code has it. The cross-file normaliser is idempotent on
    every cell. The normaliser of the signature builder is idempotent on
    every cell but the absent ones (null, undefined, missing key): those give
    the token "NULL", which normalises to "null". *)
Theorem normalizer_idempotence (v : value) :
  MatchColumns.normalizeValue (VStr (MatchColumns.normalizeValue v))
  = MatchColumns.normalizeValue v
  ∧ ProcessExcel.normalizeCell (VStr (ProcessExcel.normalizeCell v))
    = match v with
      | VNull | VUndefined => "null"
      | _ => ProcessExcel.normalizeCell v
      end.
Proof.
  split; destruct v as [| |b|n|s]; try reflexivity;
    try destruct b; try reflexivity;
    cbn [MatchColumns.normalizeValue ProcessExcel.normalizeCell ToString];
    apply fold_trim_idem.
Qed.

(** C7 as stated fails in the signature builder, at the cell [null]. *)
Lemma signature_normalizer_not_idempotent :
  ProcessExcel.normalizeCell (VStr (ProcessExcel.normalizeCell VNull))
  ≠ ProcessExcel.normalizeCell VNull.
Proof. vm_compute. discriminate. Qed.

(** ** The cross-file matcher *)

Section MatcherFacts.
Import MatchColumns.

Context {A : Type}.
Variable jw : string → string → Q.
Variable read : A → row.
Variables (file2Values : list (File2Entry A)) (c1 c2 : string).
Variables (a1 a2 : list string) (t : Q) (alg : SimilarityAlgorithm).

Lemma matchStep_matches (i : nat) (r : A) (st : LoopState (gmap string JS.value)) :
  st_matches (matchStep jw read file2Values c1 c2 a1 a2 t alg i r st)
  = st_matches st ++ [matchEntry jw read file2Values c1 c2 a1 a2 t alg i r].
Proof. reflexivity. Qed.

Lemma matchStep_counts (i : nat) (r : A) (st : LoopState (gmap string JS.value)) :
  (st_matchedCount (matchStep jw read file2Values c1 c2 a1 a2 t alg i r st)
   + st_unmatchedCount (matchStep jw read file2Values c1 c2 a1 a2 t alg i r st)
   = S (st_matchedCount st + st_unmatchedCount st))%nat.
Proof.
  unfold matchStep, pushMatch. cbn [st_matchedCount st_unmatchedCount].
  destruct (findBestMatch jw _ _ _ _); lia.
Qed.

Lemma matchLoop_matches (rows : list A) :
  ∀ (i : nat) (st : LoopState (gmap string JS.value)),
    st_matches (matchLoop jw read file2Values c1 c2 a1 a2 t alg rows i st)
    = st_matches st
      ++ imap (fun k r => matchEntry jw read file2Values c1 c2 a1 a2 t alg (i + k) r)
           rows.
Proof.
  induction rows as [|r rows IH]; intros i st.
  - simpl. now rewrite app_nil_r.
  - cbn [matchLoop]. rewrite IH, matchStep_matches, <- app_assoc, imap_cons.
    cbn [app]. rewrite Nat.add_0_r. do 2 f_equal.
    apply imap_ext. intros k x _. cbn. f_equal. lia.
Qed.

Lemma matchLoop_counts (rows : list A) :
  ∀ (i : nat) (st : LoopState (gmap string JS.value)),
    (st_matchedCount (matchLoop jw read file2Values c1 c2 a1 a2 t alg rows i st)
     + st_unmatchedCount (matchLoop jw read file2Values c1 c2 a1 a2 t alg rows i st)
     = st_matchedCount st + st_unmatchedCount st + length rows)%nat.
Proof.
  induction rows as [|r rows IH]; intros i st.
  - simpl. lia.
  - cbn [matchLoop]. rewrite IH, matchStep_counts. simpl. lia.
Qed.

Lemma matchEntry_index (i : nat) (r : A) :
  file1RowIndex (matchEntry jw read file2Values c1 c2 a1 a2 t alg i r) = i.
Proof. reflexivity. Qed.

Lemma matchEntry_null_score (i : nat) (r : A) :
  file2RowIndex (matchEntry jw read file2Values c1 c2 a1 a2 t alg i r) = None →
  score (matchEntry jw read file2Values c1 c2 a1 a2 t alg i r) = 0%Q.
Proof.
  unfold matchEntry, makeMatch. cbn [file2RowIndex score].
  destruct (findBestMatch jw _ _ _ _); [discriminate | reflexivity].
Qed.

(** An empty search value is answered before the loop: nothing is scored. *)
Lemma findBestMatch_empty :
  findBestMatchCounted jw EmptyString file2Values t alg = (None, 0%nat).
Proof. reflexivity. Qed.

(** The loop scores every candidate once. *)
Lemma bestLoop_calls (s : string) (entries : list (File2Entry A)) :
  ∀ (best : option (BestMatch A)) (calls : nat),
    snd (bestLoop jw s t alg entries best calls) = (calls + length entries)%nat.
Proof.
  induction entries as [|e entries IH]; intros best calls; simpl.
  - lia.
  - rewrite IH. lia.
Qed.

(** The best match is one of the candidates, with its score, and that
    score reaches the threshold. *)
Lemma bestLoop_sound (s : string) (entries : list (File2Entry A)) :
  ∀ (best : option (BestMatch A)) (calls : nat) (b : BestMatch A),
    fst (bestLoop jw s t alg entries best calls) = Some b →
    best = Some b
    ∨ ∃ e, e ∈ entries
           ∧ bestIndex b = index e
           ∧ bestRow b = entryRow e
           ∧ bestScore b = calculateSimilarity jw s (value e) alg
           ∧ geq (calculateSimilarity jw s (value e) alg) t = true.
Proof.
  induction entries as [|e entries IH]; intros best calls b Hb.
  - left. exact Hb.
  - cbn [bestLoop] in Hb. apply IH in Hb as [Hb | (e' & Hin & Hrest)].
    + unfold bestStep in Hb.
      destruct (geq (calculateSimilarity jw s (value e) alg) t) eqn:Hge;
        cbn [andb] in Hb; [|now left].
      destruct (match best with
                | Some b0 => gt (calculateSimilarity jw s (value e) alg) (bestScore b0)
                | None => true
                end); [|now left].
      right. exists e. injection Hb as <-. cbn.
      repeat split; [left | exact Hge].
    + right. exists e'. split; [now right | exact Hrest].
Qed.

Lemma findBestMatch_sound (s : string) (b : BestMatch A) :
  findBestMatch jw s file2Values t alg = Some b →
  ∃ e, e ∈ file2Values
       ∧ bestIndex b = index e
       ∧ bestRow b = entryRow e
       ∧ bestScore b = calculateSimilarity jw s (value e) alg
       ∧ geq (calculateSimilarity jw s (value e) alg) t = true.
Proof.
  unfold findBestMatch, findBestMatchCounted.
  destruct (falsy s); [discriminate|].
  intros H. apply bestLoop_sound in H as [H | H]; [discriminate | exact H].
Qed.

(** A candidate with an empty value scores 0. *)
Lemma score_empty_candidate (s : string) :
  calculateSimilarity jw s EmptyString alg = 0%Q.
Proof. unfold calculateSimilarity. now rewrite orb_true_r. Qed.

End MatcherFacts.

Section MatcherHandler.
Import MatchColumns.

Context {A : Type}.
Variable jw : string → string → Q.
Variable read : A → row.

Lemma preprocess_lookup (c2 : string) (file2Data : list A) (e : File2Entry A) :
  e ∈ preprocess read c2 file2Data →
  ∃ r, file2Data !! index e = Some r
       ∧ entryRow e = r
       ∧ value e = normalizeValue (get (read r) c2).
Proof.
  unfold preprocess. intros (k & r & -> & Hr)%elem_of_lookup_imap.
  exists r. split; [exact Hr | split; reflexivity].
Qed.

(** A well-formed request is answered with one entry per row of file 1. *)
Lemma match_POST_ok (body : MatchRequest A) (c1 c2 : string) :
  file1Data body ≠ [] → file2Data body ≠ [] →
  file1Column body = Some c1 → file2Column body = Some c2 →
  c1 ≠ EmptyString → c2 ≠ EmptyString →
  ∃ resp, POST jw read body = Ok resp
    ∧ matches resp
      = imap (matchEntry jw read (preprocess read c2 (file2Data body)) c1 c2
                (default [] (file1AdditionalColumns body))
                (default [] (file2AdditionalColumns body))
                (default (8 # 10)%Q (similarityThreshold body))
                (default Dice (similarityAlgorithm body)))
             (file1Data body)
    ∧ totalFile1Rows resp = length (file1Data body)
    ∧ totalFile2Rows resp = length (file2Data body)
    ∧ (matchedCount resp + unmatchedCount resp = length (file1Data body))%nat.
Proof.
  intros H1 H2 Hc1 Hc2 Hn1 Hn2. unfold POST. rewrite Hc1, Hc2.
  destruct (file1Data body) as [|r1 rows1] eqn:E1; [congruence|].
  destruct (file2Data body) as [|r2 rows2] eqn:E2; [congruence|].
  cbn [length Nat.eqb].
  destruct c1 as [|x1 c1]; [congruence|].
  destruct c2 as [|x2 c2]; [congruence|].
  cbn [falsy orb]. eexists. split; [reflexivity|].
  cbn [matches totalFile1Rows totalFile2Rows matchedCount unmatchedCount].
  rewrite matchLoop_matches, matchLoop_counts. cbn [st_matches app].
  repeat split; reflexivity.
Qed.

End MatcherHandler.

(** C3. A cross-file request with non-empty files and selected columns is
    answered, with exactly one entry per row of file 1 (the entry at
    position [i] carries the row index [i]), with
    [matchedCount + unmatchedCount = totalFile1Rows], and with score 0 in
    every entry whose target index is null. *)
Theorem cross_match_response_shape {A : Type} (jw : string → string → Q)
    (read : A → row) (body : MatchColumns.MatchRequest A) (c1 c2 : string) :
  MatchColumns.file1Data body ≠ [] →
  MatchColumns.file2Data body ≠ [] →
  MatchColumns.file1Column body = Some c1 →
  MatchColumns.file2Column body = Some c2 →
  c1 ≠ EmptyString → c2 ≠ EmptyString →
  ∃ resp,
    MatchColumns.POST jw read body = Ok resp
    ∧ MatchColumns.totalFile1Rows resp = length (MatchColumns.file1Data body)
    ∧ length (MatchColumns.matches resp) = MatchColumns.totalFile1Rows resp
    ∧ (∀ i, (i < MatchColumns.totalFile1Rows resp)%nat →
            ∃ m, MatchColumns.matches resp !! i = Some m
                 ∧ MatchColumns.file1RowIndex m = i)
    ∧ (MatchColumns.matchedCount resp + MatchColumns.unmatchedCount resp
       = MatchColumns.totalFile1Rows resp)%nat
    ∧ (∀ m, m ∈ MatchColumns.matches resp →
            MatchColumns.file2RowIndex m = None → MatchColumns.score m = 0%Q).
Proof.
  intros H1 H2 Hc1 Hc2 Hn1 Hn2.
  destruct (match_POST_ok jw read body c1 c2 H1 H2 Hc1 Hc2 Hn1 Hn2)
    as (resp & HP & Hm & Ht1 & _ & Hcnt).
  exists resp. rewrite Ht1, Hm, length_imap.
  repeat split; try assumption; try reflexivity.
  - intros i Hi. apply lookup_lt_is_Some_2 in Hi as [r Hr].
    eexists. rewrite list_lookup_imap, Hr. split; reflexivity.
  - intros m (i & r & -> & _)%elem_of_lookup_imap. apply matchEntry_null_score.
Qed.

Lemma cross_match_response_shape_witness :
  ∃ resp,
    MatchColumns.POST constantJaroWinkler id requestBlankSource = Ok resp
    ∧ MatchColumns.totalFile1Rows resp = 2%nat
    ∧ length (MatchColumns.matches resp) = MatchColumns.totalFile1Rows resp
    ∧ (∀ i, (i < MatchColumns.totalFile1Rows resp)%nat →
            ∃ m, MatchColumns.matches resp !! i = Some m
                 ∧ MatchColumns.file1RowIndex m = i)
    ∧ (MatchColumns.matchedCount resp + MatchColumns.unmatchedCount resp
       = MatchColumns.totalFile1Rows resp)%nat
    ∧ (∀ m, m ∈ MatchColumns.matches resp →
            MatchColumns.file2RowIndex m = None → MatchColumns.score m = 0%Q).
Proof.
  apply (cross_match_response_shape constantJaroWinkler id requestBlankSource "v" "v");
    (reflexivity || discriminate).
Defined.

(** C5, as the code has it. In a cross-file request that is answered: a
    source row whose normalised value is empty gets an entry with null
    target index and score 0, and no candidate is scored for it, whatever
    the threshold; a target row whose normalised value is empty scores 0
    against every source value, so it is the target of an entry only when
    the threshold is at most 0. *)
Theorem empty_values_in_cross_match {A : Type} (jw : string → string → Q)
    (read : A → row) (body : MatchColumns.MatchRequest A) (c1 c2 : string) :
  MatchColumns.file1Data body ≠ [] →
  MatchColumns.file2Data body ≠ [] →
  MatchColumns.file1Column body = Some c1 →
  MatchColumns.file2Column body = Some c2 →
  c1 ≠ EmptyString → c2 ≠ EmptyString →
  ∃ resp,
    MatchColumns.POST jw read body = Ok resp
    ∧ ∀ i r m,
        MatchColumns.file1Data body !! i = Some r →
        MatchColumns.matches resp !! i = Some m →
        (MatchColumns.normalizeValue (get (read r) c1) = EmptyString →
           MatchColumns.file2RowIndex m = None
           ∧ MatchColumns.score m = 0%Q
           ∧ MatchColumns.findBestMatchCounted jw
               (MatchColumns.normalizeValue (get (read r) c1))
               (MatchColumns.preprocess read c2 (MatchColumns.file2Data body))
               (default (8 # 10)%Q (MatchColumns.similarityThreshold body))
               (default Dice (MatchColumns.similarityAlgorithm body))
             = (None, 0%nat))
        ∧ (∀ k r2,
             MatchColumns.file2RowIndex m = Some k →
             MatchColumns.file2Data body !! k = Some r2 →
             MatchColumns.normalizeValue (get (read r2) c2) = EmptyString →
             (default (8 # 10)%Q (MatchColumns.similarityThreshold body) <= 0)%Q
             ∧ MatchColumns.score m = 0%Q).
Proof.
  intros H1 H2 Hc1 Hc2 Hn1 Hn2.
  destruct (match_POST_ok jw read body c1 c2 H1 H2 Hc1 Hc2 Hn1 Hn2)
    as (resp & HP & Hm & _).
  exists resp. split; [exact HP|].
  intros i r m Hr Hmi. rewrite Hm, list_lookup_imap, Hr in Hmi.
  injection Hmi as <-. split.
  - intros He. rewrite He. unfold MatchColumns.matchEntry, MatchColumns.makeMatch.
    cbn [MatchColumns.file2RowIndex MatchColumns.score]. rewrite He.
    repeat split.
  - intros k r2. unfold MatchColumns.matchEntry, MatchColumns.makeMatch.
    cbn [MatchColumns.file2RowIndex MatchColumns.score].
    destruct (MatchColumns.findBestMatch jw _ _ _ _) as [b|] eqn:Hb;
      [|discriminate].
    cbn [option_map]. intros [= <-] Hr2 He2.
    apply findBestMatch_sound in Hb as (e & Hin & Hidx & _ & Hsc & Hge).
    apply preprocess_lookup in Hin as (r' & Hr' & _ & Hv).
    rewrite <- Hidx, Hr2 in Hr'. injection Hr' as <-.
    rewrite Hv, He2, score_empty_candidate in Hsc, Hge.
    split; [|exact Hsc].
    unfold geq in Hge. now apply Qle_bool_iff in Hge.
Qed.

Lemma empty_values_in_cross_match_witness :
  ∃ resp,
    MatchColumns.POST constantJaroWinkler id requestBlankSource = Ok resp
    ∧ ∀ i r m,
        MatchColumns.file1Data requestBlankSource !! i = Some r →
        MatchColumns.matches resp !! i = Some m →
        (MatchColumns.normalizeValue (get (id r) "v") = EmptyString →
           MatchColumns.file2RowIndex m = None
           ∧ MatchColumns.score m = 0%Q
           ∧ MatchColumns.findBestMatchCounted constantJaroWinkler
               (MatchColumns.normalizeValue (get (id r) "v"))
               (MatchColumns.preprocess id "v"
                  (MatchColumns.file2Data requestBlankSource))
               (default (8 # 10)%Q
                  (MatchColumns.similarityThreshold requestBlankSource))
               (default Dice (MatchColumns.similarityAlgorithm requestBlankSource))
             = (None, 0%nat))
        ∧ (∀ k r2,
             MatchColumns.file2RowIndex m = Some k →
             MatchColumns.file2Data requestBlankSource !! k = Some r2 →
             MatchColumns.normalizeValue (get (id r2) "v") = EmptyString →
             (default (8 # 10)%Q
                (MatchColumns.similarityThreshold requestBlankSource) <= 0)%Q
             ∧ MatchColumns.score m = 0%Q).
Proof.
  apply (empty_values_in_cross_match constantJaroWinkler id requestBlankSource
           "v" "v");
    (reflexivity || discriminate).
Defined.

(** C5 as stated fails at threshold 0: the source value "x" is matched with
    the target row 0, whose normalised value is empty. *)
Lemma empty_target_matched_at_threshold_zero :
  MatchColumns.normalizeValue (get (rowV (VStr EmptyString)) "v") = EmptyString
  ∧ match MatchColumns.POST constantJaroWinkler id requestThresholdZero with
    | Ok resp => map MatchColumns.file2RowIndex (MatchColumns.matches resp)
    | Error _ _ => []
    end = [Some 0%nat].
Proof. split; vm_compute; reflexivity. Qed.

(** ** The exact reducer *)

Section ExactFacts.
Import ProcessExcel.

Context {A : Type}.
Variable read : A → row.
Variable columns : list string.

Lemma exactLoop_app (l1 l2 : list A) :
  ∀ (i : nat) (st : ExactState A),
    exactLoop read columns (l1 ++ l2) i st
    = exactLoop read columns l2 (i + length l1) (exactLoop read columns l1 i st).
Proof.
  induction l1 as [|r l1 IH]; intros i st; simpl.
  - now rewrite Nat.add_0_r.
  - rewrite IH. f_equal. lia.
Qed.

Lemma exactLoop_snoc (l : list A) (r : A) :
  exactLoop read columns (l ++ [r]) 0 exactInit
  = exactStep read columns (length l) r (exactLoop read columns l 0 exactInit).
Proof. now rewrite exactLoop_app. Qed.

Lemma isFirstOccurrence_lt (l : list A) (i : nat) :
  isFirstOccurrence read columns l i → (i < length l)%nat.
Proof. intros (r & Hr & _). now apply lookup_lt_Some in Hr. Qed.

Lemma isFirstOccurrence_snoc (l : list A) (r : A) (i : nat) :
  isFirstOccurrence read columns (l ++ [r]) i
  ↔ isFirstOccurrence read columns l i
    ∨ (i = length l
       ∧ ∀ j r', l !! j = Some r' →
           createSignature (read r') columns ≠ createSignature (read r) columns).
Proof.
  split.
  - intros (r0 & Hr0 & Hfirst).
    apply lookup_snoc_Some in Hr0 as [[Hlt Hr0] | [-> ->]].
    + left. exists r0. split; [exact Hr0|].
      intros j r' Hj Hr'. apply (Hfirst j r' Hj).
      rewrite lookup_app_l by lia. exact Hr'.
    + right. split; [reflexivity|].
      intros j r' Hr'. pose proof (lookup_lt_Some _ _ _ Hr') as Hj.
      apply (Hfirst j r' Hj). rewrite lookup_app_l by lia. exact Hr'.
  - intros [(r0 & Hr0 & Hfirst) | [-> Hnew]].
    + pose proof (lookup_lt_Some _ _ _ Hr0) as Hi.
      exists r0. split; [rewrite lookup_app_l by lia; exact Hr0|].
      intros j r' Hj Hr'. apply (Hfirst j r' Hj).
      rewrite lookup_app_l in Hr' by lia. exact Hr'.
    + exists r. split; [apply list_lookup_middle; reflexivity|].
      intros j r' Hj Hr'. apply (Hnew j r').
      rewrite lookup_app_l in Hr' by lia. exact Hr'.
Qed.

Lemma exactInv_init : ExactInv read columns [] exactInit.
Proof.
  split.
  - intros s j H. cbn in H. now rewrite lookup_empty in H.
  - intros s _ j r H. now rewrite lookup_nil in H.
  - exists []. split; [constructor|]. split; [|constructor].
    intros i. split; [intros H; inversion H|].
    intros (r & Hr & _). now rewrite lookup_nil in Hr.
Qed.

Lemma exactInv_step (l : list A) (r : A) (st : ExactState A) :
  ExactInv read columns l st →
  ExactInv read columns (l ++ [r]) (exactStep read columns (length l) r st).
Proof.
  intros [Hfirst Hnone (idxs & Hsorted & Hmem & Hrows)].
  unfold exactStep.
  destruct (seen st !! createSignature (read r) columns) as [first|] eqn:Hseen.
  - split; cbn [seen ex_uniqueRows].
    + intros s j Hs. destruct (Hfirst s j Hs) as (r0 & Hr0 & Hsig).
      exists r0. split; [|exact Hsig].
      rewrite lookup_app_l; [exact Hr0 | now apply lookup_lt_Some in Hr0].
    + intros s Hs j r0 Hr0.
      apply lookup_snoc_Some in Hr0 as [[_ Hr0] | [_ ->]].
      * now apply (Hnone s Hs j).
      * intros <-. congruence.
    + exists idxs. split; [exact Hsorted|]. split.
      * intros i. rewrite Hmem, isFirstOccurrence_snoc. split; [now left|].
        intros [H | [_ Hnew]]; [exact H|].
        destruct (Hfirst _ _ Hseen) as (r0 & Hr0 & Hsig).
        now destruct (Hnew first r0 Hr0).
      * eapply Forall2_impl; [exact Hrows|].
        intros i r0 Hr0. cbn. rewrite lookup_app_l; [exact Hr0|].
        now apply lookup_lt_Some in Hr0.
  - split; cbn [seen ex_uniqueRows].
    + intros s j Hs. apply lookup_insert_Some in Hs as [[<- <-] | [_ Hs]].
      * exists r. split; [apply list_lookup_middle; reflexivity | reflexivity].
      * destruct (Hfirst s j Hs) as (r0 & Hr0 & Hsig).
        exists r0. split; [|exact Hsig].
        rewrite lookup_app_l; [exact Hr0 | now apply lookup_lt_Some in Hr0].
    + intros s Hs j r0 Hr0. apply lookup_insert_None in Hs as [Hs Hne].
      apply lookup_snoc_Some in Hr0 as [[_ Hr0] | [_ ->]].
      * now apply (Hnone s Hs j).
      * exact Hne.
    + exists (idxs ++ [length l]). split; [|split].
      * apply StronglySorted_app_2; [| exact Hsorted | repeat constructor].
        intros i1 i2 Hi1 ->%list_elem_of_singleton.
        apply Hmem in Hi1. now apply isFirstOccurrence_lt in Hi1.
      * intros i.
        rewrite elem_of_app, list_elem_of_singleton, Hmem, isFirstOccurrence_snoc.
        split; (intros [H | H]; [now left | right]).
        -- split; [exact H|]. intros j r0 Hr0. now apply (Hnone _ Hseen j).
        -- now destruct H.
      * apply Forall2_app.
        -- eapply Forall2_impl; [exact Hrows|].
           intros i r0 Hr0. cbn. rewrite lookup_app_l; [exact Hr0|].
           now apply lookup_lt_Some in Hr0.
        -- repeat constructor. apply list_lookup_middle. reflexivity.
Qed.

Lemma exactInv_loop (l : list A) : ExactInv read columns l (exactLoop read columns l 0 exactInit).
Proof.
  induction l as [|r l IH] using rev_ind.
  - apply exactInv_init.
  - rewrite exactLoop_snoc. now apply exactInv_step.
Qed.

(** The accepted rows of the exact reducer are the first occurrences. *)
Lemma removeExactDuplicates_first (data : list A) :
  firstOccurrenceSubsequence read columns data
    (uniqueRows (removeExactDuplicates read data columns)).
Proof. apply exactInv_loop. Qed.

Lemma exactLoop_length (l : list A) :
  ∀ (i : nat) (st : ExactState A),
    (length (ex_uniqueRows (exactLoop read columns l i st))
     ≤ length (ex_uniqueRows st) + length l)%nat.
Proof.
  induction l as [|r l IH]; intros i st; simpl; [lia|].
  etransitivity; [apply IH|].
  unfold exactStep. destruct (seen st !! _); cbn [ex_uniqueRows];
    rewrite ?length_app; simpl; lia.
Qed.

End ExactFacts.

(** ** The deduplication handler *)

Section SliceFacts.

Lemma slice_length {A : Type} (l : list A) (start end_ : Z) :
  (length (slice l start end_) ≤ length l)%nat.
Proof. unfold slice. rewrite length_take, length_drop. lia. Qed.

Lemma slice_all {A : Type} (l : list A) : slice l 0 (Z.of_nat (length l)) = l.
Proof.
  unfold slice. change (0 <? 0)%Z with false. cbv iota.
  destruct (Z.ltb_spec (Z.of_nat (length l)) 0) as [E|E]; [lia|].
  rewrite Z.min_id, (Z.min_l 0) by lia.
  rewrite Z.sub_0_r, Nat2Z.id. cbn [Z.to_nat drop]. apply firstn_all.
Qed.

Lemma slice_start_beyond {A : Type} (l : list A) (start end_ : Z) :
  (Z.of_nat (length l) <= start)%Z → slice l start end_ = [].
Proof.
  intros H. unfold slice.
  destruct (Z.ltb_spec start 0) as [E|E]; [lia|].
  rewrite (Z.min_r start) by lia. rewrite Nat2Z.id, drop_ge by lia.
  now rewrite take_nil.
Qed.

Lemma processedRows_default {A : Type} (body : ProcessExcel.ProcessRequest A) :
  ProcessExcel.sliceStart body = None → ProcessExcel.sliceEnd body = None →
  processedRows body = ProcessExcel.data body.
Proof. unfold processedRows. intros -> ->. apply slice_all. Qed.

End SliceFacts.

Section ProcessHandler.
Import ProcessExcel.

Context {A : Type}.
Variable jw : string → string → Q.
Variable read : A → row.

(** A well-formed request is answered from the reducer's result on the
    slice. *)
Lemma process_POST_ok (body : ProcessRequest A) :
  data body ≠ [] → columns body ≠ [] →
  ∃ resp, POST jw read body = Ok resp
    ∧ resp_uniqueRows resp
      = map (fun r => annotate (columns body) (read r))
          (uniqueRows
             (removeDuplicateRows jw read (processedRows body) (columns body)
                (default Fuzzy (comparisonMode body))
                (default (8 # 10)%Q (similarityThreshold body))
                (default JaroWinkler (similarityAlgorithm body))))
    ∧ resp_duplicatesFound resp
      = duplicatesFound
          (removeDuplicateRows jw read (processedRows body) (columns body)
             (default Fuzzy (comparisonMode body))
             (default (8 # 10)%Q (similarityThreshold body))
             (default JaroWinkler (similarityAlgorithm body)))
    ∧ originalCount resp = Z.of_nat (length (data body))
    ∧ uniqueCount resp = Z.of_nat (length (resp_uniqueRows resp))
    ∧ removedCount resp = (originalCount resp - uniqueCount resp)%Z.
Proof.
  intros Hd Hc. unfold POST.
  destruct (data body) as [|r0 rows] eqn:Ed; [congruence|].
  destruct (columns body) as [|c0 cols] eqn:Ec; [congruence|].
  cbn [length Nat.eqb]. eexists. split; [reflexivity|].
  unfold processedRows. rewrite Ed. repeat split; reflexivity.
Qed.

End ProcessHandler.

(** C1. An exact-mode request with non-empty data and columns is answered.
    The accepted rows of the exact reducer are exactly the sub-sequence of
    first occurrences of the signatures among the processed rows, in input
    order, and the [uniqueRows] of the response are these rows, each with its
    [isni] annotation; the processed rows are the whole input when no slice
    is given. The counts satisfy
    [removedCount = originalCount - uniqueCount >= 0]. *)
Theorem exact_mode_first_occurrences {A : Type} (jw : string → string → Q)
    (read : A → row) (body : ProcessExcel.ProcessRequest A) :
  ProcessExcel.data body ≠ [] →
  ProcessExcel.columns body ≠ [] →
  ProcessExcel.comparisonMode body = Some Exact →
  ∃ resp raw,
    ProcessExcel.POST jw read body = Ok resp
    ∧ raw = ProcessExcel.uniqueRows
              (ProcessExcel.removeExactDuplicates read (processedRows body)
                 (ProcessExcel.columns body))
    ∧ firstOccurrenceSubsequence read (ProcessExcel.columns body)
        (processedRows body) raw
    ∧ ProcessExcel.resp_uniqueRows resp
      = map (fun r => ProcessExcel.annotate (ProcessExcel.columns body) (read r)) raw
    ∧ (ProcessExcel.sliceStart body = None → ProcessExcel.sliceEnd body = None →
       processedRows body = ProcessExcel.data body)
    ∧ ProcessExcel.originalCount resp = Z.of_nat (length (ProcessExcel.data body))
    ∧ ProcessExcel.uniqueCount resp = Z.of_nat (length raw)
    ∧ ProcessExcel.removedCount resp
      = (ProcessExcel.originalCount resp - ProcessExcel.uniqueCount resp)%Z
    ∧ (0 <= ProcessExcel.removedCount resp)%Z.
Proof.
  intros Hd Hc Hmode.
  destruct (process_POST_ok jw read body Hd Hc)
    as (resp & HP & Hrows & _ & Ho & Hu & Hr).
  rewrite Hmode in Hrows.
  change (default Fuzzy (Some Exact)) with Exact in Hrows.
  cbn [ProcessExcel.removeDuplicateRows] in Hrows.
  exists resp. eexists. split; [exact HP|]. split; [reflexivity|].
  rewrite Hrows, length_map in Hu.
  repeat split; try assumption.
  - apply removeExactDuplicates_first.
  - apply processedRows_default.
  - rewrite Hr, Ho, Hu.
    pose proof (exactLoop_length read (ProcessExcel.columns body)
                  (processedRows body) 0 ProcessExcel.exactInit) as Hlen.
    pose proof (slice_length (ProcessExcel.data body)
                  (default 0%Z (ProcessExcel.sliceStart body))
                  (default (Z.of_nat (length (ProcessExcel.data body)))
                     (ProcessExcel.sliceEnd body))) as Hsl.
    unfold ProcessExcel.removeExactDuplicates. cbn [ProcessExcel.uniqueRows].
    cbn [ProcessExcel.exactInit ProcessExcel.ex_uniqueRows length] in Hlen.
    unfold processedRows in Hlen |- *. lia.
Qed.

Lemma exact_mode_first_occurrences_witness :
  ∃ resp raw,
    ProcessExcel.POST constantJaroWinkler id sampleExactRequest = Ok resp
    ∧ raw = ProcessExcel.uniqueRows
              (ProcessExcel.removeExactDuplicates id
                 (processedRows sampleExactRequest)
                 (ProcessExcel.columns sampleExactRequest))
    ∧ firstOccurrenceSubsequence id (ProcessExcel.columns sampleExactRequest)
        (processedRows sampleExactRequest) raw
    ∧ ProcessExcel.resp_uniqueRows resp
      = map (fun r => ProcessExcel.annotate
                        (ProcessExcel.columns sampleExactRequest) (id r)) raw
    ∧ (ProcessExcel.sliceStart sampleExactRequest = None →
       ProcessExcel.sliceEnd sampleExactRequest = None →
       processedRows sampleExactRequest = ProcessExcel.data sampleExactRequest)
    ∧ ProcessExcel.originalCount resp
      = Z.of_nat (length (ProcessExcel.data sampleExactRequest))
    ∧ ProcessExcel.uniqueCount resp = Z.of_nat (length raw)
    ∧ ProcessExcel.removedCount resp
      = (ProcessExcel.originalCount resp - ProcessExcel.uniqueCount resp)%Z
    ∧ (0 <= ProcessExcel.removedCount resp)%Z.
Proof.
  apply (exact_mode_first_occurrences constantJaroWinkler id sampleExactRequest);
    (reflexivity || discriminate).
Defined.

(** The test sheet in exact mode: rows 0, 1 and 3 are kept, and the two
    duplicates refer to the original indices 0 and 1. *)
Example exact_mode_sample :
  ProcessExcel.uniqueRows
    (ProcessExcel.removeExactDuplicates id sampleRows ["Name"; "Email"])
  = [ person "John Doe" "john@e.com"; person "Jane" "jane@e.com";
      person "Bob" "bob@e.com" ]
  ∧ map (fun d => (ProcessExcel.originalIndex d, ProcessExcel.duplicateIndex d))
      (ProcessExcel.duplicatesFound
         (ProcessExcel.removeExactDuplicates id sampleRows ["Name"; "Email"]))
    = [(0, 2); (1, 4)]%nat.
Proof. split; vm_compute; reflexivity. Qed.

(** C10. A request with non-empty data and columns whose slice is empty (as
    when [sliceStart] is at least the number of rows) is not rejected: it
    is answered with no unique row, [uniqueCount = 0], no duplicate, and
    [removedCount = originalCount], the number of rows of the un-sliced
    input. *)
Theorem empty_slice_is_answered {A : Type} (jw : string → string → Q)
    (read : A → row) (body : ProcessExcel.ProcessRequest A) :
  ProcessExcel.data body ≠ [] →
  ProcessExcel.columns body ≠ [] →
  processedRows body = [] →
  ∃ resp,
    ProcessExcel.POST jw read body = Ok resp
    ∧ ProcessExcel.resp_uniqueRows resp = []
    ∧ ProcessExcel.uniqueCount resp = 0%Z
    ∧ ProcessExcel.resp_duplicatesFound resp = []
    ∧ ProcessExcel.originalCount resp = Z.of_nat (length (ProcessExcel.data body))
    ∧ ProcessExcel.removedCount resp = ProcessExcel.originalCount resp.
Proof.
  intros Hd Hc Hs.
  destruct (process_POST_ok jw read body Hd Hc)
    as (resp & HP & Hrows & Hdup & Ho & Hu & Hr).
  rewrite Hs in Hrows, Hdup.
  assert (Hempty : ∀ mode t alg,
    ProcessExcel.removeDuplicateRows jw read [] (ProcessExcel.columns body) mode t alg
    = {| ProcessExcel.uniqueRows := []; ProcessExcel.duplicatesFound := [] |}).
  { intros [] t alg; reflexivity. }
  rewrite Hempty in Hrows, Hdup. cbn in Hrows, Hdup.
  rewrite Hrows in Hu. cbn in Hu.
  exists resp. repeat split; try assumption.
  rewrite Hr, Hu. lia.
Qed.

Lemma empty_slice_is_answered_witness :
  ∃ resp,
    ProcessExcel.POST constantJaroWinkler id sampleEmptySliceRequest = Ok resp
    ∧ ProcessExcel.resp_uniqueRows resp = []
    ∧ ProcessExcel.uniqueCount resp = 0%Z
    ∧ ProcessExcel.resp_duplicatesFound resp = []
    ∧ ProcessExcel.originalCount resp
      = Z.of_nat (length (ProcessExcel.data sampleEmptySliceRequest))
    ∧ ProcessExcel.removedCount resp = ProcessExcel.originalCount resp.
Proof.
  apply (empty_slice_is_answered constantJaroWinkler id sampleEmptySliceRequest);
    (reflexivity || discriminate).
Defined.

(** ** The fuzzy reducer *)

Section OrderFacts.

Lemma geq_true (a b : Q) : geq a b = true ↔ (b <= a)%Q.
Proof. apply Qle_bool_iff. Qed.

Lemma geq_false (a b : Q) : geq a b = false ↔ (a < b)%Q.
Proof.
  unfold geq. split.
  - intros H. apply Qnot_le_lt. intros Hle. apply Qle_bool_iff in Hle. congruence.
  - intros H. destruct (Qle_bool b a) eqn:E; [|reflexivity].
    apply Qle_bool_iff in E. now apply Qlt_not_le in H.
Qed.

Lemma gt_true (a b : Q) : gt a b = true ↔ (b < a)%Q.
Proof.
  unfold gt. rewrite negb_true_iff. apply (geq_false b a).
Qed.

Lemma gt_false (a b : Q) : gt a b = false ↔ (a <= b)%Q.
Proof. unfold gt. rewrite negb_false_iff. apply Qle_bool_iff. Qed.

End OrderFacts.

Section FuzzyFacts.
Import ProcessExcel.

Variable jw : string → string → Q.
Variables (threshold : Q) (alg : SimilarityAlgorithm).

Lemma similarStep_inv (sig : string) (pre : list Accepted) (x : Accepted)
    (best : option MatchResult) :
  bestSoFar jw sig threshold alg pre best →
  bestSoFar jw sig threshold alg (pre ++ [x])
    (similarStep jw sig threshold alg x best).
Proof.
  intros Hbest. unfold similarStep.
  set (sc := calculateSimilarity jw sig (signature x) alg).
  assert (Hnew : (threshold <= sc)%Q →
                 (∀ e, e ∈ pre →
                    (calculateSimilarity jw sig (signature e) alg < sc)%Q) →
                 isBestAccepted jw sig threshold alg (pre ++ [x]) (length pre) x).
  { intros Hge Hlt. split; [apply list_lookup_middle; reflexivity|].
    split; [exact Hge|]. split.
    - intros j e' [[_ He'] | [_ ->]]%lookup_snoc_Some; [|apply Qle_refl].
      apply Qlt_le_weak, Hlt. eapply list_elem_of_lookup_2, He'.
    - intros j e' Hj He'. rewrite lookup_app_l in He' by exact Hj.
      apply Hlt. eapply list_elem_of_lookup_2, He'. }
  destruct (geq sc threshold) eqn:Hge; cbn [andb].
  - apply geq_true in Hge. destruct best as [m|].
    + destruct Hbest as (k & e & (Hk & Ht & Hmax & Hties) & ->).
      cbn [matchedScore].
      destruct (gt sc (calculateSimilarity jw sig (signature e) alg)) eqn:Hgt.
      * apply gt_true in Hgt. exists (length pre), x. split; [|reflexivity].
        apply Hnew; [exact Hge|].
        intros e' [j He']%list_elem_of_lookup_1.
        eapply Qle_lt_trans; [apply (Hmax j e' He') | exact Hgt].
      * apply gt_false in Hgt. exists k, e. split; [|reflexivity].
        pose proof (lookup_lt_Some _ _ _ Hk) as Hklt.
        split; [rewrite lookup_app_l by exact Hklt; exact Hk|].
        split; [exact Ht|]. split.
        -- intros j e' [[_ He'] | [_ ->]]%lookup_snoc_Some;
             [apply (Hmax j e' He') | exact Hgt].
        -- intros j e' Hj He'. rewrite lookup_app_l in He' by lia.
           apply (Hties j e' Hj He').
    + exists (length pre), x. split; [|reflexivity].
      apply Hnew; [exact Hge|]. intros e' He'.
      eapply Qlt_le_trans; [apply Hbest, He' | exact Hge].
  - apply geq_false in Hge. destruct best as [m|].
    + destruct Hbest as (k & e & (Hk & Ht & Hmax & Hties) & ->).
      exists k, e. split; [|reflexivity].
      pose proof (lookup_lt_Some _ _ _ Hk) as Hklt.
      split; [rewrite lookup_app_l by exact Hklt; exact Hk|].
      split; [exact Ht|]. split.
      * intros j e' [[_ He'] | [_ ->]]%lookup_snoc_Some;
          [apply (Hmax j e' He')|].
        apply Qlt_le_weak. eapply Qlt_le_trans; [exact Hge | exact Ht].
      * intros j e' Hj He'. rewrite lookup_app_l in He' by lia.
        apply (Hties j e' Hj He').
    + intros e' [He' | ->%list_elem_of_singleton]%elem_of_app;
        [apply Hbest, He' | exact Hge].
Qed.

Lemma similarLoop_inv (sig : string) (rest : list Accepted) :
  ∀ (pre : list Accepted) (best : option MatchResult),
    bestSoFar jw sig threshold alg pre best →
    bestSoFar jw sig threshold alg (pre ++ rest)
      (similarLoop jw sig threshold alg rest best).
Proof.
  induction rest as [|x rest IH]; intros pre best Hbest.
  - now rewrite app_nil_r.
  - cbn [similarLoop]. rewrite (cons_middle x pre rest), app_assoc.
    apply IH, similarStep_inv, Hbest.
Qed.

(** [findSimilarMatch] returns nothing when every accepted candidate scores
    below the threshold, and otherwise the first of the best-scoring
    accepted candidates, with its score. *)
Lemma findSimilarMatch_spec (sig : string) (accepted : list Accepted) :
  bestSoFar jw sig threshold alg accepted
    (findSimilarMatch jw sig accepted threshold alg).
Proof.
  unfold findSimilarMatch.
  destruct accepted as [|x accepted]; cbn [length Nat.eqb].
  - intros e He. inversion He.
  - apply (similarLoop_inv sig (x :: accepted) [] None).
    intros e He. inversion He.
Qed.

Context {A : Type}.
Variable read : A → row.
Variable columns : list string.

Lemma fuzzyLoop_app (l1 l2 : list A) :
  ∀ (i : nat) (st : FuzzyState A),
    fuzzyLoop jw read columns threshold alg (l1 ++ l2) i st
    = fuzzyLoop jw read columns threshold alg l2 (i + length l1)
        (fuzzyLoop jw read columns threshold alg l1 i st).
Proof.
  induction l1 as [|r l1 IH]; intros i st; simpl.
  - now rewrite Nat.add_0_r.
  - rewrite IH. f_equal. lia.
Qed.

Lemma fuzzyLoop_snoc (l : list A) (r : A) :
  fuzzyLoop jw read columns threshold alg (l ++ [r]) 0 fuzzyInit
  = fuzzyStep jw read columns threshold alg (length l) r
      (fuzzyLoop jw read columns threshold alg l 0 fuzzyInit).
Proof. now rewrite fuzzyLoop_app. Qed.

Lemma fuzzyAfter_S (data : list A) (i : nat) (r : A) :
  data !! i = Some r →
  fuzzyAfter jw read columns threshold alg data (S i)
  = fuzzyStep jw read columns threshold alg i r
      (fuzzyAfter jw read columns threshold alg data i).
Proof.
  intros Hr. unfold fuzzyAfter.
  rewrite (take_S_r _ _ _ Hr), fuzzyLoop_snoc, length_take_le; [reflexivity|].
  apply lookup_lt_Some in Hr. lia.
Qed.

Lemma fuzzyAfter_all (data : list A) :
  removeFuzzyDuplicates jw read data columns threshold alg
  = {| uniqueRows :=
         fz_uniqueRows (fuzzyAfter jw read columns threshold alg data (length data));
       duplicatesFound :=
         fz_duplicatesFound
           (fuzzyAfter jw read columns threshold alg data (length data)) |}.
Proof. unfold fuzzyAfter. now rewrite firstn_all. Qed.

(** The accepted list and the accepted rows go together: each accepted
    entry holds the signature and the index of the row at its position. *)
Lemma fuzzy_accepted_rows (l : list A) :
  Forall2 (fun e r => signature e = createSignature (read r) columns
                      ∧ l !! index e = Some r)
    (uniqueSignatures (fuzzyLoop jw read columns threshold alg l 0 fuzzyInit))
    (fz_uniqueRows (fuzzyLoop jw read columns threshold alg l 0 fuzzyInit)).
Proof.
  induction l as [|r l IH] using rev_ind; [constructor|].
  rewrite fuzzyLoop_snoc. unfold fuzzyStep.
  assert (Hweak :
    Forall2 (fun e r0 => signature e = createSignature (read r0) columns
                         ∧ (l ++ [r]) !! index e = Some r0)
      (uniqueSignatures (fuzzyLoop jw read columns threshold alg l 0 fuzzyInit))
      (fz_uniqueRows (fuzzyLoop jw read columns threshold alg l 0 fuzzyInit))).
  { eapply Forall2_impl; [exact IH|]. intros e r0 [Hs Hr0]. split; [exact Hs|].
    rewrite lookup_app_l; [exact Hr0 | now apply lookup_lt_Some in Hr0]. }
  destruct (findSimilarMatch jw _ _ _ _); cbn [uniqueSignatures fz_uniqueRows].
  - exact Hweak.
  - apply Forall2_app; [exact Hweak|]. repeat constructor.
    cbn. apply list_lookup_middle. reflexivity.
Qed.

End FuzzyFacts.

(** C2. In the left-to-right pass of the fuzzy reducer, the row [r] at
    index [i] is handled from the accepted list built on the rows before it:
    either every accepted signature scores below the threshold against the
    signature of [r], and [r] is appended to the accepted rows and its
    signature with index [i] to the accepted list; or [r] is left out of the
    accepted rows and one report is appended, against the accepted candidate
    of maximal score (which reaches the threshold), the first one among those
    of that score, carrying its signature, its index and that score. The
    result of the reducer is read from the loop variables after the last
    row, and the accepted list holds the signatures and indices of the
    accepted rows. *)
Theorem fuzzy_pass_step {A : Type} (jw : string → string → Q) (read : A → row)
    (columns : list string) (threshold : Q) (alg : SimilarityAlgorithm)
    (data : list A) (i : nat) (r : A) :
  data !! i = Some r →
  let st := fuzzyAfter jw read columns threshold alg data i in
  let st' := fuzzyAfter jw read columns threshold alg data (S i) in
  let sig := ProcessExcel.createSignature (read r) columns in
  let score := fun e =>
    ProcessExcel.calculateSimilarity jw sig (ProcessExcel.signature e) alg in
  (((∀ e, e ∈ ProcessExcel.uniqueSignatures st → (score e < threshold)%Q)
    ∧ st' = {| ProcessExcel.fz_uniqueRows := ProcessExcel.fz_uniqueRows st ++ [r];
               ProcessExcel.uniqueSignatures :=
                 ProcessExcel.uniqueSignatures st
                   ++ [{| ProcessExcel.signature := sig;
                          ProcessExcel.index := i |}];
               ProcessExcel.fz_duplicatesFound :=
                 ProcessExcel.fz_duplicatesFound st |})
   ∨ (∃ k e,
        isBestAccepted jw sig threshold alg (ProcessExcel.uniqueSignatures st) k e
        ∧ st' = {| ProcessExcel.fz_uniqueRows := ProcessExcel.fz_uniqueRows st;
                   ProcessExcel.uniqueSignatures :=
                     ProcessExcel.uniqueSignatures st;
                   ProcessExcel.fz_duplicatesFound :=
                     ProcessExcel.fz_duplicatesFound st
                       ++ [{| ProcessExcel.original := ProcessExcel.signature e;
                              ProcessExcel.duplicate := sig;
                              ProcessExcel.originalIndex := ProcessExcel.index e;
                              ProcessExcel.duplicateIndex := i;
                              ProcessExcel.score := Some (score e) |}] |}))
  ∧ Forall2 (fun e r0 =>
               ProcessExcel.signature e = ProcessExcel.createSignature (read r0) columns
               ∧ data !! ProcessExcel.index e = Some r0)
      (ProcessExcel.uniqueSignatures st) (ProcessExcel.fz_uniqueRows st)
  ∧ ProcessExcel.removeFuzzyDuplicates jw read data columns threshold alg
    = {| ProcessExcel.uniqueRows :=
           ProcessExcel.fz_uniqueRows
             (fuzzyAfter jw read columns threshold alg data (length data));
         ProcessExcel.duplicatesFound :=
           ProcessExcel.fz_duplicatesFound
             (fuzzyAfter jw read columns threshold alg data (length data)) |}.
Proof.
  intros Hr st st' sig score. split; [|split].
  - subst st'. rewrite (fuzzyAfter_S jw threshold alg read columns data i r Hr).
    fold st. unfold ProcessExcel.fuzzyStep. fold sig.
    pose proof (findSimilarMatch_spec jw threshold alg sig
                  (ProcessExcel.uniqueSignatures st)) as Hspec.
    destruct (ProcessExcel.findSimilarMatch jw sig _ threshold alg) as [m|].
    + right. destruct Hspec as (k & e & Hbest & ->). exists k, e.
      split; [exact Hbest | reflexivity].
    + left. split; [exact Hspec | reflexivity].
  - subst st. unfold fuzzyAfter.
    eapply Forall2_impl; [apply fuzzy_accepted_rows|].
    intros e r0 [Hs Hr0]. split; [exact Hs|].
    apply lookup_take_Some in Hr0. tauto.
  - apply fuzzyAfter_all.
Qed.

Lemma fuzzy_pass_step_witness :
  let data := sampleRows in
  let st := fuzzyAfter constantJaroWinkler id ["Name"] (95 # 100) Levenshtein data 2 in
  let st' := fuzzyAfter constantJaroWinkler id ["Name"] (95 # 100) Levenshtein data 3 in
  let sig :=
    ProcessExcel.createSignature (id (person "John Doe" "john@e.com")) ["Name"] in
  let score := fun e =>
    ProcessExcel.calculateSimilarity constantJaroWinkler sig
      (ProcessExcel.signature e) Levenshtein in
  (((∀ e, e ∈ ProcessExcel.uniqueSignatures st → (score e < 95 # 100)%Q)
    ∧ st' = {| ProcessExcel.fz_uniqueRows :=
                 ProcessExcel.fz_uniqueRows st ++ [person "John Doe" "john@e.com"];
               ProcessExcel.uniqueSignatures :=
                 ProcessExcel.uniqueSignatures st
                   ++ [{| ProcessExcel.signature := sig;
                          ProcessExcel.index := 2 |}];
               ProcessExcel.fz_duplicatesFound :=
                 ProcessExcel.fz_duplicatesFound st |})
   ∨ (∃ k e,
        isBestAccepted constantJaroWinkler sig (95 # 100) Levenshtein
          (ProcessExcel.uniqueSignatures st) k e
        ∧ st' = {| ProcessExcel.fz_uniqueRows := ProcessExcel.fz_uniqueRows st;
                   ProcessExcel.uniqueSignatures :=
                     ProcessExcel.uniqueSignatures st;
                   ProcessExcel.fz_duplicatesFound :=
                     ProcessExcel.fz_duplicatesFound st
                       ++ [{| ProcessExcel.original := ProcessExcel.signature e;
                              ProcessExcel.duplicate := sig;
                              ProcessExcel.originalIndex := ProcessExcel.index e;
                              ProcessExcel.duplicateIndex := 2;
                              ProcessExcel.score := Some (score e) |}] |}))
  ∧ Forall2 (fun e r0 =>
               ProcessExcel.signature e = ProcessExcel.createSignature (id r0) ["Name"]
               ∧ data !! ProcessExcel.index e = Some r0)
      (ProcessExcel.uniqueSignatures st) (ProcessExcel.fz_uniqueRows st)
  ∧ ProcessExcel.removeFuzzyDuplicates constantJaroWinkler id data ["Name"]
      (95 # 100) Levenshtein
    = {| ProcessExcel.uniqueRows :=
           ProcessExcel.fz_uniqueRows
             (fuzzyAfter constantJaroWinkler id ["Name"] (95 # 100) Levenshtein
                data (length data));
         ProcessExcel.duplicatesFound :=
           ProcessExcel.fz_duplicatesFound
             (fuzzyAfter constantJaroWinkler id ["Name"] (95 # 100) Levenshtein
                data (length data)) |}.
Proof.
  apply (fuzzy_pass_step constantJaroWinkler id ["Name"] (95 # 100) Levenshtein
           sampleRows 2 (person "John Doe" "john@e.com")).
  reflexivity.
Defined.

(** ** Fuzzy mode at threshold 1 against exact mode *)

Section ThresholdOne.
Import ProcessExcel.

Context {A : Type}.
Variable jw : string → string → Q.
Variable read : A → row.
Variable alg : SimilarityAlgorithm.
Variable columns : list string.

(** Only identical strings reach the score 1 under [alg]. *)
Hypothesis identical_only :
  ∀ a b, (1 <= calculateSimilarity jw a b alg)%Q ↔ a = b.

Lemma accepted_eta (e : Accepted) :
  e = {| signature := signature e; index := index e |}.
Proof. now destruct e. Qed.

Lemma reducersAgree_init : reducersAgree (A := A) exactInit fuzzyInit.
Proof.
  split; cbn; try reflexivity; [|constructor].
  intros s j. rewrite lookup_empty. split; [discriminate | intros H; inversion H].
Qed.

Lemma reducersAgree_step (i : nat) (r : A) (es : ExactState A) (fs : FuzzyState A) :
  reducersAgree es fs →
  reducersAgree (exactStep read columns i r es) (fuzzyStep jw read columns 1 alg i r fs).
Proof.
  intros [Hrows Hseen Hnodup Hpairs].
  unfold exactStep, fuzzyStep.
  set (sig := createSignature (read r) columns).
  pose proof (findSimilarMatch_spec jw 1 alg sig (uniqueSignatures fs)) as Hspec.
  destruct (seen es !! sig) as [first|] eqn:Hs.
  - (* the signature was seen: the accepted entry with it is the match *)
    pose proof (proj1 (Hseen sig first) Hs) as Hin.
    destruct (findSimilarMatch jw sig (uniqueSignatures fs) 1 alg) as [m|].
    + destruct Hspec as (k & e & (Hk & Hge & _) & ->).
      apply identical_only in Hge.
      assert (Hidx : index e = first).
      { apply list_elem_of_lookup_2 in Hk. rewrite (accepted_eta e), <- Hge in Hk.
        apply Hseen in Hk. congruence. }
      split; cbn [seen ex_uniqueRows ex_duplicatesFound fz_uniqueRows
                    uniqueSignatures fz_duplicatesFound matchedIndex];
        try assumption.
      rewrite !map_app, Hpairs. cbn. unfold duplicatePair. cbn. now rewrite Hidx.
    + exfalso. specialize (Hspec _ Hin). cbn [signature] in Hspec.
      apply Qlt_not_le in Hspec. apply Hspec, identical_only. reflexivity.
  - (* a new signature: no accepted entry reaches the score 1 *)
    destruct (findSimilarMatch jw sig (uniqueSignatures fs) 1 alg) as [m|].
    + exfalso. destruct Hspec as (k & e & (Hk & Hge & _) & _).
      apply identical_only in Hge.
      apply list_elem_of_lookup_2 in Hk. rewrite (accepted_eta e), <- Hge in Hk.
      apply Hseen in Hk. congruence.
    + split; cbn [seen ex_uniqueRows ex_duplicatesFound fz_uniqueRows
                    uniqueSignatures fz_duplicatesFound];
        try assumption.
      * now rewrite Hrows.
      * intros s j. rewrite lookup_insert_Some, elem_of_app, list_elem_of_singleton.
        split.
        -- intros [[<- <-] | [_ H]]; [now right | left; now apply Hseen].
        -- intros [H | [= -> ->]]; [|now left].
           right. apply Hseen in H. split; [congruence | exact H].
      * rewrite map_app. apply NoDup_app. split; [exact Hnodup|].
        split; [|repeat constructor; inversion 1].
        intros s Hin ->%list_elem_of_singleton.
        apply list_elem_of_fmap in Hin as (e & He & Hin).
        rewrite (accepted_eta e), <- He in Hin. apply Hseen in Hin.
        cbn [signature] in Hin. congruence.
Qed.

Lemma reducersAgree_loop (l : list A) :
  ∀ (i : nat) (es : ExactState A) (fs : FuzzyState A),
    reducersAgree es fs →
    reducersAgree (exactLoop read columns l i es) (fuzzyLoop jw read columns 1 alg l i fs).
Proof.
  induction l as [|r l IH]; intros i es fs H; [exact H|].
  cbn [exactLoop fuzzyLoop]. apply IH, reducersAgree_step, H.
Qed.

Lemma threshold_one_agrees (data : list A) :
  uniqueRows (removeFuzzyDuplicates jw read data columns 1 alg)
  = uniqueRows (removeExactDuplicates read data columns)
  ∧ map duplicatePair (duplicatesFound (removeFuzzyDuplicates jw read data columns 1 alg))
    = map duplicatePair (duplicatesFound (removeExactDuplicates read data columns)).
Proof.
  destruct (reducersAgree_loop data 0 exactInit fuzzyInit reducersAgree_init)
    as [Hrows _ _ Hpairs].
  unfold removeFuzzyDuplicates, removeExactDuplicates.
  cbn [uniqueRows duplicatesFound]. split; congruence.
Qed.

End ThresholdOne.

(** C4, at the request that breaks it. The signatures "aba" and "bab" are
    distinct and have the same bigrams, so under dice they score 1: with
    threshold 1 the fuzzy reducer reports the second row as a duplicate of
    the first and keeps one row, where the exact reducer keeps both and
    reports nothing. The handler answers the two requests accordingly. The
    comment on [similarityThreshold] in [ProcessRequest] reads "1 = exact
    match only". *)
Lemma fuzzy_threshold_one_differs_under_dice :
  ProcessExcel.calculateSimilarity constantJaroWinkler "aba" "bab" Dice == 1
  ∧ length (ProcessExcel.uniqueRows
              (ProcessExcel.removeFuzzyDuplicates constantJaroWinkler id
                 swappedRows ["v"] 1 Dice)) = 1%nat
  ∧ length (ProcessExcel.uniqueRows
              (ProcessExcel.removeExactDuplicates id swappedRows ["v"])) = 2%nat
  ∧ ProcessExcel.uniqueRows
      (ProcessExcel.removeFuzzyDuplicates constantJaroWinkler id swappedRows ["v"] 1 Dice)
    ≠ ProcessExcel.uniqueRows (ProcessExcel.removeExactDuplicates id swappedRows ["v"])
  ∧ match ProcessExcel.POST constantJaroWinkler id requestSwappedFuzzy with
    | Ok resp =>
        (ProcessExcel.uniqueCount resp,
         map duplicatePair (ProcessExcel.resp_duplicatesFound resp))
    | Error _ _ => (0%Z, [])
    end = (1%Z, [(0%nat, 1%nat)])
  ∧ match ProcessExcel.POST constantJaroWinkler id requestSwappedExact with
    | Ok resp =>
        (ProcessExcel.uniqueCount resp,
         map duplicatePair (ProcessExcel.resp_duplicatesFound resp))
    | Error _ _ => (0%Z, [])
    end = (2%Z, []).
Proof.
  repeat split; try (vm_compute; reflexivity).
  intros H. apply (f_equal length) in H. vm_compute in H. discriminate H.
Qed.

(** ** The object store *)

Section StoreFacts.
Import Store.

Lemma alloc_fresh (h : gmap nat row) (o : row) : (alloc h o).1 ∉ dom h.
Proof. apply is_fresh. Qed.

Lemma alloc_lookup (h : gmap nat row) (o : row) :
  (alloc h o).2 !! (alloc h o).1 = Some o.
Proof. apply lookup_insert_eq. Qed.

Lemma preserved_refl (h : gmap nat row) : preserved h h.
Proof. intros l _. reflexivity. Qed.

Lemma preserved_dom (h h' : gmap nat row) (l : nat) :
  preserved h h' → l ∈ dom h → l ∈ dom h'.
Proof.
  intros Hp Hl. pose proof (Hp l Hl) as E.
  apply elem_of_dom in Hl as [o Ho]. rewrite Ho in E. now apply elem_of_dom_2 in E.
Qed.

Lemma preserved_trans (h1 h2 h3 : gmap nat row) :
  preserved h1 h2 → preserved h2 h3 → preserved h1 h3.
Proof.
  intros H12 H23 l Hl. rewrite <- (H12 l Hl).
  apply H23. now apply (preserved_dom h1).
Qed.

Lemma preserved_deref (h h' : gmap nat row) (l : nat) :
  preserved h h' → l ∈ dom h → deref h' l = deref h l.
Proof. intros Hp Hl. unfold deref. now rewrite (Hp l Hl). Qed.

Lemma preserved_allocated (h h' : gmap nat row) (refs : list nat) :
  preserved h h' → allocated h refs → allocated h' refs.
Proof.
  intros Hp Ha. eapply Forall_impl; [exact Ha|].
  intros l. now apply preserved_dom.
Qed.

Lemma alloc_preserved (h : gmap nat row) (o : row) : preserved h (alloc h o).2.
Proof.
  intros l Hl. cbn. apply lookup_insert_ne. intros <-.
  now apply (alloc_fresh h o).
Qed.

(** An assignment to a field of [target] leaves the other objects alone. *)
Lemma assign_other (h : gmap nat row) (target : nat) (col : string)
    (v : value) (l : nat) :
  l ≠ target → assign h target col v !! l = h !! l.
Proof. intros Hne. unfold assign. now apply lookup_insert_ne. Qed.

Lemma assign_target (h : gmap nat row) (target : nat) (col : string) (v : value) :
  assign h target col v !! target = Some (<[col := v]> (deref h target)).
Proof. unfold assign. apply lookup_insert_eq. Qed.

Lemma assign_dom (h : gmap nat row) (target : nat) (col : string)
    (v : value) (l : nat) :
  l ∈ dom h → l ∈ dom (assign h target col v).
Proof. intros Hl. unfold assign. rewrite dom_insert_L. set_solver. Qed.

(** Copying fields into [target] writes to [target] only. *)
Lemma copyFields_other (cols : list string) (source target : nat) :
  ∀ (h : gmap nat row) (l : nat),
    l ≠ target → copyFields cols source target h !! l = h !! l.
Proof.
  induction cols as [|col cols IH]; intros h l Hl; [reflexivity|].
  cbn [copyFields]. rewrite (IH _ l Hl). now apply assign_other.
Qed.

Lemma copyFields_dom (cols : list string) (source target : nat) :
  ∀ (h : gmap nat row) (l : nat),
    l ∈ dom h → l ∈ dom (copyFields cols source target h).
Proof.
  induction cols as [|col cols IH]; intros h l Hl; [exact Hl|].
  cbn [copyFields]. now apply IH, assign_dom.
Qed.

(** Copying fields of [source] into another object adds the copied fields
    to those the target had. *)
Lemma copyFields_target (cols : list string) (source target : nat) :
  source ≠ target →
  ∀ h : gmap nat row,
    deref (copyFields cols source target h) target
    = fold_left (fun acc col => <[col := get (deref h source) col]> acc)
        cols (deref h target).
Proof.
  intros Hne. induction cols as [|col cols IH]; intros h; [reflexivity|].
  cbn [copyFields fold_left]. rewrite IH.
  assert (deref (assign h target col (get (deref h source) col)) source
          = deref h source) as ->.
  { unfold deref. now rewrite assign_other. }
  assert (deref (assign h target col (get (deref h source) col)) target
          = <[col := get (deref h source) col]> (deref h target)) as ->.
  { unfold deref at 1. now rewrite assign_target. }
  reflexivity.
Qed.

(** Filling an object that is not one of [h0] leaves the objects of [h0]
    alone. *)
Lemma copyFields_preserved (h0 h : gmap nat row) (cols : list string)
    (source target : nat) :
  preserved h0 h → target ∉ dom h0 →
  preserved h0 (copyFields cols source target h).
Proof.
  intros Hp Ht l Hl. rewrite copyFields_other; [now apply Hp|].
  intros ->. contradiction.
Qed.

Lemma Forall2_and_r {X Y : Type} (P : X → Y → Prop) (Q : Y → Prop)
    (l : list X) (k : list Y) :
  Forall2 P l k → Forall Q k → Forall2 (fun x y => P x y ∧ Q y) l k.
Proof.
  induction 1 as [|x y l k Hxy _ IH]; intros HQ; [constructor|].
  apply Forall_cons in HQ as [Hy HQ]. constructor; [split; assumption | now apply IH].
Qed.

Lemma annotateAll_preserved (columns : list string) (rows : list nat) :
  ∀ h : gmap nat row, preserved h (annotateAll columns rows h).2.
Proof.
  induction rows as [|r rows IH]; intros h; [apply preserved_refl|].
  cbn [annotateAll].
  pose proof (alloc_preserved h (ProcessExcel.annotate columns (deref h r))) as Hp1.
  destruct (alloc h (ProcessExcel.annotate columns (deref h r))) as [l h1].
  specialize (IH h1). destruct (annotateAll columns rows h1) as [ls h2].
  now apply (preserved_trans h h1 h2).
Qed.

(** The rows of the callback of [map] are new objects, each the annotated
    copy of the object it comes from, and the objects of the store are left
    alone. *)
Lemma annotateAll_spec (columns : list string) (rows : list nat) :
  ∀ h : gmap nat row,
    allocated h rows →
    preserved h (annotateAll columns rows h).2
    ∧ Forall2 (fun l r =>
                 (l ∉ dom h)
                 ∧ (annotateAll columns rows h).2 !! l
                   = Some (ProcessExcel.annotate columns (deref h r)))
        (annotateAll columns rows h).1 rows.
Proof.
  induction rows as [|r rows IH]; intros h Hrows.
  - cbn. split; [apply preserved_refl | constructor].
  - cbn [annotateAll].
    pose proof (alloc_preserved h (ProcessExcel.annotate columns (deref h r))) as Hp1.
    pose proof (alloc_fresh h (ProcessExcel.annotate columns (deref h r))) as Hf.
    pose proof (alloc_lookup h (ProcessExcel.annotate columns (deref h r))) as Hl.
    destruct (alloc h (ProcessExcel.annotate columns (deref h r))) as [l h1].
    cbn [fst snd] in Hp1, Hf, Hl.
    apply Forall_cons in Hrows as [Hr Hrows].
    destruct (IH h1 (preserved_allocated h h1 rows Hp1 Hrows)) as [Hp2 Hall].
    destruct (annotateAll columns rows h1) as [ls h2]. cbn [fst snd] in *.
    split; [now apply (preserved_trans h h1 h2)|].
    constructor.
    + split; [exact Hf|]. rewrite (Hp2 l); [exact Hl|]. now apply elem_of_dom_2 in Hl.
    + eapply Forall2_impl; [exact (Forall2_and_r _ _ _ _ Hall Hrows)|].
      cbn. intros l' r' [[Hf' Hl'] Hr'].
      split.
      * intros Hin. apply Hf'. now apply (preserved_dom h h1).
      * rewrite Hl'. do 2 f_equal. now apply (preserved_deref h h1 r' Hp1).
Qed.


(** Whatever the request, the objects of the store are left alone by the
    deduplication handler. *)
Lemma POST_processExcel_preserved (jw : string → string → Q)
    (h : gmap nat row) (body : ProcessExcel.ProcessRequest nat) :
  preserved h (POST_processExcel jw h body).2.
Proof.
  unfold POST_processExcel.
  destruct (length (ProcessExcel.data body) =? 0)%nat; [apply preserved_refl|].
  destruct (length (ProcessExcel.columns body) =? 0)%nat; [apply preserved_refl|].
  match goal with
  | |- context [annotateAll ?c ?rows h] =>
      pose proof (annotateAll_preserved c rows h) as Hp;
      destruct (annotateAll c rows h) as [ls h']
  end.
  exact Hp.
Qed.

End StoreFacts.

Section StoreMatcher.
Import Store.

Variable jw : string → string → Q.
Variables (file2Values : list (MatchColumns.File2Entry nat)) (c1 c2 : string).
Variables (a1 a2 : list string) (t : Q) (alg : SimilarityAlgorithm).

Lemma matchStep_preserved (i file1Row : nat) (st : MatchColumns.LoopState nat)
    (h : gmap nat row) :
  preserved h (matchStep jw file2Values c1 c2 a1 a2 t alg i file1Row st h).2.
Proof.
  unfold matchStep.
  pose proof (alloc_preserved h ∅) as Hp1.
  pose proof (alloc_fresh h ∅) as Hf1.
  destruct (alloc h ∅) as [d1 h1]. cbn [fst snd] in Hp1, Hf1.
  pose proof (copyFields_preserved h h1 a1 file1Row d1 Hp1 Hf1) as Hp2.
  set (h2 := copyFields a1 file1Row d1 h1) in *.
  pose proof (alloc_preserved h2 ∅) as Hp3.
  pose proof (alloc_fresh h2 ∅) as Hf3.
  destruct (alloc h2 ∅) as [d2 h3]. cbn [fst snd] in Hp3, Hf3.
  assert (Hp03 : preserved h h3) by now apply (preserved_trans h h2 h3).
  cbn [snd].
  destruct (MatchColumns.findBestMatch jw _ file2Values t alg) as [b|];
    [|exact Hp03].
  apply copyFields_preserved; [exact Hp03|].
  intros Hin. apply Hf3. now apply (preserved_dom h h2).
Qed.

Lemma matchLoop_preserved (rows : list nat) :
  ∀ (i : nat) (st : MatchColumns.LoopState nat) (h : gmap nat row),
    preserved h (matchLoop jw file2Values c1 c2 a1 a2 t alg rows i st h).2.
Proof.
  induction rows as [|r rows IH]; intros i st h; [apply preserved_refl|].
  cbn [matchLoop].
  pose proof (matchStep_preserved i r st h) as Hp1.
  destruct (matchStep jw file2Values c1 c2 a1 a2 t alg i r st h) as [st1 h1].
  eapply preserved_trans; [exact Hp1 | apply IH].
Qed.

Lemma readMatch_preserved (h h' : gmap nat row) (m : MatchColumns.MatchResult nat) :
  preserved h h' →
  MatchColumns.file1AdditionalData m ∈ dom h →
  MatchColumns.file2AdditionalData m ∈ dom h →
  readMatch h' m = readMatch h m.
Proof.
  intros Hp H1 H2. unfold readMatch.
  now rewrite (preserved_deref h h' _ Hp H1), (preserved_deref h h' _ Hp H2).
Qed.

Lemma matchStep_refines (h0 h : gmap nat row) (i file1Row : nat)
    (st : MatchColumns.LoopState nat)
    (stF : MatchColumns.LoopState (gmap string value)) :
  preserved h0 h → file1Row ∈ dom h0 →
  Forall (fun e => MatchColumns.entryRow e ∈ dom h0) file2Values →
  loopRefines h st stF →
  loopRefines (matchStep jw file2Values c1 c2 a1 a2 t alg i file1Row st h).2
    (matchStep jw file2Values c1 c2 a1 a2 t alg i file1Row st h).1
    (MatchColumns.matchStep jw (deref h0) file2Values c1 c2 a1 a2 t alg i
       file1Row stF).
Proof.
  intros Hp0 Hrow Hentries (Hms & Hmc & Huc & Hdom).
  unfold matchStep, MatchColumns.matchStep.
  assert (Hrowh : file1Row ∈ dom h) by now apply (preserved_dom h0).
  rewrite (preserved_deref h0 h file1Row Hp0 Hrow).
  set (bm := MatchColumns.findBestMatch jw
               (MatchColumns.normalizeValue (get (deref h0 file1Row) c1))
               file2Values t alg) in *.
  assert (Hbm : ∀ b, bm = Some b → MatchColumns.bestRow b ∈ dom h0).
  { intros b Hb. apply findBestMatch_sound in Hb as (e & Hin & _ & -> & _).
    rewrite Forall_forall in Hentries. now apply Hentries. }
  pose proof (alloc_preserved h ∅) as Hp1.
  pose proof (alloc_fresh h ∅) as Hf1.
  pose proof (alloc_lookup h ∅) as Hl1.
  destruct (alloc h ∅) as [d1 h1]. cbn [fst snd] in Hp1, Hf1, Hl1.
  assert (Hne1 : file1Row ≠ d1) by (intros ->; contradiction).
  pose proof (copyFields_preserved h h1 a1 file1Row d1 Hp1 Hf1) as Hp2.
  pose proof (copyFields_target a1 file1Row d1 Hne1 h1) as Ht2.
  pose proof (copyFields_dom a1 file1Row d1 h1 d1 (elem_of_dom_2 _ _ _ Hl1)) as Hd1.
  set (h2 := copyFields a1 file1Row d1 h1) in *.
  assert (Hc1 : deref h2 d1 = MatchColumns.collect a1 (deref h0 file1Row)).
  { rewrite Ht2, (preserved_deref h h1 file1Row Hp1 Hrowh),
      (preserved_deref h0 h file1Row Hp0 Hrow).
    unfold deref at 2. rewrite Hl1. reflexivity. }
  pose proof (alloc_preserved h2 ∅) as Hp3.
  pose proof (alloc_fresh h2 ∅) as Hf3.
  pose proof (alloc_lookup h2 ∅) as Hl3.
  destruct (alloc h2 ∅) as [d2 h3]. cbn [fst snd] in Hp3, Hf3, Hl3.
  assert (Hp03 : preserved h0 h3).
  { eapply preserved_trans; [exact Hp0|].
    eapply preserved_trans; [exact Hp2 | exact Hp3]. }
  cbn [fst snd].
  set (h4 := match bm with
             | Some b => copyFields a2 (MatchColumns.bestRow b) d2 h3
             | None => h3
             end) in *.
  assert (Hp24 : preserved h2 h4).
  { subst h4. destruct bm as [b|]; [|exact Hp3].
    now apply copyFields_preserved. }
  assert (Hd2 : d2 ∈ dom h4).
  { subst h4. apply elem_of_dom_2 in Hl3.
    destruct bm as [b|]; [now apply copyFields_dom | exact Hl3]. }
  assert (Hc2 : deref h4 d2
                = match bm with
                  | Some b => MatchColumns.collect a2 (deref h0 (MatchColumns.bestRow b))
                  | None => ∅
                  end).
  { subst h4. destruct bm as [b|] eqn:Eb.
    - pose proof (Hbm b eq_refl) as Hb0.
      assert (Hne2 : MatchColumns.bestRow b ≠ d2).
      { intros E. apply Hf3. rewrite <- E.
        apply (preserved_dom h h2); [exact Hp2|]. now apply (preserved_dom h0). }
      rewrite (copyFields_target a2 _ d2 Hne2 h3),
        (preserved_deref h0 h3 _ Hp03 Hb0).
      unfold deref at 2. rewrite Hl3. reflexivity.
    - unfold deref. now rewrite Hl3. }
  assert (Hp04 : preserved h h4) by now apply (preserved_trans h h2 h4).
  assert (Hp04' : preserved h0 h4) by now apply (preserved_trans h0 h h4).
  repeat split; cbn [MatchColumns.pushMatch MatchColumns.st_matches
                       MatchColumns.st_matchedCount MatchColumns.st_unmatchedCount].
  - rewrite map_app, <- Hms. f_equal.
    + apply map_ext_Forall. eapply Forall_impl; [exact Hdom|].
      intros m [H1 H2]. now apply readMatch_preserved.
    + cbn [map]. f_equal. unfold readMatch, MatchColumns.makeMatch. cbn.
      rewrite (preserved_deref h0 h4 file1Row Hp04' Hrow), Hc2,
        (preserved_deref h2 h4 d1 Hp24 Hd1), Hc1.
      f_equal. destruct bm as [b|] eqn:Eb; [|reflexivity].
      now rewrite (preserved_deref h0 h4 _ Hp04' (Hbm b eq_refl)).
  - now rewrite Hmc.
  - now rewrite Huc.
  - apply Forall_app. split.
    + eapply Forall_impl; [exact Hdom|]. intros m [H1 H2].
      split; now apply (preserved_dom h h4).
    + repeat constructor; cbn; [now apply (preserved_dom h2 h4) | exact Hd2].
Qed.

Lemma matchLoop_refines (h0 : gmap nat row) (rows : list nat) :
  Forall (fun e => MatchColumns.entryRow e ∈ dom h0) file2Values →
  ∀ (i : nat) (st : MatchColumns.LoopState nat)
    (stF : MatchColumns.LoopState (gmap string value)) (h : gmap nat row),
    preserved h0 h → allocated h0 rows → loopRefines h st stF →
    loopRefines (matchLoop jw file2Values c1 c2 a1 a2 t alg rows i st h).2
      (matchLoop jw file2Values c1 c2 a1 a2 t alg rows i st h).1
      (MatchColumns.matchLoop jw (deref h0) file2Values c1 c2 a1 a2 t alg
         rows i stF).
Proof.
  intros Hentries.
  induction rows as [|r rows IH]; intros i st stF h Hp Hrows HR; [exact HR|].
  apply Forall_cons in Hrows as [Hr Hrows].
  cbn [matchLoop MatchColumns.matchLoop].
  pose proof (matchStep_refines h0 h i r st stF Hp Hr Hentries HR) as HR1.
  pose proof (matchStep_preserved i r st h) as Hp1.
  destruct (matchStep jw file2Values c1 c2 a1 a2 t alg i r st h) as [st1 h1].
  cbn [fst snd] in HR1, Hp1.
  apply IH; [now apply (preserved_trans h0 h h1) | exact Hrows | exact HR1].
Qed.

End StoreMatcher.

Section StoreHandlers.
Import Store.

Variable jw : string → string → Q.

Lemma POST_matchColumns_preserved (h : gmap nat row)
    (body : MatchColumns.MatchRequest nat) :
  preserved h (POST_matchColumns jw h body).2.
Proof.
  unfold POST_matchColumns.
  destruct (length (MatchColumns.file1Data body) =? 0)%nat; [apply preserved_refl|].
  destruct (length (MatchColumns.file2Data body) =? 0)%nat; [apply preserved_refl|].
  destruct (MatchColumns.file1Column body) as [c1|]; [|apply preserved_refl].
  destruct (MatchColumns.file2Column body) as [c2|]; [|apply preserved_refl].
  destruct (falsy c1 || falsy c2); [apply preserved_refl|].
  match goal with
  | |- context [matchLoop jw ?f ?a ?b ?c ?d ?e ?g ?rows 0 ?st h] =>
      pose proof (matchLoop_preserved jw f a b c d e g rows 0 st h) as Hp;
      destruct (matchLoop jw f a b c d e g rows 0 st h) as [st' h']
  end.
  exact Hp.
Qed.

(** On addresses of objects of the store, the cross-file handler answers
    what it answers in the functional view. *)
Lemma POST_matchColumns_refines (h : gmap nat row)
    (body : MatchColumns.MatchRequest nat) :
  allocated h (MatchColumns.file1Data body) →
  allocated h (MatchColumns.file2Data body) →
  readMatchResponse (POST_matchColumns jw h body).2 (POST_matchColumns jw h body).1
  = MatchColumns.POST jw (deref h) body.
Proof.
  intros H1 H2. unfold POST_matchColumns, MatchColumns.POST.
  destruct (length (MatchColumns.file1Data body) =? 0)%nat; [reflexivity|].
  destruct (length (MatchColumns.file2Data body) =? 0)%nat; [reflexivity|].
  destruct (MatchColumns.file1Column body) as [c1|]; [|reflexivity].
  destruct (MatchColumns.file2Column body) as [c2|]; [|reflexivity].
  destruct (falsy c1 || falsy c2); [reflexivity|].
  assert (Hentries :
    Forall (fun e => MatchColumns.entryRow e ∈ dom h)
      (MatchColumns.preprocess (deref h) c2 (MatchColumns.file2Data body))).
  { apply Forall_forall. intros e (r & Hr & -> & _)%preprocess_lookup.
    unfold allocated in H2. rewrite Forall_forall in H2.
    eapply H2, list_elem_of_lookup_2, Hr. }
  pose proof (matchLoop_refines jw
                (MatchColumns.preprocess (deref h) c2 (MatchColumns.file2Data body))
                c1 c2
                (default [] (MatchColumns.file1AdditionalColumns body))
                (default [] (MatchColumns.file2AdditionalColumns body))
                (default (8 # 10)%Q (MatchColumns.similarityThreshold body))
                (default Dice (MatchColumns.similarityAlgorithm body))
                h (MatchColumns.file1Data body) Hentries 0%nat
                {| MatchColumns.st_matches := [];
                   MatchColumns.st_matchedCount := 0;
                   MatchColumns.st_unmatchedCount := 0 |}
                {| MatchColumns.st_matches := [];
                   MatchColumns.st_matchedCount := 0;
                   MatchColumns.st_unmatchedCount := 0 |}
                h (preserved_refl h) H1) as HR.
  destruct (matchLoop jw _ c1 c2 _ _ _ _ (MatchColumns.file1Data body) 0 _ h)
    as [st' h'].
  destruct HR as (Hms & Hmc & Huc & _).
  { repeat split; constructor. }
  cbn [fst snd] in *. cbn [readMatchResponse MatchColumns.matches
    MatchColumns.totalFile1Rows MatchColumns.totalFile2Rows
    MatchColumns.matchedCount MatchColumns.unmatchedCount].
  now rewrite Hms, Hmc, Huc.
Qed.

Lemma removeDuplicateRows_subset {A : Type} (read : A → row) (data : list A)
    (columns : list string) (mode : ComparisonMode) (t : Q)
    (alg : SimilarityAlgorithm) (r : A) :
  r ∈ ProcessExcel.uniqueRows
        (ProcessExcel.removeDuplicateRows jw read data columns mode t alg) →
  r ∈ data.
Proof.
  destruct mode; cbn [ProcessExcel.removeDuplicateRows].
  - intros Hr. destruct (removeExactDuplicates_first read columns data)
      as (idxs & _ & _ & Hrows).
    apply list_elem_of_lookup_1 in Hr as [k Hk].
    destruct (Forall2_lookup_r _ _ _ _ _ Hrows Hk) as (i & _ & Hi).
    eapply list_elem_of_lookup_2, Hi.
  - intros Hr. pose proof (fuzzy_accepted_rows jw t alg read columns data) as Hrows.
    apply list_elem_of_lookup_1 in Hr as [k Hk].
    destruct (Forall2_lookup_r _ _ _ _ _ Hrows Hk) as (e & _ & _ & He).
    eapply list_elem_of_lookup_2, He.
Qed.

Lemma processedRows_subset {A : Type} (body : ProcessExcel.ProcessRequest A)
    (r : A) :
  r ∈ processedRows body → r ∈ ProcessExcel.data body.
Proof.
  unfold processedRows, slice. intros Hr.
  apply subseteq_take in Hr. now apply subseteq_drop in Hr.
Qed.

(** On addresses of objects of the store, the deduplication handler answers
    what it answers in the functional view, with new objects for the rows
    of [uniqueRows]. *)
Lemma POST_processExcel_refines (h : gmap nat row)
    (body : ProcessExcel.ProcessRequest nat) :
  allocated h (ProcessExcel.data body) →
  readProcessResponse (POST_processExcel jw h body).2
    (POST_processExcel jw h body).1
  = ProcessExcel.POST jw (deref h) body
  ∧ ∀ resp, (POST_processExcel jw h body).1 = Ok resp →
      Forall2 (annotatedCopy (ProcessExcel.columns body) h
                 (POST_processExcel jw h body).2)
        (ProcessExcel.resp_uniqueRows resp)
        (ProcessExcel.uniqueRows
           (ProcessExcel.removeDuplicateRows jw (deref h) (processedRows body)
              (ProcessExcel.columns body)
              (default Fuzzy (ProcessExcel.comparisonMode body))
              (default (8 # 10)%Q (ProcessExcel.similarityThreshold body))
              (default JaroWinkler (ProcessExcel.similarityAlgorithm body)))).
Proof.
  intros Hdata. unfold POST_processExcel, ProcessExcel.POST.
  destruct (length (ProcessExcel.data body) =? 0)%nat;
    [split; [reflexivity | discriminate]|].
  destruct (length (ProcessExcel.columns body) =? 0)%nat;
    [split; [reflexivity | discriminate]|].
  fold (processedRows body).
  set (res := ProcessExcel.removeDuplicateRows jw (deref h) (processedRows body)
                (ProcessExcel.columns body)
                (default Fuzzy (ProcessExcel.comparisonMode body))
                (default (8 # 10)%Q (ProcessExcel.similarityThreshold body))
                (default JaroWinkler (ProcessExcel.similarityAlgorithm body))).
  assert (Hraw : allocated h (ProcessExcel.uniqueRows res)).
  { apply Forall_forall. intros r Hr.
    apply removeDuplicateRows_subset, processedRows_subset in Hr.
    unfold allocated in Hdata. rewrite Forall_forall in Hdata. now apply Hdata. }
  destruct (annotateAll_spec (ProcessExcel.columns body)
              (ProcessExcel.uniqueRows res) h Hraw) as [Hp Hall].
  destruct (annotateAll (ProcessExcel.columns body) (ProcessExcel.uniqueRows res) h)
    as [ls h']. cbn [fst snd] in *.
  assert (Hcontents :
    map (deref h') ls
    = map (fun r => ProcessExcel.annotate (ProcessExcel.columns body) (deref h r))
        (ProcessExcel.uniqueRows res)).
  { clear Hraw. induction Hall as [|l r ls rs [_ Hl] _ IH]; [reflexivity|].
    cbn [map]. rewrite IH. f_equal. unfold deref at 1. now rewrite Hl. }
  split.
  - cbn [readProcessResponse ProcessExcel.resp_uniqueRows
      ProcessExcel.originalCount ProcessExcel.uniqueCount
      ProcessExcel.removedCount ProcessExcel.resp_duplicatesFound].
    rewrite Hcontents, !length_map, (Forall2_length _ _ _ Hall). reflexivity.
  - intros resp [= <-]. cbn [ProcessExcel.resp_uniqueRows].
    eapply Forall2_impl; [exact Hall|]. intros l r [Hf Hl].
    unfold annotatedCopy. split; [exact Hf|]. split; [exact Hl|].
    assert (deref h' l
            = ProcessExcel.annotate (ProcessExcel.columns body) (deref h r)) as ->.
    { unfold deref at 1. now rewrite Hl. }
    unfold ProcessExcel.annotate.
    split; [|split].
    + intros col Hcol. now apply lookup_insert_ne.
    + rewrite lookup_insert_eq. eauto.
    + apply dom_insert_L.
Qed.

End StoreHandlers.

(** C9, as the code has it. On an object store, whatever the request:
    after a call of the deduplication handler or of the cross-file handler,
    every object that was in the store is still there with exactly the
    fields and values it had. When the rows of the request are objects of
    the store, the handlers answer what they answer in the functional view,
    and each row of [uniqueRows] is a new object, the annotated copy of the
    accepted row it comes from: it has every field of that row other than
    [isni] with the same value, and a field [isni] that holds the link (one
    more field than the accepted row when that row has no field [isni], the
    same fields otherwise). *)
Theorem handlers_leave_inputs_alone (jw : string → string → Q)
    (h : gmap nat row) :
  (∀ body, preserved h (Store.POST_processExcel jw h body).2)
  ∧ (∀ body, preserved h (Store.POST_matchColumns jw h body).2)
  ∧ (∀ body,
       allocated h (ProcessExcel.data body) →
       readProcessResponse (Store.POST_processExcel jw h body).2
         (Store.POST_processExcel jw h body).1
       = ProcessExcel.POST jw (Store.deref h) body
       ∧ ∀ resp, (Store.POST_processExcel jw h body).1 = Ok resp →
           Forall2 (annotatedCopy (ProcessExcel.columns body) h
                      (Store.POST_processExcel jw h body).2)
             (ProcessExcel.resp_uniqueRows resp)
             (ProcessExcel.uniqueRows
                (ProcessExcel.removeDuplicateRows jw (Store.deref h)
                   (processedRows body) (ProcessExcel.columns body)
                   (default Fuzzy (ProcessExcel.comparisonMode body))
                   (default (8 # 10)%Q (ProcessExcel.similarityThreshold body))
                   (default JaroWinkler (ProcessExcel.similarityAlgorithm body)))))
  ∧ (∀ body,
       allocated h (MatchColumns.file1Data body) →
       allocated h (MatchColumns.file2Data body) →
       readMatchResponse (Store.POST_matchColumns jw h body).2
         (Store.POST_matchColumns jw h body).1
       = MatchColumns.POST jw (Store.deref h) body).
Proof.
  split; [|split; [|split]].
  - intros body. apply POST_processExcel_preserved.
  - intros body. apply POST_matchColumns_preserved.
  - intros body. apply POST_processExcel_refines.
  - intros body. apply POST_matchColumns_refines.
Qed.

Lemma handlers_leave_inputs_alone_witness :
  allocated sampleStore (ProcessExcel.data sampleStoreRequest)
  ∧ preserved sampleStore
      (Store.POST_processExcel constantJaroWinkler sampleStore sampleStoreRequest).2
  ∧ readProcessResponse
      (Store.POST_processExcel constantJaroWinkler sampleStore sampleStoreRequest).2
      (Store.POST_processExcel constantJaroWinkler sampleStore sampleStoreRequest).1
    = ProcessExcel.POST constantJaroWinkler (Store.deref sampleStore)
        sampleStoreRequest.
Proof.
  assert (Ha : allocated sampleStore (ProcessExcel.data sampleStoreRequest)).
  { repeat constructor; apply elem_of_dom; eexists; reflexivity. }
  split; [exact Ha|]. split.
  - apply (proj1 (handlers_leave_inputs_alone constantJaroWinkler sampleStore)).
  - apply (proj1 (proj2 (proj2
             (handlers_leave_inputs_alone constantJaroWinkler sampleStore)))
             sampleStoreRequest Ha).
Defined.

(** C9 as stated fails on a row that has a column "isni": the row of
    [uniqueRows] made from it does not agree with it on that field, and
    has no more fields than it. *)
Lemma annotation_replaces_isni :
  match (Store.POST_processExcel constantJaroWinkler sampleStore
           sampleStoreRequest).1 with
  | Ok resp => ProcessExcel.resp_uniqueRows resp
  | Error _ _ => []
  end = [2%nat]
  ∧ Store.deref
      (Store.POST_processExcel constantJaroWinkler sampleStore sampleStoreRequest).2
      2 !! "isni"
    ≠ Store.deref sampleStore 0 !! "isni"
  ∧ size (Store.deref
            (Store.POST_processExcel constantJaroWinkler sampleStore
               sampleStoreRequest).2 2)
    = size (Store.deref sampleStore 0).
Proof.
  split; [vm_compute; reflexivity|]. split; [|vm_compute; reflexivity].
  vm_compute. intros H. discriminate H.
Qed.

(** * Further properties *)

(** ** Rows kept and rows reported *)

Section SplitFacts.
Import ProcessExcel.

Context {A : Type}.

Lemma exact_splits (read : A → row) (columns : list string) (l : list A) :
  splitsRows l (ex_uniqueRows (exactLoop read columns l 0 exactInit))
    (ex_duplicatesFound (exactLoop read columns l 0 exactInit)).
Proof.
  induction l as [|r l IH] using rev_ind; [constructor|].
  rewrite exactLoop_snoc. unfold exactStep.
  destruct (seen _ !! _); cbn [ex_uniqueRows ex_duplicatesFound].
  - now apply splits_report.
  - now apply splits_keep.
Qed.

Lemma fuzzy_splits (jw : string → string → Q) (read : A → row)
    (columns : list string) (t : Q) (alg : SimilarityAlgorithm) (l : list A) :
  splitsRows l (fz_uniqueRows (fuzzyLoop jw read columns t alg l 0 fuzzyInit))
    (fz_duplicatesFound (fuzzyLoop jw read columns t alg l 0 fuzzyInit)).
Proof.
  induction l as [|r l IH] using rev_ind; [constructor|].
  rewrite fuzzyLoop_snoc. unfold fuzzyStep.
  destruct (findSimilarMatch _ _ _ _ _); cbn [fz_uniqueRows fz_duplicatesFound].
  - now apply splits_report.
  - now apply splits_keep.
Qed.

Lemma removeDuplicateRows_splits (jw : string → string → Q) (read : A → row)
    (data : list A) (columns : list string) (mode : ComparisonMode) (t : Q)
    (alg : SimilarityAlgorithm) :
  splitsRows data
    (uniqueRows (removeDuplicateRows jw read data columns mode t alg))
    (duplicatesFound (removeDuplicateRows jw read data columns mode t alg)).
Proof. destruct mode; [apply exact_splits | apply fuzzy_splits]. Qed.

Lemma splitsRows_length (l kept : list A) (reports : list DuplicateInfo) :
  splitsRows l kept reports →
  (length kept + length reports = length l)%nat.
Proof.
  induction 1; rewrite ?length_app; cbn; lia.
Qed.

Lemma splitsRows_bound (l kept : list A) (reports : list DuplicateInfo) :
  splitsRows l kept reports →
  Forall (fun rep => (duplicateIndex rep < length l)%nat) reports.
Proof.
  induction 1 as [|l kept reports r _ IH|l kept reports r rep _ IH Hrep];
    [constructor | |].
  - eapply Forall_impl; [exact IH|]. intros rep Hrep. rewrite length_app. cbn in *. lia.
  - apply Forall_app. split.
    + eapply Forall_impl; [exact IH|]. intros rep' H'. rewrite length_app. cbn in *. lia.
    + repeat constructor. rewrite length_app. cbn. lia.
Qed.

Lemma splitsRows_sorted (l kept : list A) (reports : list DuplicateInfo) :
  splitsRows l kept reports →
  StronglySorted lt (map duplicateIndex reports).
Proof.
  induction 1 as [|l kept reports r _ IH|l kept reports r rep Hs IH Hrep];
    [constructor | exact IH |].
  rewrite map_app. apply StronglySorted_app_2; [|exact IH|repeat constructor].
  intros i1 i2 Hi1 ->%list_elem_of_singleton. cbn.
  apply list_elem_of_fmap in Hi1 as (rep' & -> & Hin).
  pose proof (splitsRows_bound _ _ _ Hs) as Hb. rewrite Forall_forall in Hb.
  rewrite Hrep. now apply Hb.
Qed.

End SplitFacts.

(** ** The export of the page *)

Section ExportFacts.
Import ProcessExcel Page.

Context {A : Type}.

Lemma filterIndex_app (keep : nat → bool) (l1 l2 : list A) :
  ∀ i, filterIndex keep (l1 ++ l2) i
       = filterIndex keep l1 i ++ filterIndex keep l2 (i + length l1).
Proof.
  induction l1 as [|x l1 IH]; intros i; cbn.
  - now rewrite Nat.add_0_r.
  - rewrite IH, <- Nat.add_succ_comm. now destruct (keep i).
Qed.

Lemma filterIndex_ext (keep keep' : nat → bool) (l : list A) :
  ∀ i, (∀ k, (i ≤ k < i + length l)%nat → keep k = keep' k) →
       filterIndex keep l i = filterIndex keep' l i.
Proof.
  induction l as [|x l IH]; intros i H; [reflexivity|]. cbn.
  rewrite (H i) by (cbn; lia). rewrite (IH (S i)); [reflexivity|].
  intros k Hk. apply H. cbn. lia.
Qed.

(** Keeping more indices keeps more rows, in the same order. *)
Lemma filterIndex_sublist (keep keep' : nat → bool) (l : list A) :
  ∀ i, (∀ k, keep k = true → keep' k = true) →
       filterIndex keep l i `sublist_of` filterIndex keep' l i.
Proof.
  induction l as [|x l IH]; intros i H; [constructor|]. cbn.
  destruct (keep i) eqn:E.
  - rewrite (H i E). now apply sublist_skip, IH.
  - destruct (keep' i); [apply sublist_cons|]; now apply IH.
Qed.

Lemma filterIndex_sublist_all (keep : nat → bool) (l : list A) :
  ∀ i, filterIndex keep l i `sublist_of` l.
Proof.
  induction l as [|x l IH]; intros i; [constructor|]. cbn.
  destruct (keep i); [apply sublist_skip | apply sublist_cons]; apply IH.
Qed.

Lemma filterIndex_all (keep : nat → bool) (l : list A) :
  ∀ i, (∀ k, keep k = true) → filterIndex keep l i = l.
Proof.
  induction l as [|x l IH]; intros i H; [reflexivity|]. cbn.
  now rewrite H, IH.
Qed.

(** The indices that the loop of [handleExport] collects: those of the
    selected reports. *)
Lemma removeLoop_spec (reports : list DuplicateInfo) (selected : gset nat) :
  ∀ (idx : nat) (acc : gset nat) (i : nat),
    i ∈ removeLoop reports idx selected acc
    ↔ i ∈ acc
      ∨ ∃ k rep, reports !! k = Some rep ∧ (idx + k)%nat ∈ selected
                 ∧ duplicateIndex rep = i.
Proof.
  induction reports as [|rep reports IH]; intros idx acc i; cbn [removeLoop].
  - split; [now left|]. intros [H | (k & rep & Hk & _)]; [exact H|].
    now rewrite lookup_nil in Hk.
  - rewrite IH. split.
    + intros [H | (k & rep' & Hk & Hsel & Hi)].
      * destruct (decide (idx ∈ selected)) as [Hs|Hs]; [|now left].
        apply elem_of_union in H as [->%elem_of_singleton | H]; [|now left].
        right. exists 0%nat, rep. rewrite Nat.add_0_r. auto.
      * right. exists (S k), rep'. rewrite <- Nat.add_succ_comm. auto.
    + intros [H | (k & rep' & Hk & Hsel & Hi)].
      * left. destruct (decide (idx ∈ selected));
          [apply elem_of_union; now right | exact H].
      * destruct k as [|k].
        -- cbn in Hk. injection Hk as <-. rewrite Nat.add_0_r in Hsel.
           left. destruct (decide (idx ∈ selected)); [|contradiction].
           apply elem_of_union. left. now apply elem_of_singleton.
        -- right. exists k, rep'. rewrite Nat.add_succ_comm. auto.
Qed.

Lemma allDuplicateIndexes_spec (reports : list DuplicateInfo) (k : nat) :
  k ∈ allDuplicateIndexes reports ↔ (k < length reports)%nat.
Proof.
  unfold allDuplicateIndexes. rewrite elem_of_list_to_set, elem_of_lookup_imap.
  split.
  - intros (i & rep & -> & Hi). now apply lookup_lt_Some in Hi.
  - intros Hk. apply lookup_lt_is_Some_2 in Hk as [rep Hrep]. eauto.
Qed.

Lemma removeLoop_all (reports : list DuplicateInfo) :
  removeLoop reports 0 (allDuplicateIndexes reports) ∅ = reportedIndexes reports.
Proof.
  apply set_eq. intros i. rewrite removeLoop_spec. unfold reportedIndexes.
  rewrite elem_of_list_to_set, list_elem_of_fmap. split.
  - intros [H | (k & rep & Hk & _ & Hi)]; [now apply not_elem_of_empty in H|].
    exists rep. split; [now symmetry | eapply list_elem_of_lookup_2, Hk].
  - intros (rep & -> & [k Hk]%list_elem_of_lookup_1). right. exists k, rep.
    repeat split; [exact Hk|]. apply allDuplicateIndexes_spec.
    now apply lookup_lt_Some in Hk.
Qed.

(** The rows kept are the rows whose index is not reported. *)
Lemma splitsRows_filter (l kept : list A) (reports : list DuplicateInfo) :
  splitsRows l kept reports →
  kept = filterIndex (fun i => bool_decide (i ∉ reportedIndexes reports)) l 0.
Proof.
  intros Hs. pose proof (splitsRows_bound _ _ _ Hs) as Hb. revert Hb.
  induction Hs as [|l kept reports r Hs IH|l kept reports r rep Hs IH Hrep];
    intros Hb; [reflexivity| |].
  - rewrite filterIndex_app, <- IH by exact (splitsRows_bound _ _ _ Hs).
    cbn. rewrite bool_decide_eq_true_2; [reflexivity|].
    unfold reportedIndexes. rewrite elem_of_list_to_set, list_elem_of_fmap.
    intros (rep & Hi & Hin).
    pose proof (splitsRows_bound _ _ _ Hs) as Hb'. rewrite Forall_forall in Hb'.
    specialize (Hb' rep Hin). cbn in Hb'. lia.
  - pose proof (splitsRows_bound _ _ _ Hs) as Hb'.
    rewrite filterIndex_app. cbn.
    assert (Hin : length l ∈ reportedIndexes (reports ++ [rep])).
    { unfold reportedIndexes. rewrite map_app, elem_of_list_to_set, elem_of_app.
      right. cbn. rewrite Hrep. now left. }
    rewrite bool_decide_eq_false_2 by (intros Hn; now apply Hn).
    rewrite app_nil_r, (IH Hb') at 1.
    apply filterIndex_ext. intros k Hk. cbn in Hk.
    apply bool_decide_ext. unfold reportedIndexes.
    rewrite map_app, !elem_of_list_to_set, elem_of_app. cbn.
    rewrite list_elem_of_singleton. split; [|tauto].
    intros Hn [H | H]; [now apply Hn | lia].
Qed.

End ExportFacts.

(** X1. The rows kept and the reports split the processed rows: every
    row of the slice is either in [uniqueRows] or the subject of exactly one
    report, so [removedCount] is the number of reports plus the number of
    rows outside the slice, and without slice it is the number of
    reports. *)
Theorem removed_count_is_report_count {A : Type} (jw : string → string → Q)
    (read : A → row) (body : ProcessExcel.ProcessRequest A) :
  ProcessExcel.data body ≠ [] →
  ProcessExcel.columns body ≠ [] →
  ∃ resp,
    ProcessExcel.POST jw read body = Ok resp
    ∧ (ProcessExcel.uniqueCount resp
       + Z.of_nat (length (ProcessExcel.resp_duplicatesFound resp))
       = Z.of_nat (length (processedRows body)))%Z
    ∧ (ProcessExcel.removedCount resp
       = Z.of_nat (length (ProcessExcel.resp_duplicatesFound resp))
         + (Z.of_nat (length (ProcessExcel.data body))
            - Z.of_nat (length (processedRows body))))%Z
    ∧ (ProcessExcel.sliceStart body = None → ProcessExcel.sliceEnd body = None →
       ProcessExcel.removedCount resp
       = Z.of_nat (length (ProcessExcel.resp_duplicatesFound resp)))
    ∧ StronglySorted lt
        (map ProcessExcel.duplicateIndex (ProcessExcel.resp_duplicatesFound resp)).
Proof.
  intros Hd Hc.
  destruct (process_POST_ok jw read body Hd Hc)
    as (resp & HP & Hrows & Hdups & Ho & Hu & Hr).
  exists resp. split; [exact HP|].
  pose proof (removeDuplicateRows_splits jw read (processedRows body)
                (ProcessExcel.columns body)
                (default Fuzzy (ProcessExcel.comparisonMode body))
                (default (8 # 10)%Q (ProcessExcel.similarityThreshold body))
                (default JaroWinkler (ProcessExcel.similarityAlgorithm body)))
    as Hs.
  pose proof (splitsRows_length _ _ _ Hs) as Hlen.
  pose proof (splitsRows_sorted _ _ _ Hs) as Hsorted.
  rewrite <- Hdups in Hlen, Hsorted.
  rewrite Hrows, length_map in Hu.
  assert (H1 : (ProcessExcel.uniqueCount resp
                + Z.of_nat (length (ProcessExcel.resp_duplicatesFound resp))
                = Z.of_nat (length (processedRows body)))%Z) by lia.
  repeat split; [exact H1 | lia | | exact Hsorted].
  intros Hs1 Hs2. rewrite (processedRows_default body Hs1 Hs2) in H1. lia.
Qed.

Lemma removed_count_is_report_count_witness :
  ∃ resp,
    ProcessExcel.POST constantJaroWinkler id sampleExactRequest = Ok resp
    ∧ (ProcessExcel.uniqueCount resp
       + Z.of_nat (length (ProcessExcel.resp_duplicatesFound resp))
       = Z.of_nat (length (processedRows sampleExactRequest)))%Z
    ∧ (ProcessExcel.removedCount resp
       = Z.of_nat (length (ProcessExcel.resp_duplicatesFound resp))
         + (Z.of_nat (length (ProcessExcel.data sampleExactRequest))
            - Z.of_nat (length (processedRows sampleExactRequest))))%Z
    ∧ (ProcessExcel.sliceStart sampleExactRequest = None →
       ProcessExcel.sliceEnd sampleExactRequest = None →
       ProcessExcel.removedCount resp
       = Z.of_nat (length (ProcessExcel.resp_duplicatesFound resp)))
    ∧ StronglySorted lt
        (map ProcessExcel.duplicateIndex (ProcessExcel.resp_duplicatesFound resp)).
Proof.
  apply (removed_count_is_report_count constantJaroWinkler id sampleExactRequest);
    discriminate.
Defined.

(** X2. The export of the page undoes the reports it is told to undo.
    With every report selected (the selection after a submission) the
    exported rows are exactly the rows that the reducer kept, in both modes;
    with no report selected they are the processed rows; and with any
    selection they are rows of the slice, in order, among them every row the
    reducer kept. *)
Theorem export_keeps_unique_rows {A : Type} (jw : string → string → Q)
    (read : A → row) (data : list A) (columns : list string)
    (mode : ComparisonMode) (t : Q) (alg : SimilarityAlgorithm)
    (sliceStart : Z) (sliceEnd : option Z) (selected : gset nat) :
  let processed :=
    slice data sliceStart (default (Z.of_nat (length data)) sliceEnd) in
  let res := ProcessExcel.removeDuplicateRows jw read processed columns mode t alg in
  Page.filteredData data sliceStart sliceEnd (ProcessExcel.duplicatesFound res)
    (Page.allDuplicateIndexes (ProcessExcel.duplicatesFound res))
  = ProcessExcel.uniqueRows res
  ∧ Page.filteredData data sliceStart sliceEnd (ProcessExcel.duplicatesFound res)
      (Page.handleSelectAllDuplicates (ProcessExcel.duplicatesFound res) false)
    = processed
  ∧ ProcessExcel.uniqueRows res
    `sublist_of` Page.filteredData data sliceStart sliceEnd
                   (ProcessExcel.duplicatesFound res) selected
  ∧ Page.filteredData data sliceStart sliceEnd
      (ProcessExcel.duplicatesFound res) selected
    `sublist_of` processed.
Proof.
  intros processed res.
  pose proof (removeDuplicateRows_splits jw read processed columns mode t alg) as Hs.
  fold res in Hs. unfold Page.filteredData. fold processed.
  split; [|split; [|split]].
  - rewrite removeLoop_all. symmetry. now apply splitsRows_filter.
  - apply filterIndex_all. intros k. apply bool_decide_eq_true_2.
    rewrite removeLoop_spec. cbn. intros [H | (j & rep & _ & H & _)];
      now apply not_elem_of_empty in H.
  - rewrite (splitsRows_filter _ _ _ Hs) at 1.
    apply filterIndex_sublist. intros k Hk.
    apply bool_decide_eq_true_1 in Hk. apply bool_decide_eq_true_2.
    intros Hin. apply Hk. apply removeLoop_spec in Hin as [Hin | (j & rep & Hj & _ & Hi)];
      [now apply not_elem_of_empty in Hin|].
    unfold reportedIndexes. rewrite elem_of_list_to_set, list_elem_of_fmap.
    exists rep. split; [now symmetry | eapply list_elem_of_lookup_2, Hj].
  - apply filterIndex_sublist_all.
Qed.

(** ** What the reports say *)

Section ReportFacts.
Import ProcessExcel.

Context {A : Type}.
Variable read : A → row.
Variable columns : list string.

Lemma exact_seen_is_first (l : list A) :
  ∀ s j, seen (exactLoop read columns l 0 exactInit) !! s = Some j →
    isFirstOccurrence read columns l j
    ∧ ∃ r, l !! j = Some r ∧ createSignature (read r) columns = s.
Proof.
  induction l as [|r l IH] using rev_ind.
  - intros s j H. cbn in H. now rewrite lookup_empty in H.
  - intros s j. rewrite exactLoop_snoc. unfold exactStep.
    pose proof (exactInv_loop read columns l) as Hinv.
    destruct (seen _ !! createSignature (read r) columns) as [first|] eqn:E;
      cbn [seen].
    + intros H. destruct (IH s j H) as (Hf & r0 & Hr0 & Hs). split.
      * apply isFirstOccurrence_snoc. now left.
      * exists r0. split; [|exact Hs].
        rewrite lookup_app_l; [exact Hr0 | now apply lookup_lt_Some in Hr0].
    + intros [[<- <-] | [Hne H]]%lookup_insert_Some.
      * split.
        -- apply isFirstOccurrence_snoc. right. split; [reflexivity|].
           intros j r' Hj. exact (seen_none _ _ _ _ Hinv _ E j r' Hj).
        -- exists r. split; [|reflexivity]. now apply list_lookup_middle.
      * destruct (IH s j H) as (Hf & r0 & Hr0 & Hs). split.
        -- apply isFirstOccurrence_snoc. now left.
        -- exists r0. split; [|exact Hs].
           rewrite lookup_app_l; [exact Hr0 | now apply lookup_lt_Some in Hr0].
Qed.

Lemma exactReport_snoc (l : list A) (r : A) (rep : DuplicateInfo) :
  exactReport read columns l rep → exactReport read columns (l ++ [r]) rep.
Proof.
  intros (r1 & r2 & H1 & H2 & Hlt & Hf & Ho & Hd & Heq & Hsc).
  exists r1, r2. repeat split; try assumption.
  - rewrite lookup_app_l; [exact H1 | now apply lookup_lt_Some in H1].
  - rewrite lookup_app_l; [exact H2 | now apply lookup_lt_Some in H2].
  - apply isFirstOccurrence_snoc. now left.
Qed.

Lemma exact_reports (l : list A) :
  Forall (exactReport read columns l)
    (ex_duplicatesFound (exactLoop read columns l 0 exactInit)).
Proof.
  induction l as [|r l IH] using rev_ind; [constructor|].
  rewrite exactLoop_snoc. unfold exactStep.
  assert (Hold : Forall (exactReport read columns (l ++ [r]))
                   (ex_duplicatesFound (exactLoop read columns l 0 exactInit))).
  { eapply Forall_impl; [exact IH|]. intros rep. apply exactReport_snoc. }
  destruct (seen _ !! createSignature (read r) columns) as [first|] eqn:E;
    cbn [ex_duplicatesFound]; [|exact Hold].
  apply Forall_app. split; [exact Hold|]. repeat constructor.
  destruct (exact_seen_is_first l _ _ E) as (Hf & r1 & Hr1 & Hs).
  exists r1, r. cbn. repeat split.
  - rewrite lookup_app_l; [exact Hr1 | now apply lookup_lt_Some in Hr1].
  - now apply list_lookup_middle.
  - now apply lookup_lt_Some in Hr1.
  - apply isFirstOccurrence_snoc. now left.
  - now symmetry.
Qed.

Variable jw : string → string → Q.
Variables (threshold : Q) (alg : SimilarityAlgorithm).

Lemma fuzzyReport_snoc (l kept : list A) (r : A) (extra : list A)
    (rep : DuplicateInfo) :
  fuzzyReport jw read columns threshold alg l kept rep →
  fuzzyReport jw read columns threshold alg (l ++ [r]) (kept ++ extra) rep.
Proof.
  intros (r1 & r2 & H1 & H2 & Hlt & Hk & Ho & Hd & Hsc & Hge).
  exists r1, r2. repeat split; try assumption.
  - rewrite lookup_app_l; [exact H1 | now apply lookup_lt_Some in H1].
  - rewrite lookup_app_l; [exact H2 | now apply lookup_lt_Some in H2].
  - apply elem_of_app. now left.
Qed.

Lemma fuzzy_reports (l : list A) :
  Forall (fuzzyReport jw read columns threshold alg l
            (fz_uniqueRows (fuzzyLoop jw read columns threshold alg l 0 fuzzyInit)))
    (fz_duplicatesFound (fuzzyLoop jw read columns threshold alg l 0 fuzzyInit)).
Proof.
  induction l as [|r l IH] using rev_ind; [constructor|].
  rewrite fuzzyLoop_snoc. unfold fuzzyStep.
  pose proof (findSimilarMatch_spec jw threshold alg
                (createSignature (read r) columns)
                (uniqueSignatures (fuzzyLoop jw read columns threshold alg l 0 fuzzyInit)))
    as Hbest.
  pose proof (fuzzy_accepted_rows jw threshold alg read columns l) as Hacc.
  destruct (findSimilarMatch jw _ _ _ _) as [m|];
    cbn [fz_uniqueRows fz_duplicatesFound].
  - apply Forall_app. split.
    + eapply Forall_impl; [exact IH|]. intros rep Hrep.
      rewrite <- (app_nil_r (fz_uniqueRows _)). now apply fuzzyReport_snoc.
    + repeat constructor.
      destruct Hbest as (k & e & (Hk & Hge & _) & ->).
      destruct (Forall2_lookup_l _ _ _ _ _ Hacc Hk) as (r1 & Hr1 & Hs & Hi).
      exists r1, r. cbn. repeat split.
      * rewrite lookup_app_l; [exact Hi | now apply lookup_lt_Some in Hi].
      * now apply list_lookup_middle.
      * now apply lookup_lt_Some in Hi.
      * eapply list_elem_of_lookup_2, Hr1.
      * exact Hs.
      * exact Hge.
  - eapply Forall_impl; [exact IH|]. intros rep. apply fuzzyReport_snoc.
Qed.

(** The rows accepted by the fuzzy reducer are pairwise below the
    threshold, each scored against the rows accepted before it. *)
Lemma fuzzy_accepted_apart (l : list A) :
  ∀ a b ra rb, (a < b)%nat →
    fz_uniqueRows (fuzzyLoop jw read columns threshold alg l 0 fuzzyInit) !! a = Some ra →
    fz_uniqueRows (fuzzyLoop jw read columns threshold alg l 0 fuzzyInit) !! b = Some rb →
    (calculateSimilarity jw (createSignature (read rb) columns)
       (createSignature (read ra) columns) alg < threshold)%Q.
Proof.
  induction l as [|r l IH] using rev_ind.
  - intros a b ra rb _ H. cbn in H. discriminate.
  - rewrite fuzzyLoop_snoc. unfold fuzzyStep.
    pose proof (findSimilarMatch_spec jw threshold alg
                  (createSignature (read r) columns)
                  (uniqueSignatures
                     (fuzzyLoop jw read columns threshold alg l 0 fuzzyInit)))
      as Hbest.
    pose proof (fuzzy_accepted_rows jw threshold alg read columns l) as Hacc.
    destruct (findSimilarMatch jw _ _ _ _) as [m|]; cbn [fz_uniqueRows];
      [exact IH|].
    intros a b ra rb Hab Ha Hb.
    apply lookup_lt_Some in Ha as Hla. apply lookup_lt_Some in Hb as Hlb.
    rewrite length_app in Hla, Hlb. cbn in Hla, Hlb.
    destruct (decide (b < length (fz_uniqueRows
                (fuzzyLoop jw read columns threshold alg l 0 fuzzyInit)))%nat)
      as [Hb'|Hb'].
    + rewrite lookup_app_l in Ha by lia. rewrite lookup_app_l in Hb by lia.
      now apply (IH a b).
    + assert (b = length (fz_uniqueRows
                (fuzzyLoop jw read columns threshold alg l 0 fuzzyInit))) as -> by lia.
      rewrite list_lookup_middle in Hb by reflexivity. injection Hb as <-.
      rewrite lookup_app_l in Ha by lia.
      destruct (Forall2_lookup_r _ _ _ _ _ Hacc Ha) as (e & He & Hs & _).
      rewrite <- Hs. apply Hbest. eapply list_elem_of_lookup_2, He.
Qed.

End ReportFacts.

(** X3. In exact mode every report is well formed: it names the first row
    of the processed rows with the signature and a later row with the same
    signature, carries that signature as [original] and as [duplicate], and
    has no score. *)
Theorem exact_reports_name_first_occurrence {A : Type} (read : A → row)
    (data : list A) (columns : list string) :
  Forall (exactReport read columns data)
    (ProcessExcel.duplicatesFound
       (ProcessExcel.removeExactDuplicates read data columns)).
Proof. apply exact_reports. Qed.

(** X4. In fuzzy mode every report is well formed: it names a row that
    was kept and a later row, carries their two signatures, and its score is
    the similarity of the later signature to the kept one, which reaches the
    threshold. *)
Theorem fuzzy_reports_name_kept_row {A : Type} (jw : string → string → Q)
    (read : A → row) (data : list A) (columns : list string) (threshold : Q)
    (alg : SimilarityAlgorithm) :
  let res :=
    ProcessExcel.removeFuzzyDuplicates jw read data columns threshold alg in
  Forall (fuzzyReport jw read columns threshold alg data
            (ProcessExcel.uniqueRows res))
    (ProcessExcel.duplicatesFound res).
Proof. apply fuzzy_reports. Qed.

(** X5. The rows that fuzzy mode keeps are pairwise dissimilar: a kept
    row scores below the threshold against every row kept before it. *)
Theorem fuzzy_kept_rows_are_apart {A : Type} (jw : string → string → Q)
    (read : A → row) (data : list A) (columns : list string) (threshold : Q)
    (alg : SimilarityAlgorithm) (a b : nat) (ra rb : A) :
  let kept :=
    ProcessExcel.uniqueRows
      (ProcessExcel.removeFuzzyDuplicates jw read data columns threshold alg) in
  (a < b)%nat → kept !! a = Some ra → kept !! b = Some rb →
  (ProcessExcel.calculateSimilarity jw
     (ProcessExcel.createSignature (read rb) columns)
     (ProcessExcel.createSignature (read ra) columns) alg < threshold)%Q.
Proof. intros kept. apply fuzzy_accepted_apart. Qed.

Lemma fuzzy_kept_rows_are_apart_witness :
  (ProcessExcel.calculateSimilarity constantJaroWinkler
     (ProcessExcel.createSignature (id (person "Jane" "jane@e.com")) ["Name"])
     (ProcessExcel.createSignature (id (person "John Doe" "john@e.com")) ["Name"])
     Levenshtein < 95 # 100)%Q.
Proof.
  apply (fuzzy_kept_rows_are_apart constantJaroWinkler id sampleRows ["Name"]
           (95 # 100) Levenshtein 0 1);
    [lia | reflexivity | reflexivity].
Defined.

(** ** The first row, and the extreme thresholds *)

Section KeptFacts.
Import ProcessExcel.

Context {A : Type}.
Variable jw : string → string → Q.
Variable read : A → row.
Variable columns : list string.
Variables (threshold : Q) (alg : SimilarityAlgorithm).

Lemma exactLoop_prefix (l : list A) :
  ∀ (i : nat) (st : ExactState A),
    ex_uniqueRows st `prefix_of` ex_uniqueRows (exactLoop read columns l i st).
Proof.
  induction l as [|r l IH]; intros i st; cbn [exactLoop]; [reflexivity|].
  etrans; [|apply IH]. unfold exactStep.
  destruct (seen st !! _); cbn [ex_uniqueRows]; [reflexivity|].
  now apply prefix_app_r.
Qed.

Lemma fuzzyLoop_prefix (l : list A) :
  ∀ (i : nat) (st : FuzzyState A),
    fz_uniqueRows st
    `prefix_of` fz_uniqueRows (fuzzyLoop jw read columns threshold alg l i st).
Proof.
  induction l as [|r l IH]; intros i st; cbn [fuzzyLoop]; [reflexivity|].
  etrans; [|apply IH]. unfold fuzzyStep.
  destruct (findSimilarMatch jw _ _ _ _); cbn [fz_uniqueRows]; [reflexivity|].
  now apply prefix_app_r.
Qed.

Lemma prefix_head (x : A) (l : list A) : [x] `prefix_of` l → head l = Some x.
Proof. intros [k ->]. reflexivity. Qed.

(** Once a threshold that every score reaches has let the first row in,
    the loop of the fuzzy reducer accepts nothing more, and reports every
    row against that first row. *)
Lemma fuzzyLoop_single (e0 : Accepted) (r0 : A) (l : list A) :
  (∀ a b, threshold <= calculateSimilarity jw a b alg)%Q →
  ∀ (i : nat) (st : FuzzyState A),
    uniqueSignatures st = [e0] → fz_uniqueRows st = [r0] →
    Forall (fun rep => originalIndex rep = index e0) (fz_duplicatesFound st) →
    let st' := fuzzyLoop jw read columns threshold alg l i st in
    uniqueSignatures st' = [e0] ∧ fz_uniqueRows st' = [r0]
    ∧ Forall (fun rep => originalIndex rep = index e0) (fz_duplicatesFound st').
Proof.
  intros Hall. induction l as [|r l IH]; intros i st Hs Hr Hd;
    cbn [fuzzyLoop]; [easy|].
  assert (Hstep :
    fuzzyStep jw read columns threshold alg i r st
    = {| fz_uniqueRows := fz_uniqueRows st;
         uniqueSignatures := uniqueSignatures st;
         fz_duplicatesFound :=
           fz_duplicatesFound st ++
             [{| original := signature e0;
                 duplicate := createSignature (read r) columns;
                 originalIndex := index e0;
                 duplicateIndex := i;
                 score := Some (calculateSimilarity jw
                                  (createSignature (read r) columns)
                                  (signature e0) alg) |}] |}).
  { unfold fuzzyStep, findSimilarMatch. rewrite Hs.
    cbn [length Nat.eqb similarLoop]. unfold similarStep.
    rewrite (proj2 (geq_true _ _) (Hall _ _)). reflexivity. }
  rewrite Hstep. apply IH; cbn [uniqueSignatures fz_uniqueRows fz_duplicatesFound];
    try assumption.
  apply Forall_app. split; [exact Hd|]. repeat constructor.
Qed.

End KeptFacts.

(** X6. The first processed row is always kept, in both modes: the rows
    kept begin with the first row of the rows given to the reducer. *)
Theorem first_row_is_kept {A : Type} (jw : string → string → Q) (read : A → row)
    (data : list A) (columns : list string) (mode : ComparisonMode)
    (threshold : Q) (alg : SimilarityAlgorithm) :
  head (ProcessExcel.uniqueRows
          (ProcessExcel.removeDuplicateRows jw read data columns mode threshold alg))
  = head data.
Proof.
  destruct data as [|r l]; [now destruct mode|].
  cbn [head]. apply prefix_head.
  destruct mode; cbn.
  - apply (exactLoop_prefix read columns l 1
             (ProcessExcel.exactStep read columns 0 r ProcessExcel.exactInit)).
  - apply (fuzzyLoop_prefix jw read columns threshold alg l 1
             (ProcessExcel.fuzzyStep jw read columns threshold alg 0 r
                ProcessExcel.fuzzyInit)).
Qed.

(** X7. A threshold that every score reaches matches anything (as
    threshold 0 does when no score is negative): fuzzy mode then keeps the
    first row only, and reports every other row against it. *)
Theorem low_threshold_keeps_first_row {A : Type} (jw : string → string → Q)
    (read : A → row) (data : list A) (columns : list string) (threshold : Q)
    (alg : SimilarityAlgorithm) :
  (∀ a b, threshold <= ProcessExcel.calculateSimilarity jw a b alg)%Q →
  let res :=
    ProcessExcel.removeFuzzyDuplicates jw read data columns threshold alg in
  ProcessExcel.uniqueRows res = take 1 data
  ∧ length (ProcessExcel.duplicatesFound res) = (length data - 1)%nat
  ∧ Forall (fun rep => ProcessExcel.originalIndex rep = 0%nat)
      (ProcessExcel.duplicatesFound res).
Proof.
  intros Hall res.
  pose proof (fuzzy_splits jw read columns threshold alg data) as Hsplit.
  apply splitsRows_length in Hsplit.
  subst res. unfold ProcessExcel.removeFuzzyDuplicates in *.
  cbn [ProcessExcel.uniqueRows ProcessExcel.duplicatesFound].
  destruct data as [|r l]; [repeat split; constructor|].
  cbn [ProcessExcel.fuzzyLoop] in *.
  destruct (fuzzyLoop_single jw read columns threshold alg
              {| ProcessExcel.signature :=
                   ProcessExcel.createSignature (read r) columns;
                 ProcessExcel.index := 0 |} r l Hall 1
              (ProcessExcel.fuzzyStep jw read columns threshold alg 0 r
                 ProcessExcel.fuzzyInit))
    as (_ & Hrows & Hreps); [reflexivity | reflexivity | constructor |].
  rewrite Hrows in *. cbn in *. repeat split; [lia | exact Hreps].
Qed.

Lemma low_threshold_keeps_first_row_witness :
  let res :=
    ProcessExcel.removeFuzzyDuplicates constantJaroWinkler id sampleRows
      ["Name"] 0 Levenshtein in
  ProcessExcel.uniqueRows res = take 1 sampleRows
  ∧ length (ProcessExcel.duplicatesFound res) = (length sampleRows - 1)%nat
  ∧ Forall (fun rep => ProcessExcel.originalIndex rep = 0%nat)
      (ProcessExcel.duplicatesFound res).
Proof.
  apply (low_threshold_keeps_first_row constantJaroWinkler id sampleRows
           ["Name"] 0 Levenshtein).
  intros a b. apply levenshtein_score_bounds.
Defined.

(** ** Fuzzy mode against exact mode *)

Section FuzzyBelowExact.
Import ProcessExcel.

Context {A : Type}.
Variable jw : string → string → Q.
Variable read : A → row.
Variable columns : list string.
Variables (threshold : Q) (alg : SimilarityAlgorithm).

Hypothesis identical_reach :
  ∀ s, (threshold <= calculateSimilarity jw s s alg)%Q.

Lemma fuzzyBelow_step (i : nat) (r : A) (es : ExactState A) (fs : FuzzyState A) :
  fuzzyBelow jw threshold alg es fs →
  fuzzyBelow jw threshold alg (exactStep read columns i r es)
    (fuzzyStep jw read columns threshold alg i r fs).
Proof.
  intros [Hsub Hseen]. unfold exactStep, fuzzyStep.
  pose proof (findSimilarMatch_spec jw threshold alg
                (createSignature (read r) columns) (uniqueSignatures fs)) as Hbest.
  destruct (seen es !! createSignature (read r) columns) as [first|] eqn:E;
    destruct (findSimilarMatch jw _ _ _ _) as [m|];
    split; cbn [ex_uniqueRows fz_uniqueRows seen uniqueSignatures].
  - exact Hsub.
  - exact Hseen.
  - exfalso. destruct (Hseen _ _ E) as (e & He & Hge).
    apply (Qlt_not_le _ _ (Hbest e He)), Hge.
  - exfalso. destruct (Hseen _ _ E) as (e & He & Hge).
    apply (Qlt_not_le _ _ (Hbest e He)), Hge.
  - now apply sublist_inserts_r.
  - intros s j [[<- <-] | [Hne H]]%lookup_insert_Some; [|now apply (Hseen s j)].
    destruct Hbest as (k & e & (Hk & Hge & _) & _).
    exists e. split; [eapply list_elem_of_lookup_2, Hk | exact Hge].
  - apply sublist_app; [exact Hsub | reflexivity].
  - intros s j [[<- <-] | [Hne H]]%lookup_insert_Some.
    + eexists. split; [apply elem_of_app; right; apply list_elem_of_singleton;
                       reflexivity|].
      cbn. apply identical_reach.
    + destruct (Hseen s j H) as (e & He & Hge). exists e. split; [|exact Hge].
      apply elem_of_app. now left.
Qed.

Lemma fuzzyBelow_loop (l : list A) :
  ∀ (i : nat) (es : ExactState A) (fs : FuzzyState A),
    fuzzyBelow jw threshold alg es fs →
    fuzzyBelow jw threshold alg (exactLoop read columns l i es)
      (fuzzyLoop jw read columns threshold alg l i fs).
Proof.
  induction l as [|r l IH]; intros i es fs H; [exact H|].
  cbn [exactLoop fuzzyLoop]. apply IH. now apply fuzzyBelow_step.
Qed.

Lemma fuzzy_sublist_exact (data : list A) :
  uniqueRows (removeFuzzyDuplicates jw read data columns threshold alg)
  `sublist_of` uniqueRows (removeExactDuplicates read data columns).
Proof.
  apply (fuzzyBelow_loop data 0 exactInit fuzzyInit). split; [constructor|].
  intros s j H. cbn in H. now rewrite lookup_empty in H.
Qed.

End FuzzyBelowExact.

(** X8. Fuzzy mode removes at least what exact mode removes: when every
    signature scores at least the threshold against itself, the rows that
    fuzzy mode keeps are a sub-sequence of the rows that exact mode keeps,
    and fuzzy mode reports at least as many rows as exact mode. *)
Theorem fuzzy_keeps_less_than_exact {A : Type} (jw : string → string → Q)
    (read : A → row) (data : list A) (columns : list string) (threshold : Q)
    (alg : SimilarityAlgorithm) :
  (∀ s, threshold <= ProcessExcel.calculateSimilarity jw s s alg)%Q →
  let fuzzy :=
    ProcessExcel.removeFuzzyDuplicates jw read data columns threshold alg in
  let exact := ProcessExcel.removeExactDuplicates read data columns in
  ProcessExcel.uniqueRows fuzzy `sublist_of` ProcessExcel.uniqueRows exact
  ∧ (length (ProcessExcel.duplicatesFound exact)
     ≤ length (ProcessExcel.duplicatesFound fuzzy))%nat.
Proof.
  intros Hrefl fuzzy exact.
  pose proof (fuzzy_sublist_exact jw read columns threshold alg Hrefl data)
    as Hsub.
  split; [exact Hsub|].
  apply sublist_length in Hsub.
  pose proof (splitsRows_length _ _ _
                (fuzzy_splits jw read columns threshold alg data)) as Hf.
  pose proof (splitsRows_length _ _ _ (exact_splits read columns data)) as He.
  subst fuzzy exact. unfold ProcessExcel.removeFuzzyDuplicates,
    ProcessExcel.removeExactDuplicates in *.
  cbn [ProcessExcel.uniqueRows ProcessExcel.duplicatesFound] in *. lia.
Qed.

Lemma fuzzy_keeps_less_than_exact_witness :
  let fuzzy :=
    ProcessExcel.removeFuzzyDuplicates constantJaroWinkler id sampleRows
      ["Name"] (5 # 10) Levenshtein in
  let exact := ProcessExcel.removeExactDuplicates id sampleRows ["Name"] in
  ProcessExcel.uniqueRows fuzzy `sublist_of` ProcessExcel.uniqueRows exact
  ∧ (length (ProcessExcel.duplicatesFound exact)
     ≤ length (ProcessExcel.duplicatesFound fuzzy))%nat.
Proof.
  apply (fuzzy_keeps_less_than_exact constantJaroWinkler id sampleRows
           ["Name"] (5 # 10) Levenshtein).
  intros s. apply Qle_trans with 1%Q; [vm_compute; discriminate|].
  now apply levenshtein_score_ge_1.
Defined.

(** ** Signatures *)

Section SignatureFacts.

Lemma toLowerUnit_not_capital_N (c : ascii) : toLowerUnit c ≠ "N"%char.
Proof. destruct c as [[] [] [] [] [] [] [] []]; vm_compute; discriminate. Qed.

Lemma toLowerCase_not_NULL (s : string) : toLowerCase s ≠ "NULL".
Proof.
  destruct s as [|c s]; cbn; [discriminate|].
  intros H. injection H as H _. now apply toLowerUnit_not_capital_N in H.
Qed.

Lemma append_sep_inj (sep : ascii) (x y rest rest' : string) :
  occursIn sep x = false → occursIn sep y = false →
  (x ++ String sep rest)%string = (y ++ String sep rest')%string →
  x = y ∧ rest = rest'.
Proof.
  revert y. induction x as [|a x IH]; intros [|b y]; cbn.
  - intros _ _ H. injection H as ->. easy.
  - intros _ [Hb _]%orb_false_elim H. injection H as <- _.
    now rewrite Ascii.eqb_refl in Hb.
  - intros [Ha _]%orb_false_elim _ H. injection H as -> _.
    now rewrite Ascii.eqb_refl in Ha.
  - intros [_ Hx]%orb_false_elim [_ Hy]%orb_false_elim H.
    injection H as -> H. destruct (IH y Hx Hy H) as [-> ->]. easy.
Qed.

Lemma join_cons2 (sep x y : string) (l : list string) :
  join sep (x :: y :: l) = (x ++ sep ++ join sep (y :: l))%string.
Proof. reflexivity. Qed.

(** [join] with a separator of one code unit is injective on lists of the
    same length whose elements do not hold the separator. *)
Lemma join_sep_inj (sep : ascii) (l1 : list string) :
  ∀ l2 : list string,
    length l1 = length l2 →
    Forall (fun s => occursIn sep s = false) l1 →
    Forall (fun s => occursIn sep s = false) l2 →
    join (String sep EmptyString) l1 = join (String sep EmptyString) l2 →
    l1 = l2.
Proof.
  induction l1 as [|x [|x2 l1] IH]; intros [|y [|y2 l2]] Hlen H1 H2 Hj;
    try discriminate; try reflexivity.
  - cbn in Hj. now subst.
  - rewrite !join_cons2 in Hj. cbn [String.append] in Hj.
    inversion H1 as [|? ? Hx H1']; subst. inversion H2 as [|? ? Hy H2']; subst.
    destruct (append_sep_inj sep x y _ _ Hx Hy Hj) as [-> Hrest].
    f_equal. apply IH; [cbn in Hlen |- *; lia | assumption | assumption | exact Hrest].
Qed.

End SignatureFacts.

(** X9. The marker of a missing cell cannot be produced by a present
    cell: a cell normalises to "NULL" exactly when it is [null] or
    [undefined], whatever text, number or boolean a present cell holds. A
    text cell normalises as its trimmed and as its lower-cased text does. *)
Theorem null_marker_is_unambiguous (v : value) (s : string) :
  (ProcessExcel.normalizeCell v = "NULL" ↔ v = VNull ∨ v = VUndefined)
  ∧ ProcessExcel.normalizeCell (VStr (trim s)) = ProcessExcel.normalizeCell (VStr s)
  ∧ ProcessExcel.normalizeCell (VStr (toLowerCase s))
    = ProcessExcel.normalizeCell (VStr s).
Proof.
  split; [|split].
  - split.
    + destruct v; cbn [ProcessExcel.normalizeCell]; intros H;
        try (now left); try (now right);
        now apply toLowerCase_not_NULL in H.
    + now intros [-> | ->].
  - cbn [ProcessExcel.normalizeCell ToString]. now rewrite trim_idem.
  - cbn [ProcessExcel.normalizeCell ToString].
    now rewrite trim_toLowerCase, toLowerCase_idem.
Qed.

(** X10. Signatures separate rows with different cells as long as no
    normalised cell holds the separator: when none of the normalised cells
    of two rows holds a space, the rows have the same signature exactly when
    they have the same normalised cells. The same holds of the earlier
    handler with the pipe as separator. *)
Theorem signature_separates_cells (r1 r2 : row) (columns : list string) :
  (Forall (fun s => occursIn " " s = false) (normalizedCells r1 columns) →
   Forall (fun s => occursIn " " s = false) (normalizedCells r2 columns) →
   (ProcessExcel.createSignature r1 columns = ProcessExcel.createSignature r2 columns
    ↔ normalizedCells r1 columns = normalizedCells r2 columns))
  ∧ (Forall (fun s => occursIn "|" s = false) (normalizedCells r1 columns) →
     Forall (fun s => occursIn "|" s = false) (normalizedCells r2 columns) →
     (ProcessExcelSet.createSignature r1 columns
      = ProcessExcelSet.createSignature r2 columns
      ↔ normalizedCells r1 columns = normalizedCells r2 columns)).
Proof.
  split; intros H1 H2; (split; [|unfold ProcessExcel.createSignature,
    ProcessExcelSet.createSignature; fold (normalizedCells r1 columns);
    fold (normalizedCells r2 columns); now intros ->]).
  - apply (join_sep_inj " "); [|assumption|assumption].
    unfold normalizedCells. now rewrite !length_map.
  - apply (join_sep_inj "|"); [|assumption|assumption].
    unfold normalizedCells. now rewrite !length_map.
Qed.

Lemma signature_separates_cells_witness :
  (ProcessExcel.createSignature (person "Jane" "jane@e.com") ["Name"; "Email"]
   = ProcessExcel.createSignature (person " JANE" "Jane@E.com") ["Name"; "Email"]
   ↔ normalizedCells (person "Jane" "jane@e.com") ["Name"; "Email"]
     = normalizedCells (person " JANE" "Jane@E.com") ["Name"; "Email"])
  ∧ (ProcessExcelSet.createSignature (person "Jane" "jane@e.com") ["Name"; "Email"]
     = ProcessExcelSet.createSignature (person " JANE" "Jane@E.com") ["Name"; "Email"]
     ↔ normalizedCells (person "Jane" "jane@e.com") ["Name"; "Email"]
       = normalizedCells (person " JANE" "Jane@E.com") ["Name"; "Email"]).
Proof.
  destruct (signature_separates_cells (person "Jane" "jane@e.com")
              (person " JANE" "Jane@E.com") ["Name"; "Email"]) as [Hs Hp].
  split; [apply Hs | apply Hp]; vm_compute; repeat constructor.
Defined.

(** ** The earlier handler *)

Section EarlierHandler.
Import ProcessExcelSet.

Context {A : Type}.
Variable read : A → row.
Variable columns : list string.

Lemma loop_app (l1 l2 : list A) :
  ∀ st : LoopState A,
    loop read columns (l1 ++ l2) st = loop read columns l2 (loop read columns l1 st).
Proof. induction l1 as [|r l1 IH]; intros st; [reflexivity|]. cbn. apply IH. Qed.

Lemma loop_snoc (l : list A) (r : A) (st : LoopState A) :
  loop read columns (l ++ [r]) st = step read columns r (loop read columns l st).
Proof. now rewrite loop_app. Qed.

Lemma loop_seen (l : list A) :
  ∀ s, s ∈ seen (loop read columns l {| seen := ∅; st_uniqueRows := [] |})
       ↔ ∃ r, r ∈ l ∧ createSignature (read r) columns = s.
Proof.
  induction l as [|r l IH] using rev_ind; intros s.
  - cbn. split; [intros H; now apply not_elem_of_empty in H|].
    intros (r & Hr & _). inversion Hr.
  - rewrite loop_snoc. unfold step.
    destruct (decide (_ ∈ _)) as [Hin|Hnin]; cbn [seen].
    + rewrite IH. split.
      * intros (r0 & Hr0 & Hs). exists r0. split; [|exact Hs].
        apply elem_of_app. now left.
      * intros (r0 & [Hr0 | ->%list_elem_of_singleton]%elem_of_app & Hs).
        -- now exists r0.
        -- subst s. now apply IH.
    + rewrite elem_of_union, elem_of_singleton, IH. split.
      * intros [-> | (r0 & Hr0 & Hs)].
        -- exists r. split; [|reflexivity]. apply elem_of_app. right.
           now apply list_elem_of_singleton.
        -- exists r0. split; [|exact Hs]. apply elem_of_app. now left.
      * intros (r0 & [Hr0 | ->%list_elem_of_singleton]%elem_of_app & Hs).
        -- right. now exists r0.
        -- now left.
Qed.

(** What the earlier reducer keeps: a sub-sequence of the rows, with one
    row for each signature. *)
Lemma loop_kept (l : list A) :
  let kept :=
    st_uniqueRows (loop read columns l {| seen := ∅; st_uniqueRows := [] |}) in
  kept `sublist_of` l
  ∧ NoDup (map (fun r => createSignature (read r) columns) kept)
  ∧ ∀ r, r ∈ l → ∃ r', r' ∈ kept
                       ∧ createSignature (read r') columns
                         = createSignature (read r) columns.
Proof.
  induction l as [|r l (Hsub & Hnd & Hcov)] using rev_ind.
  - cbn. split; [apply sublist_nil|]. split; [apply NoDup_nil_2|].
    intros r Hr. inversion Hr.
  - cbn zeta in *. rewrite loop_snoc. unfold step.
    pose proof (loop_seen l (createSignature (read r) columns)) as Hseen.
    destruct (decide (_ ∈ _)) as [Hin|Hnin]; cbn [st_uniqueRows].
    + split; [now apply sublist_inserts_r|]. split; [exact Hnd|].
      intros r0 [Hr0 | ->%list_elem_of_singleton]%elem_of_app;
        [now apply Hcov|].
      apply Hseen in Hin as (r1 & Hr1 & Hs1).
      destruct (Hcov r1 Hr1) as (r' & Hr' & Hs'). exists r'. split; [exact Hr'|].
      congruence.
    + split; [apply sublist_app; [exact Hsub | reflexivity]|]. split.
      * rewrite map_app. apply NoDup_app. split; [exact Hnd|]. split.
        -- intros s (r' & -> & Hr')%list_elem_of_fmap Hs%list_elem_of_singleton.
           apply Hnin, Hseen. exists r'. split; [|exact Hs].
           eapply elem_of_sublist; eassumption.
        -- apply NoDup_singleton.
      * intros r0 [Hr0 | ->%list_elem_of_singleton]%elem_of_app.
        -- destruct (Hcov r0 Hr0) as (r' & Hr' & Hs'). exists r'.
           split; [apply elem_of_app; now left | exact Hs'].
        -- exists r. split; [|reflexivity]. apply elem_of_app. right.
           now apply list_elem_of_singleton.
Qed.

(** On rows that the two signatures tell apart alike, the earlier reducer
    keeps the rows that the exact reducer keeps. *)
Lemma loop_agrees_with_exact (l : list A) :
  (∀ r r', r ∈ l → r' ∈ l →
     (createSignature (read r) columns = createSignature (read r') columns
      ↔ ProcessExcel.createSignature (read r) columns
        = ProcessExcel.createSignature (read r') columns)) →
  st_uniqueRows (loop read columns l {| seen := ∅; st_uniqueRows := [] |})
  = ProcessExcel.ex_uniqueRows
      (ProcessExcel.exactLoop read columns l 0 ProcessExcel.exactInit).
Proof.
  induction l as [|r l IH] using rev_ind; intros Hsame; [reflexivity|].
  rewrite loop_snoc, exactLoop_snoc. unfold step, ProcessExcel.exactStep.
  assert (Heq : st_uniqueRows (loop read columns l {| seen := ∅; st_uniqueRows := [] |})
                = ProcessExcel.ex_uniqueRows
                    (ProcessExcel.exactLoop read columns l 0 ProcessExcel.exactInit)).
  { apply IH. intros r1 r2 H1 H2. apply Hsame; apply elem_of_app; now left. }
  pose proof (loop_seen l (createSignature (read r) columns)) as Hseen.
  pose proof (exactInv_loop read columns l) as Hinv.
  assert (Hlast : r ∈ l ++ [r]).
  { apply elem_of_app. right. now apply list_elem_of_singleton. }
  destruct (decide (_ ∈ _)) as [Hin|Hnin];
    destruct (ProcessExcel.seen _ !! _) as [first|] eqn:E;
    cbn [st_uniqueRows ProcessExcel.ex_uniqueRows].
  - exact Heq.
  - exfalso. apply Hseen in Hin as (r1 & Hr1 & Hs1).
    apply list_elem_of_lookup in Hr1 as Hj. destruct Hj as [j Hj].
    apply (seen_none _ _ _ _ Hinv _ E j r1 Hj).
    apply Hsame; [apply elem_of_app; now left | exact Hlast | exact Hs1].
  - exfalso. destruct (seen_first _ _ _ _ Hinv _ _ E) as (r1 & Hj & Hs1).
    apply Hnin, Hseen. exists r1. apply list_elem_of_lookup_2 in Hj.
    split; [exact Hj|].
    apply Hsame; [apply elem_of_app; now left | exact Hlast | exact Hs1].
  - now rewrite Heq.
Qed.

End EarlierHandler.

(** X11. The earlier reducer keeps one row for each signature: the rows
    it returns are a sub-sequence of its rows, no two of them have the same
    signature, and every row has the signature of a row that is kept. *)
Theorem earlier_reducer_keeps_one_per_signature {A : Type} (read : A → row)
    (data : list A) (columns : list string) :
  let kept := ProcessExcelSet.removeDuplicateRows read data columns in
  kept `sublist_of` data
  ∧ NoDup (map (fun r => ProcessExcelSet.createSignature (read r) columns) kept)
  ∧ ∀ r, r ∈ data →
      ∃ r', r' ∈ kept
            ∧ ProcessExcelSet.createSignature (read r') columns
              = ProcessExcelSet.createSignature (read r) columns.
Proof. apply loop_kept. Qed.

(** X12. The present handler in exact mode and without slice answers as
    the earlier handler did, when the two ways of joining the cells (with a
    space, with a pipe) tell the rows of the request apart alike: the same
    error, or the same rows and the same three counts. *)
Theorem exact_mode_answers_as_earlier_handler {A : Type}
    (jw : string → string → Q) (read : A → row)
    (body : ProcessExcel.ProcessRequest A) :
  ProcessExcel.comparisonMode body = Some Exact →
  ProcessExcel.sliceStart body = None →
  ProcessExcel.sliceEnd body = None →
  (∀ r r', r ∈ ProcessExcel.data body → r' ∈ ProcessExcel.data body →
     (ProcessExcelSet.createSignature (read r) (ProcessExcel.columns body)
      = ProcessExcelSet.createSignature (read r') (ProcessExcel.columns body)
      ↔ ProcessExcel.createSignature (read r) (ProcessExcel.columns body)
        = ProcessExcel.createSignature (read r') (ProcessExcel.columns body))) →
  sameAnswer (ProcessExcel.POST jw read body)
    (ProcessExcelSet.POST read (earlierRequest body)).
Proof.
  intros Hmode Hs He Hsame.
  unfold ProcessExcel.POST, ProcessExcelSet.POST, earlierRequest.
  cbn [ProcessExcelSet.data ProcessExcelSet.columns].
  destruct (length (ProcessExcel.data body) =? 0)%nat; [easy|].
  destruct (length (ProcessExcel.columns body) =? 0)%nat; [easy|].
  rewrite Hmode, Hs, He. cbn [default]. rewrite slice_all.
  cbn [sameAnswer ProcessExcel.resp_uniqueRows ProcessExcelSet.uniqueRows
       ProcessExcel.originalCount ProcessExcelSet.originalCount
       ProcessExcel.uniqueCount ProcessExcelSet.uniqueCount
       ProcessExcel.removedCount ProcessExcelSet.removedCount
       ProcessExcel.removeDuplicateRows].
  unfold ProcessExcelSet.removeDuplicateRows, ProcessExcel.removeExactDuplicates.
  cbn [ProcessExcel.uniqueRows].
  now rewrite (loop_agrees_with_exact read (ProcessExcel.columns body)
                 (ProcessExcel.data body) Hsame).
Qed.

Lemma exact_mode_answers_as_earlier_handler_witness :
  sameAnswer
    (ProcessExcel.POST constantJaroWinkler (Store.deref sampleStore)
       sampleStoreRequest)
    (ProcessExcelSet.POST (Store.deref sampleStore)
       (earlierRequest sampleStoreRequest)).
Proof.
  apply (exact_mode_answers_as_earlier_handler constantJaroWinkler
           (Store.deref sampleStore) sampleStoreRequest);
    [reflexivity | reflexivity | reflexivity |].
  intros r r' _ _. reflexivity.
Defined.

(** ** The best match of the cross-file matcher *)

Section BestMatchFacts.
Import MatchColumns.

Context {A : Type}.
Variable jw : string → string → Q.
Variables (threshold : Q) (alg : SimilarityAlgorithm).

Lemma bestStep_inv (s : string) (pre : list (File2Entry A)) (x : File2Entry A)
    (best : option (BestMatch A)) :
  bestEntrySoFar jw s threshold alg pre best →
  bestEntrySoFar jw s threshold alg (pre ++ [x])
    (bestStep jw s threshold alg x best).
Proof.
  intros Hbest. unfold bestStep.
  set (sc := calculateSimilarity jw s (value x) alg).
  assert (Hnew : (threshold <= sc)%Q →
                 (∀ e, e ∈ pre → (calculateSimilarity jw s (value e) alg < sc)%Q) →
                 isBestEntry jw s threshold alg (pre ++ [x]) (length pre) x).
  { intros Hge Hlt. split; [apply list_lookup_middle; reflexivity|].
    split; [exact Hge|]. split.
    - intros j e' [[_ He'] | [_ ->]]%lookup_snoc_Some; [|apply Qle_refl].
      apply Qlt_le_weak, Hlt. eapply list_elem_of_lookup_2, He'.
    - intros j e' Hj He'. rewrite lookup_app_l in He' by exact Hj.
      apply Hlt. eapply list_elem_of_lookup_2, He'. }
  destruct (geq sc threshold) eqn:Hge; cbn [andb].
  - apply geq_true in Hge. destruct best as [m|].
    + destruct Hbest as (k & e & (Hk & Ht & Hmax & Hties) & ->).
      cbn [bestOf bestScore].
      destruct (gt sc (calculateSimilarity jw s (value e) alg)) eqn:Hgt.
      * apply gt_true in Hgt. exists (length pre), x. split; [|reflexivity].
        apply Hnew; [exact Hge|].
        intros e' [j He']%list_elem_of_lookup_1.
        eapply Qle_lt_trans; [apply (Hmax j e' He') | exact Hgt].
      * apply gt_false in Hgt. exists k, e. split; [|reflexivity].
        pose proof (lookup_lt_Some _ _ _ Hk) as Hklt.
        split; [rewrite lookup_app_l by exact Hklt; exact Hk|].
        split; [exact Ht|]. split.
        -- intros j e' [[_ He'] | [_ ->]]%lookup_snoc_Some;
             [apply (Hmax j e' He') | exact Hgt].
        -- intros j e' Hj He'. rewrite lookup_app_l in He' by lia.
           apply (Hties j e' Hj He').
    + exists (length pre), x. split; [|reflexivity].
      apply Hnew; [exact Hge|]. intros e' He'.
      eapply Qlt_le_trans; [apply Hbest, He' | exact Hge].
  - apply geq_false in Hge. destruct best as [m|].
    + destruct Hbest as (k & e & (Hk & Ht & Hmax & Hties) & ->).
      exists k, e. split; [|reflexivity].
      pose proof (lookup_lt_Some _ _ _ Hk) as Hklt.
      split; [rewrite lookup_app_l by exact Hklt; exact Hk|].
      split; [exact Ht|]. split.
      * intros j e' [[_ He'] | [_ ->]]%lookup_snoc_Some;
          [apply (Hmax j e' He')|].
        apply Qlt_le_weak. eapply Qlt_le_trans; [exact Hge | exact Ht].
      * intros j e' Hj He'. rewrite lookup_app_l in He' by lia.
        apply (Hties j e' Hj He').
    + intros e' [He' | ->%list_elem_of_singleton]%elem_of_app;
        [apply Hbest, He' | exact Hge].
Qed.

Lemma bestLoop_inv (s : string) (rest : list (File2Entry A)) :
  ∀ (pre : list (File2Entry A)) (best : option (BestMatch A)) (calls : nat),
    bestEntrySoFar jw s threshold alg pre best →
    bestEntrySoFar jw s threshold alg (pre ++ rest)
      (fst (bestLoop jw s threshold alg rest best calls)).
Proof.
  induction rest as [|x rest IH]; intros pre best calls Hbest.
  - now rewrite app_nil_r.
  - cbn [bestLoop]. rewrite (cons_middle x pre rest), app_assoc.
    apply IH, bestStep_inv, Hbest.
Qed.

Lemma findBestMatch_spec (s : string) (entries : list (File2Entry A)) :
  s ≠ EmptyString →
  bestEntrySoFar jw s threshold alg entries
    (findBestMatch jw s entries threshold alg).
Proof.
  intros Hs. unfold findBestMatch, findBestMatchCounted.
  destruct s as [|c s]; [easy|]. cbn [falsy].
  apply (bestLoop_inv (String c s) entries [] None 0).
  intros e He. inversion He.
Qed.

Lemma findBestMatch_blank (entries : list (File2Entry A)) :
  findBestMatch jw EmptyString entries threshold alg = None.
Proof. reflexivity. Qed.

(** At most one entry is the first of the best-scoring entries. *)
Lemma isBestEntry_unique (s : string) (t1 t2 : Q) (entries : list (File2Entry A))
    (k1 k2 : nat) (e1 e2 : File2Entry A) :
  isBestEntry jw s t1 alg entries k1 e1 →
  isBestEntry jw s t2 alg entries k2 e2 →
  k1 = k2 ∧ e1 = e2.
Proof.
  intros (Hk1 & _ & Hmax1 & Hties1) (Hk2 & _ & Hmax2 & Hties2).
  assert (k1 = k2) as ->.
  { destruct (lt_eq_lt_dec k1 k2) as [[Hlt | Heq] | Hlt]; [|exact Heq|].
    - exfalso. apply (Qlt_not_le _ _ (Hties2 k1 e1 Hlt Hk1)), (Hmax1 k2 e2 Hk2).
    - exfalso. apply (Qlt_not_le _ _ (Hties1 k2 e2 Hlt Hk2)), (Hmax2 k1 e1 Hk1). }
  split; [reflexivity | congruence].
Qed.

End BestMatchFacts.

(** X13. [findBestMatch] returns the first of the best-scoring entries
    when the best score reaches the threshold, with its index, score and
    row; it returns nothing exactly when the search value is empty or every
    entry scores below the threshold. *)
Theorem best_match_is_first_maximum {A : Type} (jw : string → string → Q)
    (searchValue : string) (file2Values : list (MatchColumns.File2Entry A))
    (threshold : Q) (alg : SimilarityAlgorithm) :
  match MatchColumns.findBestMatch jw searchValue file2Values threshold alg with
  | Some b =>
      searchValue ≠ EmptyString
      ∧ ∃ k e, isBestEntry jw searchValue threshold alg file2Values k e
               ∧ b = bestOf jw searchValue alg e
  | None =>
      searchValue = EmptyString
      ∨ ∀ e, e ∈ file2Values →
          (MatchColumns.calculateSimilarity jw searchValue
             (MatchColumns.value e) alg < threshold)%Q
  end.
Proof.
  destruct (decide (searchValue = EmptyString)) as [-> | Hs].
  - rewrite findBestMatch_blank. now left.
  - pose proof (findBestMatch_spec jw threshold alg searchValue file2Values Hs)
      as Hspec.
    destruct (MatchColumns.findBestMatch jw searchValue file2Values threshold alg).
    + split; [exact Hs | exact Hspec].
    + right. exact Hspec.
Qed.

(** X14. Lowering the threshold never changes a match: a source value
    that is matched at a threshold is matched to the same entry, with the
    same score, at every lower threshold. *)
Theorem lower_threshold_keeps_match {A : Type} (jw : string → string → Q)
    (searchValue : string) (file2Values : list (MatchColumns.File2Entry A))
    (t1 t2 : Q) (alg : SimilarityAlgorithm) (b : MatchColumns.BestMatch A) :
  (t1 <= t2)%Q →
  MatchColumns.findBestMatch jw searchValue file2Values t2 alg = Some b →
  MatchColumns.findBestMatch jw searchValue file2Values t1 alg = Some b.
Proof.
  intros Hle H2.
  destruct (decide (searchValue = EmptyString)) as [-> | Hs];
    [now rewrite findBestMatch_blank in H2|].
  pose proof (findBestMatch_spec jw t2 alg searchValue file2Values Hs) as Hs2.
  pose proof (findBestMatch_spec jw t1 alg searchValue file2Values Hs) as Hs1.
  rewrite H2 in Hs2. destruct Hs2 as (k2 & e2 & Hbest2 & ->).
  destruct (MatchColumns.findBestMatch jw searchValue file2Values t1 alg)
    as [b1|].
  - destruct Hs1 as (k1 & e1 & Hbest1 & ->).
    destruct (isBestEntry_unique jw alg _ _ _ _ _ _ _ _ Hbest1 Hbest2) as [_ ->].
    reflexivity.
  - exfalso. destruct Hbest2 as (Hk2 & Ht2 & _).
    apply list_elem_of_lookup_2 in Hk2.
    apply (Qlt_not_le _ _ (Hs1 e2 Hk2)). now apply Qle_trans with t2.
Qed.

Lemma lower_threshold_keeps_match_witness :
  MatchColumns.findBestMatch constantJaroWinkler "smith"
    (MatchColumns.preprocess id "v" [rowV (VStr "Smyth"); rowV (VStr "smith ")])
    (5 # 10) Levenshtein
  = Some {| MatchColumns.bestIndex := 1; MatchColumns.bestScore := 5 # 5;
            MatchColumns.bestRow := rowV (VStr "smith ") |}.
Proof.
  apply (lower_threshold_keeps_match constantJaroWinkler "smith"
           (MatchColumns.preprocess id "v" [rowV (VStr "Smyth"); rowV (VStr "smith ")])
           (5 # 10) (9 # 10) Levenshtein).
  - vm_compute. discriminate.
  - vm_compute. reflexivity.
Defined.

(** ** The entries of the cross-file response *)

Section EntryFacts.
Import MatchColumns.

Context {A : Type}.
Variable jw : string → string → Q.
Variable read : A → row.
Variables (file2Values : list (File2Entry A)) (c1 c2 : string).
Variables (a1 a2 : list string) (t : Q) (alg : SimilarityAlgorithm).

Lemma collect_snoc (cols : list string) (col : string) (r : row) :
  collect (cols ++ [col]) r = <[col := get r col]> (collect cols r).
Proof. unfold collect. now rewrite fold_left_app. Qed.

Lemma collect_lookup (cols : list string) (r : row) (col : string) :
  collect cols r !! col = if decide (col ∈ cols) then Some (get r col) else None.
Proof.
  induction cols as [|c cols IH] using rev_ind.
  - cbn. rewrite lookup_empty.
    destruct (decide (col ∈ [])) as [H|]; [inversion H | reflexivity].
  - rewrite collect_snoc. destruct (decide (c = col)) as [-> | Hne].
    + rewrite lookup_insert_eq.
      destruct (decide (col ∈ cols ++ [col])) as [|Hn]; [reflexivity|].
      exfalso. apply Hn, elem_of_app. right. now apply list_elem_of_singleton.
    + rewrite lookup_insert_ne by exact Hne. rewrite IH.
      destruct (decide (col ∈ cols)) as [Hin|Hnin];
        destruct (decide (col ∈ cols ++ [c])) as [Hin'|Hnin']; try reflexivity.
      * exfalso. apply Hnin', elem_of_app. now left.
      * exfalso. apply elem_of_app in Hin' as [? | ->%list_elem_of_singleton];
          [now apply Hnin | now apply Hne].
Qed.

(** The counters of the main loop count the entries with and without a
    row of the second file. *)
Lemma matchLoop_count_matched (rows : list A) :
  ∀ (i : nat) (st : LoopState (gmap string JS.value)),
    st_matchedCount st = length (filter isMatched (st_matches st)) →
    st_unmatchedCount st
    = length (filter (fun m => ¬ isMatched m) (st_matches st)) →
    let st' := matchLoop jw read file2Values c1 c2 a1 a2 t alg rows i st in
    st_matchedCount st' = length (filter isMatched (st_matches st'))
    ∧ st_unmatchedCount st'
      = length (filter (fun m => ¬ isMatched m) (st_matches st')).
Proof.
  induction rows as [|r rows IH]; intros i st Hm Hu; [easy|].
  cbn [matchLoop]. apply IH.
  - unfold matchStep, pushMatch, makeMatch. cbn [st_matchedCount st_matches].
    rewrite filter_app, length_app, <- Hm.
    destruct (findBestMatch jw _ _ _ _) as [b|].
    + rewrite filter_cons_True by (now eexists). cbn. lia.
    + rewrite filter_cons_False by (intros [? H]; discriminate H). cbn. lia.
  - unfold matchStep, pushMatch, makeMatch. cbn [st_unmatchedCount st_matches].
    rewrite filter_app, length_app, <- Hu.
    destruct (findBestMatch jw _ _ _ _) as [b|].
    + rewrite filter_cons_False by (intros H; apply H; now eexists). cbn. lia.
    + rewrite filter_cons_True by (intros [? H]; discriminate H). cbn. lia.
Qed.

End EntryFacts.

Section EntryCounts.
Import MatchColumns.

Context {A : Type}.
Variable jw : string → string → Q.
Variable read : A → row.

Lemma match_POST_counted (body : MatchRequest A)
    (resp : MatchResponse (gmap string JS.value)) :
  POST jw read body = Ok resp →
  matchedCount resp = length (filter isMatched (matches resp))
  ∧ unmatchedCount resp
    = length (filter (fun m => ¬ isMatched m) (matches resp)).
Proof.
  unfold POST.
  destruct (length (file1Data body) =? 0)%nat; [discriminate|].
  destruct (length (file2Data body) =? 0)%nat; [discriminate|].
  destruct (file1Column body) as [col1|]; [|discriminate].
  destruct (file2Column body) as [col2|]; [|discriminate].
  destruct (falsy col1 || falsy col2); [discriminate|].
  intros [= <-].
  cbn [matchedCount unmatchedCount matches].
  now apply matchLoop_count_matched.
Qed.

End EntryCounts.

(** X15. An entry of the response names the rows it is made from. It
    carries the cell of the source row as it is (not normalised) and the
    additional columns of that row; when it has a row of the second file,
    that row exists, the entry carries its cell, or [null] when the cell is
    missing, and its additional columns, and the score is the similarity of
    the two normalised cells and reaches the threshold; otherwise the value
    is [null] and the additional data of the second file is empty. *)
Theorem matched_entry_names_its_rows {A : Type} (jw : string → string → Q)
    (read : A → row) (body : MatchColumns.MatchRequest A) (c1 c2 : string) :
  MatchColumns.file1Data body ≠ [] →
  MatchColumns.file2Data body ≠ [] →
  MatchColumns.file1Column body = Some c1 →
  MatchColumns.file2Column body = Some c2 →
  c1 ≠ EmptyString → c2 ≠ EmptyString →
  ∃ resp,
    MatchColumns.POST jw read body = Ok resp
    ∧ ∀ i r m,
        MatchColumns.file1Data body !! i = Some r →
        MatchColumns.matches resp !! i = Some m →
        MatchColumns.file1Value m = get (read r) c1
        ∧ MatchColumns.file1AdditionalData m
          = MatchColumns.collect
              (default [] (MatchColumns.file1AdditionalColumns body)) (read r)
        ∧ match MatchColumns.file2RowIndex m with
          | Some k =>
              ∃ r2,
                MatchColumns.file2Data body !! k = Some r2
                ∧ MatchColumns.file2Value m = nullish (get (read r2) c2) VNull
                ∧ MatchColumns.score m
                  = MatchColumns.calculateSimilarity jw
                      (MatchColumns.normalizeValue (get (read r) c1))
                      (MatchColumns.normalizeValue (get (read r2) c2))
                      (default Dice (MatchColumns.similarityAlgorithm body))
                ∧ (default (8 # 10) (MatchColumns.similarityThreshold body)
                   <= MatchColumns.score m)%Q
                ∧ MatchColumns.file2AdditionalData m
                  = MatchColumns.collect
                      (default [] (MatchColumns.file2AdditionalColumns body))
                      (read r2)
          | None =>
              MatchColumns.file2Value m = VNull
              ∧ MatchColumns.file2AdditionalData m = ∅
          end.
Proof.
  intros H1 H2 Hc1 Hc2 Hn1 Hn2.
  destruct (match_POST_ok jw read body c1 c2 H1 H2 Hc1 Hc2 Hn1 Hn2)
    as (resp & HP & Hm & _).
  exists resp. split; [exact HP|]. intros i r m Hr Hmi.
  rewrite Hm, list_lookup_imap, Hr in Hmi. injection Hmi as <-.
  unfold MatchColumns.matchEntry, MatchColumns.makeMatch.
  cbn [MatchColumns.file1Value MatchColumns.file1AdditionalData
       MatchColumns.file2RowIndex MatchColumns.file2Value MatchColumns.score
       MatchColumns.file2AdditionalData].
  split; [reflexivity|]. split; [reflexivity|].
  destruct (MatchColumns.findBestMatch jw _ _ _ _) as [b|] eqn:E;
    cbn [option_map]; [|easy].
  apply findBestMatch_sound in E as (e & He & Hi & Hrow & Hsc & Hge).
  apply preprocess_lookup in He as (r2 & Hr2 & Her & Hv).
  exists r2. rewrite Hi, Hrow, Hsc, Her, Hv.
  repeat split; try reflexivity; [exact Hr2|].
  rewrite Hv in Hge. now apply geq_true in Hge.
Qed.

Lemma matched_entry_names_its_rows_witness :
  ∃ resp,
    MatchColumns.POST constantJaroWinkler id requestBlankSource = Ok resp
    ∧ ∀ i r m,
        MatchColumns.file1Data requestBlankSource !! i = Some r →
        MatchColumns.matches resp !! i = Some m →
        MatchColumns.file1Value m = get (id r) "v"
        ∧ MatchColumns.file1AdditionalData m
          = MatchColumns.collect
              (default [] (MatchColumns.file1AdditionalColumns requestBlankSource))
              (id r)
        ∧ match MatchColumns.file2RowIndex m with
          | Some k =>
              ∃ r2,
                MatchColumns.file2Data requestBlankSource !! k = Some r2
                ∧ MatchColumns.file2Value m = nullish (get (id r2) "v") VNull
                ∧ MatchColumns.score m
                  = MatchColumns.calculateSimilarity constantJaroWinkler
                      (MatchColumns.normalizeValue (get (id r) "v"))
                      (MatchColumns.normalizeValue (get (id r2) "v"))
                      (default Dice
                         (MatchColumns.similarityAlgorithm requestBlankSource))
                ∧ (default (8 # 10)
                     (MatchColumns.similarityThreshold requestBlankSource)
                   <= MatchColumns.score m)%Q
                ∧ MatchColumns.file2AdditionalData m
                  = MatchColumns.collect
                      (default []
                         (MatchColumns.file2AdditionalColumns requestBlankSource))
                      (id r2)
          | None =>
              MatchColumns.file2Value m = VNull
              ∧ MatchColumns.file2AdditionalData m = ∅
          end.
Proof.
  apply (matched_entry_names_its_rows constantJaroWinkler id requestBlankSource
           "v" "v"); (reflexivity || discriminate).
Defined.

(** X16. The two counters of the response count its entries:
    [matchedCount] is the number of entries with a row of the second file
    and [unmatchedCount] the number of entries without. *)
Theorem matched_count_counts_entries {A : Type} (jw : string → string → Q)
    (read : A → row) (body : MatchColumns.MatchRequest A)
    (resp : MatchColumns.MatchResponse (gmap string value)) :
  MatchColumns.POST jw read body = Ok resp →
  MatchColumns.matchedCount resp
  = length (filter isMatched (MatchColumns.matches resp))
  ∧ MatchColumns.unmatchedCount resp
    = length (filter (fun m => ¬ isMatched m) (MatchColumns.matches resp)).
Proof. apply match_POST_counted. Qed.

Lemma matched_count_counts_entries_witness :
  MatchColumns.matchedCount
    {| MatchColumns.matches :=
         [MatchColumns.matchEntry constantJaroWinkler id
            (MatchColumns.preprocess id "v" [rowV (VStr EmptyString)])
            "v" "v" [] [] 0 Levenshtein 0 (rowV (VStr "x"))];
       MatchColumns.totalFile1Rows := 1;
       MatchColumns.totalFile2Rows := 1;
       MatchColumns.matchedCount := 1;
       MatchColumns.unmatchedCount := 0 |}
  = length (filter isMatched
              [MatchColumns.matchEntry constantJaroWinkler id
                 (MatchColumns.preprocess id "v" [rowV (VStr EmptyString)])
                 "v" "v" [] [] 0 Levenshtein 0 (rowV (VStr "x"))])
  ∧ MatchColumns.unmatchedCount
      {| MatchColumns.matches :=
           [MatchColumns.matchEntry constantJaroWinkler id
              (MatchColumns.preprocess id "v" [rowV (VStr EmptyString)])
              "v" "v" [] [] 0 Levenshtein 0 (rowV (VStr "x"))];
         MatchColumns.totalFile1Rows := 1;
         MatchColumns.totalFile2Rows := 1;
         MatchColumns.matchedCount := 1;
         MatchColumns.unmatchedCount := 0 |}
    = length (filter (fun m => ¬ isMatched m)
                [MatchColumns.matchEntry constantJaroWinkler id
                   (MatchColumns.preprocess id "v" [rowV (VStr EmptyString)])
                   "v" "v" [] [] 0 Levenshtein 0 (rowV (VStr "x"))]).
Proof.
  apply (matched_count_counts_entries constantJaroWinkler id requestThresholdZero).
  reflexivity.
Defined.

(** X17. The object of additional data holds exactly the requested
    columns: each requested column with the cell of the row, [undefined]
    when the row lacks the column, and no other column. *)
Theorem additional_data_has_requested_columns (cols : list string) (r : row)
    (col : string) :
  MatchColumns.collect cols r !! col
  = if decide (col ∈ cols) then Some (get r col) else None.
Proof. apply collect_lookup. Qed.

(** ** The objects that the handlers allocate *)

Section AllocationFacts.
Import Store.

Lemma annotateAll_allocates (columns : list string) (rows : list nat) :
  ∀ h : gmap nat row,
    NoDup (annotateAll columns rows h).1
    ∧ (∀ l, l ∈ (annotateAll columns rows h).1 → l ∉ dom h)
    ∧ dom (annotateAll columns rows h).2
      = dom h ∪ list_to_set (annotateAll columns rows h).1
    ∧ length (annotateAll columns rows h).1 = length rows.
Proof.
  induction rows as [|r rows IH]; intros h; cbn [annotateAll].
  - cbn. repeat split; [apply NoDup_nil_2 | intros l Hl; inversion Hl |].
    now rewrite (right_id_L ∅ (∪)).
  - pose proof (alloc_fresh h (ProcessExcel.annotate columns (deref h r))) as Hf.
    assert (Hd : dom (alloc h (ProcessExcel.annotate columns (deref h r))).2
                 = {[ (alloc h (ProcessExcel.annotate columns (deref h r))).1 ]}
                   ∪ dom h).
    { unfold alloc. cbn [fst snd]. apply dom_insert_L. }
    destruct (alloc h _) as [l h1]. cbn [fst snd] in Hf, Hd.
    destruct (IH h1) as (Hnd & Hfresh & Hdom & Hlen).
    destruct (annotateAll columns rows h1) as [ls h2]. cbn [fst snd] in *.
    repeat split.
    + apply NoDup_cons. split; [|exact Hnd].
      intros Hin. apply (Hfresh l Hin). rewrite Hd.
      apply elem_of_union. left. now apply elem_of_singleton.
    + intros l' [-> | Hin]%elem_of_cons; [exact Hf|].
      intros Hl'. apply (Hfresh l' Hin). rewrite Hd. apply elem_of_union. now right.
    + rewrite Hdom, Hd. cbn [list_to_set foldr].
      now rewrite (comm_L (∪) {[l]} (dom h)), <- (assoc_L (∪)).
    + cbn. now rewrite Hlen.
Qed.

Variable jw : string → string → Q.
Variables (file2Values : list (MatchColumns.File2Entry nat)) (c1 c2 : string).
Variables (a1 a2 : list string) (t : Q) (alg : SimilarityAlgorithm).

(** The two objects of additional data that an iteration allocates are
    new and distinct, and no object disappears. *)
Lemma matchStep_allocates (i file1Row : nat) (st : MatchColumns.LoopState nat)
    (h : gmap nat row) :
  ∃ d1 d2,
    MatchColumns.st_matches
      (matchStep jw file2Values c1 c2 a1 a2 t alg i file1Row st h).1
    = MatchColumns.st_matches st
      ++ [MatchColumns.makeMatch
            (deref (matchStep jw file2Values c1 c2 a1 a2 t alg i file1Row st h).2)
            c1 c2 i file1Row
            (MatchColumns.findBestMatch jw
               (MatchColumns.normalizeValue (get (deref h file1Row) c1))
               file2Values t alg) d1 d2]
    ∧ (d1 ∉ dom h) ∧ (d2 ∉ dom h) ∧ d1 ≠ d2
    ∧ d1 ∈ dom (matchStep jw file2Values c1 c2 a1 a2 t alg i file1Row st h).2
    ∧ d2 ∈ dom (matchStep jw file2Values c1 c2 a1 a2 t alg i file1Row st h).2
    ∧ dom h ⊆ dom (matchStep jw file2Values c1 c2 a1 a2 t alg i file1Row st h).2.
Proof.
  unfold matchStep.
  pose proof (alloc_fresh h ∅) as Hf1.
  pose proof (alloc_lookup h ∅) as Hl1.
  pose proof (alloc_preserved h ∅) as Hp1.
  destruct (alloc h ∅) as [d1 h1]. cbn [fst snd] in Hf1, Hl1, Hp1.
  set (h2 := copyFields a1 file1Row d1 h1).
  assert (Hd1 : d1 ∈ dom h2).
  { apply copyFields_dom. apply elem_of_dom. exists ∅. exact Hl1. }
  assert (Hsub2 : dom h ⊆ dom h2).
  { intros l Hl. apply copyFields_dom. now apply (preserved_dom h h1). }
  pose proof (alloc_fresh h2 ∅) as Hf2.
  pose proof (alloc_lookup h2 ∅) as Hl2.
  pose proof (alloc_preserved h2 ∅) as Hp2.
  destruct (alloc h2 ∅) as [d2 h3]. cbn [fst snd] in Hf2, Hl2, Hp2.
  assert (Hsub3 : dom h2 ⊆ dom h3).
  { intros l Hl. now apply (preserved_dom h2 h3). }
  assert (Hd2 : d2 ∈ dom h3). { apply elem_of_dom. exists ∅. exact Hl2. }
  exists d1, d2. cbn [fst snd MatchColumns.pushMatch MatchColumns.st_matches].
  split; [reflexivity|].
  split; [exact Hf1|]. split; [intros Hin; apply Hf2, Hsub2, Hin|].
  split; [intros ->; now apply Hf2|].
  destruct (MatchColumns.findBestMatch jw _ file2Values t alg) as [b|].
  - repeat split.
    + apply copyFields_dom, Hsub3, Hd1.
    + apply copyFields_dom, Hd2.
    + intros l Hl. apply copyFields_dom, Hsub3, Hsub2, Hl.
  - repeat split; [apply Hsub3, Hd1 | exact Hd2 |].
    intros l Hl. apply Hsub3, Hsub2, Hl.
Qed.

Lemma matchLoop_allocates (h0 : gmap nat row) (rows : list nat) :
  ∀ (i : nat) (st : MatchColumns.LoopState nat) (h : gmap nat row),
    dom h0 ⊆ dom h →
    NoDup (additionalObjects (MatchColumns.st_matches st)) →
    (∀ l, l ∈ additionalObjects (MatchColumns.st_matches st) →
          l ∈ dom h ∧ l ∉ dom h0) →
    let res := matchLoop jw file2Values c1 c2 a1 a2 t alg rows i st h in
    NoDup (additionalObjects (MatchColumns.st_matches res.1))
    ∧ ∀ l, l ∈ additionalObjects (MatchColumns.st_matches res.1) →
           l ∈ dom res.2 ∧ l ∉ dom h0.
Proof.
  induction rows as [|r rows IH]; intros i st h Hsub Hnd Hin; [easy|].
  cbn [matchLoop].
  destruct (matchStep_allocates i r st h)
    as (d1 & d2 & Hm & Hf1 & Hf2 & Hne & Hd1 & Hd2 & Hdom).
  destruct (matchStep jw file2Values c1 c2 a1 a2 t alg i r st h) as [st1 h1].
  cbn [fst snd] in *.
  assert (Hobjs : additionalObjects (MatchColumns.st_matches st1)
                  = additionalObjects (MatchColumns.st_matches st) ++ [d1; d2]).
  { rewrite Hm. unfold additionalObjects. rewrite flat_map_app. cbn.
    reflexivity. }
  apply IH.
  - etrans; [exact Hsub | exact Hdom].
  - rewrite Hobjs. apply NoDup_app. split; [exact Hnd|]. split.
    + intros l Hl [-> | [-> | Hl']%elem_of_cons]%elem_of_cons.
      * now apply Hf1, Hin.
      * now apply Hf2, Hin.
      * inversion Hl'.
    + apply NoDup_cons. split; [|apply NoDup_singleton].
      now intros ->%list_elem_of_singleton.
  - intros l. rewrite Hobjs.
    intros [Hl | [-> | [-> | Hl]%elem_of_cons]%elem_of_cons]%elem_of_app.
    + split; [apply Hdom; now apply Hin | now apply Hin].
    + split; [exact Hd1 | intros H0; apply Hf1, Hsub, H0].
    + split; [exact Hd2 | intros H0; apply Hf2, Hsub, H0].
    + inversion Hl.
Qed.

End AllocationFacts.

(** X18. The deduplication handler allocates one new object for each row
    of [uniqueRows] and nothing else: the rows of the response are pairwise
    distinct objects that did not exist before the call, the objects after
    the call are those before it and these, and an error response allocates
    nothing. *)
Theorem response_rows_are_new_objects (jw : string → string → Q)
    (h : gmap nat row) (body : ProcessExcel.ProcessRequest nat) :
  match (Store.POST_processExcel jw h body).1 with
  | Ok resp =>
      NoDup (ProcessExcel.resp_uniqueRows resp)
      ∧ (∀ l, l ∈ ProcessExcel.resp_uniqueRows resp → l ∉ dom h)
      ∧ dom (Store.POST_processExcel jw h body).2
        = dom h ∪ list_to_set (ProcessExcel.resp_uniqueRows resp)
  | Error _ _ => (Store.POST_processExcel jw h body).2 = h
  end.
Proof.
  unfold Store.POST_processExcel.
  destruct (length (ProcessExcel.data body) =? 0)%nat; [reflexivity|].
  destruct (length (ProcessExcel.columns body) =? 0)%nat; [reflexivity|].
  match goal with
  | |- context [Store.annotateAll ?c ?rows h] =>
      destruct (annotateAll_allocates c rows h) as (Hnd & Hf & Hd & _);
      destruct (Store.annotateAll c rows h) as [ls h']
  end.
  cbn [fst snd ProcessExcel.resp_uniqueRows] in *. easy.
Qed.

(** X19. The cross-file handler gives every entry two objects of
    additional data of its own: over the whole response these objects are
    pairwise distinct, none of them existed before the call, and all of them
    exist after it; an error response allocates nothing. *)
Theorem additional_data_objects_are_unshared (jw : string → string → Q)
    (h : gmap nat row) (body : MatchColumns.MatchRequest nat) :
  match (Store.POST_matchColumns jw h body).1 with
  | Ok resp =>
      NoDup (additionalObjects (MatchColumns.matches resp))
      ∧ ∀ l, l ∈ additionalObjects (MatchColumns.matches resp) →
             l ∈ dom (Store.POST_matchColumns jw h body).2 ∧ l ∉ dom h
  | Error _ _ => (Store.POST_matchColumns jw h body).2 = h
  end.
Proof.
  unfold Store.POST_matchColumns.
  destruct (length (MatchColumns.file1Data body) =? 0)%nat; [reflexivity|].
  destruct (length (MatchColumns.file2Data body) =? 0)%nat; [reflexivity|].
  destruct (MatchColumns.file1Column body) as [c1|]; [|reflexivity].
  destruct (MatchColumns.file2Column body) as [c2|]; [|reflexivity].
  destruct (falsy c1 || falsy c2); [reflexivity|].
  match goal with
  | |- context [Store.matchLoop jw ?f ?a ?b ?c ?d ?e ?g ?rows 0 ?st h] =>
      pose proof (matchLoop_allocates jw f a b c d e g h rows 0 st h) as Ha;
      destruct (Store.matchLoop jw f a b c d e g rows 0 st h) as [st' h']
  end.
  cbn [fst snd MatchColumns.matches] in *.
  apply Ha; [reflexivity | apply NoDup_nil_2 |].
  intros l Hl. inversion Hl.
Qed.

(** ** The page: slice inputs, selection and export *)

Section PageFacts.
Import ProcessExcel.

Context {A : Type}.

Lemma removeLoop_bound (l kept : list A) (reports : list DuplicateInfo)
    (selected : gset nat) (i : nat) :
  splitsRows l kept reports →
  i ∈ Page.removeLoop reports 0 selected ∅ → (i < length l)%nat.
Proof.
  intros Hs [Hi | (k & rep & Hk & _ & <-)]%removeLoop_spec;
    [now apply not_elem_of_empty in Hi|].
  pose proof (splitsRows_bound _ _ _ Hs) as Hb. rewrite Forall_forall in Hb.
  apply Hb. eapply list_elem_of_lookup_2, Hk.
Qed.

Lemma removeLoop_snoc_old (reports : list DuplicateInfo) (rep : DuplicateInfo)
    (selected : gset nat) (i : nat) :
  i ≠ duplicateIndex rep →
  i ∈ Page.removeLoop (reports ++ [rep]) 0 selected ∅
  ↔ i ∈ Page.removeLoop reports 0 selected ∅.
Proof.
  intros Hne. rewrite !removeLoop_spec. split.
  - intros [Hi | (k & rep' & Hk & Hsel & Hd)]; [now left|]. right.
    apply lookup_snoc_Some in Hk as [[_ Hk] | [_ ->]]; [|now subst].
    now exists k, rep'.
  - intros [Hi | (k & rep' & Hk & Hsel & Hd)]; [now left|]. right.
    exists k, rep'. split; [|easy].
    rewrite lookup_app_l; [exact Hk | now apply lookup_lt_Some in Hk].
Qed.

Lemma removeLoop_snoc_new (l kept : list A) (reports : list DuplicateInfo)
    (rep : DuplicateInfo) (selected : gset nat) :
  splitsRows l kept reports → duplicateIndex rep = length l →
  duplicateIndex rep ∈ Page.removeLoop (reports ++ [rep]) 0 selected ∅
  ↔ length reports ∈ selected.
Proof.
  intros Hs Hrep. rewrite removeLoop_spec. split.
  - intros [Hi | (k & rep' & Hk & Hsel & Hd)]; [now apply not_elem_of_empty in Hi|].
    apply lookup_snoc_Some in Hk as [[_ Hk] | [-> _]]; [|exact Hsel].
    exfalso. pose proof (splitsRows_bound _ _ _ Hs) as Hb.
    rewrite Forall_forall in Hb. apply list_elem_of_lookup_2 in Hk.
    specialize (Hb rep' Hk). cbn in Hb. lia.
  - intros Hsel. right. exists (length reports), rep.
    split; [now apply list_lookup_middle | easy].
Qed.

Lemma selected_reports_snoc (reports : list DuplicateInfo) (rep : DuplicateInfo)
    (selected : gset nat) :
  size (selected ∩ Page.allDuplicateIndexes (reports ++ [rep]))
  = (size (selected ∩ Page.allDuplicateIndexes reports)
     + if decide (length reports ∈ selected) then 1 else 0)%nat.
Proof.
  assert (Hsplit : selected ∩ Page.allDuplicateIndexes (reports ++ [rep])
                   = (selected ∩ Page.allDuplicateIndexes reports)
                     ∪ (if decide (length reports ∈ selected)
                        then {[ length reports ]} else ∅)).
  { apply set_eq. intros k.
    rewrite elem_of_union, !elem_of_intersection, !allDuplicateIndexes_spec,
      length_app. cbn [length].
    destruct (decide (length reports ∈ selected)) as [Hin|Hnin].
    - rewrite elem_of_singleton. split.
      + intros [Hk Hlt]. destruct (decide (k = length reports)); [now right|].
        left. split; [exact Hk | lia].
      + intros [[Hk Hlt] | ->]; (split; [assumption | lia]).
    - split.
      + intros [Hk Hlt]. left. split; [exact Hk|].
        destruct (decide (k = length reports)) as [-> |]; [contradiction | lia].
      + intros [[Hk Hlt] | Hk]; [split; [assumption | lia]|].
        now apply not_elem_of_empty in Hk. }
  rewrite Hsplit. rewrite size_union.
  - destruct (decide _); [now rewrite size_singleton | now rewrite size_empty].
  - intros k [_ Hk]%elem_of_intersection Hk'.
    apply allDuplicateIndexes_spec in Hk.
    destruct (decide _); [apply elem_of_singleton in Hk'; lia|].
    now apply not_elem_of_empty in Hk'.
Qed.

(** Each selected report takes exactly one row out of the export. *)
Lemma splitsRows_export_length (l kept : list A) (reports : list DuplicateInfo)
    (selected : gset nat) :
  splitsRows l kept reports →
  (length (Page.filterIndex
             (fun index =>
                bool_decide (index ∉ Page.removeLoop reports 0 selected ∅)) l 0)
   + size (selected ∩ Page.allDuplicateIndexes reports) = length l)%nat.
Proof.
  induction 1 as [|l kept reports r Hs IH|l kept reports r rep Hs IH Hrep].
  - cbn [Page.filterIndex length Nat.add].
    assert (selected ∩ Page.allDuplicateIndexes [] = ∅) as ->;
      [|now rewrite size_empty].
    apply set_eq. intros k. rewrite elem_of_intersection, allDuplicateIndexes_spec.
    cbn. split; [lia | intros Hk; now apply not_elem_of_empty in Hk].
  - rewrite filterIndex_app, !length_app. cbn [Page.filterIndex Nat.add].
    rewrite bool_decide_eq_true_2; [cbn; lia|].
    intros Hin. apply (removeLoop_bound _ _ _ _ _ Hs) in Hin. lia.
  - rewrite filterIndex_app, !length_app, selected_reports_snoc.
    rewrite (filterIndex_ext _
               (fun index =>
                  bool_decide (index ∉ Page.removeLoop reports 0 selected ∅))).
    + cbn [Page.filterIndex Nat.add]. rewrite <- Hrep.
      pose proof (removeLoop_snoc_new l kept reports rep selected Hs Hrep) as Hnew.
      destruct (decide (length reports ∈ selected)) as [Hin|Hnin].
      * rewrite bool_decide_eq_false_2 by (intros Hn; now apply Hn, Hnew).
        cbn. lia.
      * rewrite bool_decide_eq_true_2 by (intros Hn; now apply Hnin, Hnew).
        cbn. lia.
    + intros k Hk. apply bool_decide_ext.
      rewrite removeLoop_snoc_old; [reflexivity | lia].
Qed.

End PageFacts.

(** X20. The two numeric inputs of the slice keep the slice inside the
    sheet: on a sheet with rows the start is clamped to an index of a row
    and the end, when given, to a count between 1 and the number of rows,
    whatever is typed; and the number of rows shown by the performance
    warning, when positive, is the number of rows that the handler
    processes. *)
Theorem slice_inputs_stay_in_range {A : Type} (originalData : list A)
    (startText endText : Page.ParseInt) (endEmpty : bool) :
  originalData ≠ [] →
  let totalRows := Z.of_nat (length originalData) in
  let sliceStart := Page.onSliceStartChange totalRows startText in
  let sliceEnd := Page.onSliceEndChange totalRows endEmpty endText in
  (0 <= sliceStart < totalRows)%Z
  ∧ (∀ e, sliceEnd = Some e → 1 <= e <= totalRows)%Z
  ∧ (endEmpty = true → sliceEnd = None)
  ∧ Z.of_nat (length (slice originalData sliceStart (default totalRows sliceEnd)))
    = Z.max 0 (Page.rowCount totalRows sliceStart sliceEnd).
Proof.
  intros Hne totalRows sliceStart sliceEnd.
  assert (Hpos : (0 < totalRows)%Z).
  { subst totalRows. destruct originalData; [congruence | cbn; lia]. }
  assert (Hstart : (0 <= sliceStart < totalRows)%Z).
  { subst sliceStart. unfold Page.onSliceStartChange.
    rewrite (proj2 (Z.ltb_lt _ _) Hpos). lia. }
  assert (Hend : ∀ e, sliceEnd = Some e → (1 <= e <= totalRows)%Z).
  { subst sliceEnd. unfold Page.onSliceEndChange.
    destruct endEmpty; [discriminate|].
    rewrite (proj2 (Z.ltb_lt _ _) Hpos). intros e [= <-]. lia. }
  split; [exact Hstart|]. split; [exact Hend|].
  split; [now intros ->|].
  unfold Page.rowCount, slice. fold totalRows.
  assert (Hd : (1 <= default totalRows sliceEnd <= totalRows)%Z).
  { destruct sliceEnd as [e|]; cbn; [now apply Hend | lia]. }
  destruct (Z.ltb_spec sliceStart 0); [lia|].
  destruct (Z.ltb_spec (default totalRows sliceEnd) 0); [lia|].
  rewrite length_take, length_drop. subst totalRows. lia.
Qed.

Lemma slice_inputs_stay_in_range_witness :
  let totalRows := Z.of_nat (length sampleRows) in
  let sliceStart := Page.onSliceStartChange totalRows (Page.Parsed 9) in
  let sliceEnd := Page.onSliceEndChange totalRows false Page.NaN in
  (0 <= sliceStart < totalRows)%Z
  ∧ (∀ e, sliceEnd = Some e → 1 <= e <= totalRows)%Z
  ∧ (false = true → sliceEnd = None)
  ∧ Z.of_nat (length (slice sampleRows sliceStart (default totalRows sliceEnd)))
    = Z.max 0 (Page.rowCount totalRows sliceStart sliceEnd).
Proof.
  apply (slice_inputs_stay_in_range sampleRows (Page.Parsed 9) Page.NaN false).
  discriminate.
Defined.

(** X21. Each selected report takes exactly one row out of the export:
    the exported rows and the selected reports together are as many as the
    processed rows, in both modes and for any selection. *)
Theorem each_selected_report_removes_one_row {A : Type}
    (jw : string → string → Q) (read : A → row) (data : list A)
    (columns : list string) (mode : ComparisonMode) (t : Q)
    (alg : SimilarityAlgorithm) (sliceStart : Z) (sliceEnd : option Z)
    (selected : gset nat) :
  let processed :=
    slice data sliceStart (default (Z.of_nat (length data)) sliceEnd) in
  let reports :=
    ProcessExcel.duplicatesFound
      (ProcessExcel.removeDuplicateRows jw read processed columns mode t alg) in
  (length (Page.filteredData data sliceStart sliceEnd reports selected)
   + size (selected ∩ Page.allDuplicateIndexes reports) = length processed)%nat.
Proof.
  intros processed reports. unfold Page.filteredData. fold processed.
  apply (splitsRows_export_length processed
           (ProcessExcel.uniqueRows
              (ProcessExcel.removeDuplicateRows jw read processed columns mode t alg))
           reports selected).
  apply removeDuplicateRows_splits.
Qed.

(** X22. Ticking the box of a report twice leaves the selection as it
    was, and ticking it once changes the selection at that report only. *)
Theorem toggle_twice_is_identity (selected : gset nat) (index k : nat) :
  Page.handleDuplicateToggle (Page.handleDuplicateToggle selected index) index
  = selected
  ∧ (k ∈ Page.handleDuplicateToggle selected index
     ↔ if decide (k = index) then k ∉ selected else k ∈ selected).
Proof.
  unfold Page.handleDuplicateToggle. split.
  - destruct (decide (index ∈ selected)) as [Hin|Hnin].
    + rewrite decide_False by (intros [_ Hn]%elem_of_difference;
                               now apply Hn, elem_of_singleton).
      apply set_eq. intros j.
      rewrite elem_of_union, elem_of_singleton, elem_of_difference,
        elem_of_singleton.
      destruct (decide (j = index)) as [-> |]; tauto.
    + rewrite decide_True by (apply elem_of_union; left; now apply elem_of_singleton).
      apply set_eq. intros j.
      rewrite elem_of_difference, elem_of_union, !elem_of_singleton.
      destruct (decide (j = index)) as [-> |]; tauto.
  - destruct (decide (index ∈ selected)) as [Hin|Hnin];
      destruct (decide (k = index)) as [-> | Hne];
      rewrite ?elem_of_difference, ?elem_of_union, ?elem_of_singleton; tauto.
Qed.

(** ** Distinct signatures *)

Section DistinctFacts.
Import ProcessExcel.

Context {A : Type}.
Variable read : A → row.
Variable columns : list string.

(** What the exact reducer keeps: one row for each signature. *)
Lemma exact_kept (l : list A) :
  let kept := ex_uniqueRows (exactLoop read columns l 0 exactInit) in
  NoDup (map (fun r => createSignature (read r) columns) kept)
  ∧ (∀ r, r ∈ kept → r ∈ l)
  ∧ ∀ r, r ∈ l → ∃ r', r' ∈ kept
                       ∧ createSignature (read r') columns
                         = createSignature (read r) columns.
Proof.
  induction l as [|r l (Hnd & Hin & Hcov)] using rev_ind.
  - cbn. split; [apply NoDup_nil_2|]. split; intros r Hr; inversion Hr.
  - cbn zeta in *. rewrite exactLoop_snoc. unfold exactStep.
    pose proof (exactInv_loop read columns l) as Hinv.
    destruct (seen _ !! createSignature (read r) columns) as [first|] eqn:E;
      cbn [ex_uniqueRows].
    + split; [exact Hnd|]. split.
      * intros r0 Hr0. apply elem_of_app. left. now apply Hin.
      * intros r0 [Hr0 | ->%list_elem_of_singleton]%elem_of_app;
          [now apply Hcov|].
        destruct (seen_first _ _ _ _ Hinv _ _ E) as (r1 & Hj & Hs1).
        apply list_elem_of_lookup_2 in Hj.
        destruct (Hcov r1 Hj) as (r' & Hr' & Hs'). exists r'.
        split; [exact Hr' | congruence].
    + split; [|split].
      * rewrite map_app. apply NoDup_app. split; [exact Hnd|]. split.
        -- intros s (r' & -> & Hr')%list_elem_of_fmap Hs%list_elem_of_singleton.
           apply Hin, list_elem_of_lookup in Hr' as [j Hj].
           exact (seen_none _ _ _ _ Hinv _ E j r' Hj Hs).
        -- apply NoDup_singleton.
      * intros r0 [Hr0 | Hr0]%elem_of_app; apply elem_of_app;
          [left; now apply Hin | now right].
      * intros r0 [Hr0 | ->%list_elem_of_singleton]%elem_of_app.
        -- destruct (Hcov r0 Hr0) as (r' & Hr' & Hs'). exists r'.
           split; [apply elem_of_app; now left | exact Hs'].
        -- exists r. split; [|reflexivity]. apply elem_of_app. right.
           now apply list_elem_of_singleton.
Qed.

End DistinctFacts.

(** X23. Exact mode keeps as many rows as there are distinct signatures:
    no two kept rows have the same signature, and the signatures of the kept
    rows are the signatures of the processed rows. *)
Theorem exact_mode_counts_distinct_signatures {A : Type} (read : A → row)
    (data : list A) (columns : list string) :
  let sig := fun r => ProcessExcel.createSignature (read r) columns in
  let kept :=
    ProcessExcel.uniqueRows (ProcessExcel.removeExactDuplicates read data columns) in
  NoDup (map sig kept)
  ∧ (list_to_set (map sig kept) : gset string) = list_to_set (map sig data)
  ∧ length kept = size (list_to_set (map sig data) : gset string).
Proof.
  intros sig kept.
  destruct (exact_kept read columns data) as (Hnd & Hin & Hcov).
  fold kept in Hnd, Hin, Hcov. fold sig in Hnd.
  assert (Hset : (list_to_set (map sig kept) : gset string)
                 = list_to_set (map sig data)).
  { apply set_eq. intros s. rewrite !elem_of_list_to_set, !list_elem_of_fmap. split.
    - intros (r & -> & Hr). exists r. split; [reflexivity | now apply Hin].
    - intros (r & -> & Hr). destruct (Hcov r Hr) as (r' & Hr' & Hs').
      exists r'. split; [now symmetry | exact Hr']. }
  split; [exact Hnd|]. split; [exact Hset|].
  rewrite <- Hset, size_list_to_set by exact Hnd. now rewrite length_map.
Qed.


(** ** Reports and the slice *)

Section SliceReports.

Lemma slice_lookup {A : Type} (l : list A) (start end_ : Z) (i : nat) (x : A) :
  (0 <= start)%Z →
  slice l start end_ !! i = Some x →
  l !! (Z.to_nat start + i)%nat = Some x.
Proof.
  intros Hs. unfold slice.
  destruct (Z.ltb_spec start 0) as [|_]; [lia|].
  intros [Hx _]%lookup_take_Some. rewrite lookup_drop in Hx.
  apply lookup_lt_Some in Hx as Hlt.
  replace (Z.to_nat start + i)%nat
    with (Z.to_nat (Z.min start (Z.of_nat (length l))) + i)%nat by lia.
  exact Hx.
Qed.

End SliceReports.

(** X26. The indices of a report are relative to the slice: in both
    modes, with a slice that starts at a row [s] of the sheet, a report
    names the rows [s + originalIndex] and [s + duplicateIndex] of the sheet,
    the first before the second, and carries their signatures. *)
Theorem report_indexes_are_relative_to_slice {A : Type}
    (jw : string → string → Q) (read : A → row)
    (body : ProcessExcel.ProcessRequest A) :
  ProcessExcel.data body ≠ [] →
  ProcessExcel.columns body ≠ [] →
  (0 <= default 0 (ProcessExcel.sliceStart body))%Z →
  let s := Z.to_nat (default 0%Z (ProcessExcel.sliceStart body)) in
  ∃ resp,
    ProcessExcel.POST jw read body = Ok resp
    ∧ Forall (fun rep =>
                ∃ r1 r2,
                  ProcessExcel.data body !! (s + ProcessExcel.originalIndex rep)%nat
                  = Some r1
                  ∧ ProcessExcel.data body !! (s + ProcessExcel.duplicateIndex rep)%nat
                    = Some r2
                  ∧ (ProcessExcel.originalIndex rep
                     < ProcessExcel.duplicateIndex rep)%nat
                  ∧ ProcessExcel.original rep
                    = ProcessExcel.createSignature (read r1)
                        (ProcessExcel.columns body)
                  ∧ ProcessExcel.duplicate rep
                    = ProcessExcel.createSignature (read r2)
                        (ProcessExcel.columns body))
        (ProcessExcel.resp_duplicatesFound resp).
Proof.
  intros Hd Hc Hs s.
  destruct (process_POST_ok jw read body Hd Hc) as (resp & HP & _ & Hdups & _).
  exists resp. split; [exact HP|]. rewrite Hdups.
  destruct (default Fuzzy (ProcessExcel.comparisonMode body));
    cbn [ProcessExcel.removeDuplicateRows].
  - eapply Forall_impl; [apply exact_reports|].
    intros rep (r1 & r2 & H1 & H2 & Hlt & _ & Ho & Hdup & _).
    exists r1, r2. unfold processedRows in H1, H2.
    repeat split; try assumption; subst s; eapply slice_lookup; eassumption.
  - eapply Forall_impl; [apply fuzzy_reports|].
    intros rep (r1 & r2 & H1 & H2 & Hlt & _ & Ho & Hdup & _).
    exists r1, r2. unfold processedRows in H1, H2.
    repeat split; try assumption; subst s; eapply slice_lookup; eassumption.
Qed.

Lemma report_indexes_are_relative_to_slice_witness :
  let s := Z.to_nat (default 0%Z (ProcessExcel.sliceStart sampleSlicedRequest)) in
  ∃ resp,
    ProcessExcel.POST constantJaroWinkler id sampleSlicedRequest = Ok resp
    ∧ Forall (fun rep =>
                ∃ r1 r2,
                  ProcessExcel.data sampleSlicedRequest
                    !! (s + ProcessExcel.originalIndex rep)%nat
                  = Some r1
                  ∧ ProcessExcel.data sampleSlicedRequest
                      !! (s + ProcessExcel.duplicateIndex rep)%nat
                    = Some r2
                  ∧ (ProcessExcel.originalIndex rep
                     < ProcessExcel.duplicateIndex rep)%nat
                  ∧ ProcessExcel.original rep
                    = ProcessExcel.createSignature (id r1)
                        (ProcessExcel.columns sampleSlicedRequest)
                  ∧ ProcessExcel.duplicate rep
                    = ProcessExcel.createSignature (id r2)
                        (ProcessExcel.columns sampleSlicedRequest))
        (ProcessExcel.resp_duplicatesFound resp).
Proof.
  apply (report_indexes_are_relative_to_slice constantJaroWinkler id
           sampleSlicedRequest); [discriminate | discriminate | cbn; lia].
Defined.

(** ** Deduplicating twice *)

Section TwiceFacts.
Import ProcessExcel.

Context {A : Type}.
Variable jw : string → string → Q.
Variable read : A → row.
Variable columns : list string.
Variables (threshold : Q) (alg : SimilarityAlgorithm).

(** The exact reducer keeps every row of a list without repeated
    signature. *)
Lemma exact_keeps_distinct (l : list A) :
  NoDup (map (fun r => createSignature (read r) columns) l) →
  ex_uniqueRows (exactLoop read columns l 0 exactInit) = l
  ∧ ex_duplicatesFound (exactLoop read columns l 0 exactInit) = [].
Proof.
  induction l as [|r l IH] using rev_ind; intros Hnd; [easy|].
  rewrite map_app in Hnd. apply NoDup_app in Hnd as (Hnd & Hnew & _).
  destruct (IH Hnd) as [Hrows Hreps].
  rewrite exactLoop_snoc. unfold exactStep.
  pose proof (exactInv_loop read columns l) as Hinv.
  destruct (seen _ !! createSignature (read r) columns) as [first|] eqn:E;
    cbn [ex_uniqueRows ex_duplicatesFound].
  - exfalso. destruct (seen_first _ _ _ _ Hinv _ _ E) as (r1 & Hj & Hs1).
    apply (Hnew (createSignature (read r) columns)).
    + apply list_elem_of_fmap. exists r1. split; [now symmetry|].
      eapply list_elem_of_lookup_2, Hj.
    + now apply list_elem_of_singleton.
  - now rewrite Hrows, Hreps.
Qed.

(** The fuzzy reducer keeps every row of a list whose rows score below the
    threshold against the rows before them. *)
Lemma fuzzy_keeps_apart (l : list A) :
  (∀ a b ra rb, (a < b)%nat → l !! a = Some ra → l !! b = Some rb →
     (calculateSimilarity jw (createSignature (read rb) columns)
        (createSignature (read ra) columns) alg < threshold)%Q) →
  fz_uniqueRows (fuzzyLoop jw read columns threshold alg l 0 fuzzyInit) = l
  ∧ fz_duplicatesFound (fuzzyLoop jw read columns threshold alg l 0 fuzzyInit) = [].
Proof.
  induction l as [|r l IH] using rev_ind; intros Hapart; [easy|].
  destruct IH as [Hrows Hreps].
  { intros a b ra rb Hab Ha Hb. apply (Hapart a b ra rb Hab).
    - rewrite lookup_app_l; [exact Ha | now apply lookup_lt_Some in Ha].
    - rewrite lookup_app_l; [exact Hb | now apply lookup_lt_Some in Hb]. }
  rewrite fuzzyLoop_snoc. unfold fuzzyStep.
  pose proof (findSimilarMatch_spec jw threshold alg
                (createSignature (read r) columns)
                (uniqueSignatures
                   (fuzzyLoop jw read columns threshold alg l 0 fuzzyInit)))
    as Hbest.
  pose proof (fuzzy_accepted_rows jw threshold alg read columns l) as Hacc.
  rewrite Hrows in Hacc.
  destruct (findSimilarMatch jw _ _ _ _) as [m|];
    cbn [fz_uniqueRows fz_duplicatesFound].
  - exfalso. destruct Hbest as (k & e & (Hk & Hge & _) & _).
    destruct (Forall2_lookup_l _ _ _ _ _ Hacc Hk) as (rk & Hrk & Hs & _).
    apply (Qlt_not_le _ _ (Hapart k (length l) rk r
                             (lookup_lt_Some _ _ _ Hrk)
                             (lookup_app_l_Some _ _ _ _ Hrk)
                             (list_lookup_middle _ _ _ _ eq_refl))).
    rewrite <- Hs. exact Hge.
  - now rewrite Hrows, Hreps.
Qed.

End TwiceFacts.

(** X27. Deduplicating twice changes nothing: in both modes, the reducer
    run on the rows it has kept keeps them all, in order, and reports
    nothing. *)
Theorem deduplication_is_idempotent {A : Type} (jw : string → string → Q)
    (read : A → row) (data : list A) (columns : list string)
    (mode : ComparisonMode) (threshold : Q) (alg : SimilarityAlgorithm) :
  let kept :=
    ProcessExcel.uniqueRows
      (ProcessExcel.removeDuplicateRows jw read data columns mode threshold alg) in
  ProcessExcel.removeDuplicateRows jw read kept columns mode threshold alg
  = {| ProcessExcel.uniqueRows := kept; ProcessExcel.duplicatesFound := [] |}.
Proof.
  destruct mode; cbn [ProcessExcel.removeDuplicateRows].
  - unfold ProcessExcel.removeExactDuplicates. cbn [ProcessExcel.uniqueRows].
    destruct (exact_kept read columns data) as (Hnd & _).
    destruct (exact_keeps_distinct read columns _ Hnd) as [-> ->]. reflexivity.
  - unfold ProcessExcel.removeFuzzyDuplicates. cbn [ProcessExcel.uniqueRows].
    destruct (fuzzy_keeps_apart jw read columns threshold alg _
                (fuzzy_accepted_apart read columns jw threshold alg data))
      as [-> ->].
    reflexivity.
Qed.

(** ** Matching the first file in parts *)

Section PartsFacts.
Import MatchColumns.

Context {A : Type}.
Variable jw : string → string → Q.
Variable read : A → row.

(** An answered request has rows in both files and two named columns, and
    its response is made by the main loop. *)
Lemma match_POST_inv (body : MatchRequest A)
    (resp : MatchResponse (gmap string JS.value)) :
  POST jw read body = Ok resp →
  ∃ c1 c2,
    file1Data body ≠ [] ∧ file2Data body ≠ []
    ∧ file1Column body = Some c1 ∧ file2Column body = Some c2
    ∧ c1 ≠ EmptyString ∧ c2 ≠ EmptyString
    ∧ matches resp
      = imap (matchEntry jw read (preprocess read c2 (file2Data body)) c1 c2
                (default [] (file1AdditionalColumns body))
                (default [] (file2AdditionalColumns body))
                (default (8 # 10)%Q (similarityThreshold body))
                (default Dice (similarityAlgorithm body)))
             (file1Data body)
    ∧ totalFile1Rows resp = length (file1Data body)
    ∧ totalFile2Rows resp = length (file2Data body)
    ∧ matchedCount resp = length (filter isMatched (matches resp))
    ∧ unmatchedCount resp
      = length (filter (fun m => ¬ isMatched m) (matches resp)).
Proof.
  intros HP. destruct (match_POST_counted jw read body resp HP) as [Hmc Huc].
  assert (Hshape : ∃ c1 c2,
             file1Data body ≠ [] ∧ file2Data body ≠ []
             ∧ file1Column body = Some c1 ∧ file2Column body = Some c2
             ∧ c1 ≠ EmptyString ∧ c2 ≠ EmptyString).
  { unfold POST in HP.
    destruct (file1Data body) as [|r1 rows1]; [discriminate|].
    destruct (file2Data body) as [|r2 rows2]; [discriminate|].
    destruct (file1Column body) as [[|x1 c1]|]; try discriminate;
      destruct (file2Column body) as [[|x2 c2]|]; try discriminate.
    exists (String x1 c1), (String x2 c2). repeat split; discriminate. }
  destruct Hshape as (c1 & c2 & H1 & H2 & Hc1 & Hc2 & Hn1 & Hn2).
  destruct (match_POST_ok jw read body c1 c2 H1 H2 Hc1 Hc2 Hn1 Hn2)
    as (resp' & HP' & Hm & Ht1 & Ht2 & _).
  assert (resp' = resp) as -> by congruence.
  exists c1, c2. repeat split; assumption.
Qed.

Lemma matchEntry_shift (file2Values : list (File2Entry A)) (c1 c2 : string)
    (a1 a2 : list string) (t : Q) (alg : SimilarityAlgorithm) (n i : nat) (r : A) :
  matchEntry jw read file2Values c1 c2 a1 a2 t alg (n + i) r
  = shiftIndex n (matchEntry jw read file2Values c1 c2 a1 a2 t alg i r).
Proof. reflexivity. Qed.

Lemma filter_isMatched_shift {D : Type} (n : nat) (ms : list (MatchResult D)) :
  length (filter isMatched (map (shiftIndex n) ms))
  = length (filter isMatched ms)
  ∧ length (filter (fun m => ¬ isMatched m) (map (shiftIndex n) ms))
    = length (filter (fun m => ¬ isMatched m) ms).
Proof.
  induction ms as [|m ms [IH1 IH2]]; [easy|]. cbn [map].
  destruct (decide (isMatched m)) as [Hm|Hm].
  - rewrite !(filter_cons_True isMatched) by exact Hm.
    rewrite !(filter_cons_False (fun m => ¬ isMatched m)) by tauto.
    cbn. now rewrite IH1, IH2.
  - rewrite !(filter_cons_False isMatched) by exact Hm.
    rewrite !(filter_cons_True (fun m => ¬ isMatched m)) by exact Hm.
    cbn. now rewrite IH1, IH2.
Qed.

End PartsFacts.

(** X28. The rows of the first file are matched one by one, so the first
    file can be sent in parts: when both parts are answered, the whole is
    answered with the entries of the first part followed by those of the
    second, these with their row index moved by the size of the first part,
    and each counter is the sum of the counters of the parts. *)
Theorem first_file_can_be_matched_in_parts {A : Type}
    (jw : string → string → Q) (read : A → row)
    (body : MatchColumns.MatchRequest A) (part1 part2 : list A)
    (resp1 resp2 : MatchColumns.MatchResponse (gmap string value)) :
  MatchColumns.file1Data body = part1 ++ part2 →
  MatchColumns.POST jw read (withFile1 body part1) = Ok resp1 →
  MatchColumns.POST jw read (withFile1 body part2) = Ok resp2 →
  ∃ resp,
    MatchColumns.POST jw read body = Ok resp
    ∧ MatchColumns.matches resp
      = MatchColumns.matches resp1
        ++ map (shiftIndex (length part1)) (MatchColumns.matches resp2)
    ∧ MatchColumns.totalFile1Rows resp
      = (MatchColumns.totalFile1Rows resp1 + MatchColumns.totalFile1Rows resp2)%nat
    ∧ MatchColumns.matchedCount resp
      = (MatchColumns.matchedCount resp1 + MatchColumns.matchedCount resp2)%nat
    ∧ MatchColumns.unmatchedCount resp
      = (MatchColumns.unmatchedCount resp1 + MatchColumns.unmatchedCount resp2)%nat.
Proof.
  intros Hparts H1 H2.
  apply match_POST_inv in H1
    as (c1 & c2 & Hp1 & Hf2 & Hc1 & Hc2 & Hn1 & Hn2 & Hm1 & Ht1 & _ & Hmc1 & Huc1).
  apply match_POST_inv in H2
    as (c1' & c2' & Hp2 & _ & Hc1' & Hc2' & _ & _ & Hm2 & Ht2 & _ & Hmc2 & Huc2).
  cbn [withFile1 MatchColumns.file1Data MatchColumns.file2Data
       MatchColumns.file1Column MatchColumns.file2Column
       MatchColumns.file1AdditionalColumns MatchColumns.file2AdditionalColumns
       MatchColumns.similarityThreshold MatchColumns.similarityAlgorithm] in *.
  assert (c1' = c1) as -> by congruence. assert (c2' = c2) as -> by congruence.
  assert (Hne : MatchColumns.file1Data body ≠ []).
  { rewrite Hparts. destruct part1; [congruence | discriminate]. }
  destruct (match_POST_ok jw read body c1 c2 Hne Hf2 Hc1 Hc2 Hn1 Hn2)
    as (resp & HP & Hm & Ht & _).
  apply match_POST_inv in HP as HP'.
  destruct HP' as (_ & _ & _ & _ & _ & _ & _ & _ & _ & _ & _ & Hmc & Huc).
  assert (Hmatches : MatchColumns.matches resp
                     = MatchColumns.matches resp1
                       ++ map (shiftIndex (length part1)) (MatchColumns.matches resp2)).
  { rewrite Hm, Hm1, Hm2, Hparts, imap_app. f_equal.
    symmetry. etrans; [apply (fmap_imap _ (shiftIndex (length part1)))|].
    apply imap_ext. intros i r _. cbn. symmetry. apply matchEntry_shift. }
  exists resp. split; [exact HP|]. split; [exact Hmatches|]. split.
  - rewrite Ht, Ht1, Ht2, Hparts. apply length_app.
  - rewrite Hmc, Huc, Hmc1, Huc1, Hmc2, Huc2, Hmatches, !filter_app, !length_app.
    destruct (filter_isMatched_shift (length part1) (MatchColumns.matches resp2))
      as [-> ->].
    split; reflexivity.
Qed.

Lemma first_file_can_be_matched_in_parts_witness :
  ∃ resp,
    MatchColumns.POST constantJaroWinkler id requestBlankSource = Ok resp
    ∧ MatchColumns.matches resp
      = [MatchColumns.matchEntry constantJaroWinkler id
           (MatchColumns.preprocess id "v"
              (MatchColumns.file2Data requestBlankSource))
           "v" "v" [] [] (8 # 10) Levenshtein 0 (rowV (VStr "  "))]
        ++ map (shiftIndex (length [rowV (VStr "  ")]))
             [MatchColumns.matchEntry constantJaroWinkler id
                (MatchColumns.preprocess id "v"
                   (MatchColumns.file2Data requestBlankSource))
                "v" "v" [] [] (8 # 10) Levenshtein 0 (rowV (VStr "Smith"))]
    ∧ MatchColumns.totalFile1Rows resp = (1 + 1)%nat
    ∧ MatchColumns.matchedCount resp = (0 + 1)%nat
    ∧ MatchColumns.unmatchedCount resp = (1 + 0)%nat.
Proof.
  apply (first_file_can_be_matched_in_parts constantJaroWinkler id
           requestBlankSource [rowV (VStr "  ")] [rowV (VStr "Smith")]
           {| MatchColumns.matches :=
                [MatchColumns.matchEntry constantJaroWinkler id
                   (MatchColumns.preprocess id "v"
                      (MatchColumns.file2Data requestBlankSource))
                   "v" "v" [] [] (8 # 10) Levenshtein 0 (rowV (VStr "  "))];
              MatchColumns.totalFile1Rows := 1;
              MatchColumns.totalFile2Rows := 2;
              MatchColumns.matchedCount := 0;
              MatchColumns.unmatchedCount := 1 |}
           {| MatchColumns.matches :=
                [MatchColumns.matchEntry constantJaroWinkler id
                   (MatchColumns.preprocess id "v"
                      (MatchColumns.file2Data requestBlankSource))
                   "v" "v" [] [] (8 # 10) Levenshtein 0 (rowV (VStr "Smith"))];
              MatchColumns.totalFile1Rows := 1;
              MatchColumns.totalFile2Rows := 2;
              MatchColumns.matchedCount := 1;
              MatchColumns.unmatchedCount := 0 |});
    reflexivity.
Defined.

(** ** Fuzzy mode at threshold 1 under a strict scorer *)

(** X29. Under an algorithm for which only identical signatures reach the
    score 1, the fuzzy reducer with threshold 1 returns the unique rows and
    the duplicate pairs (original index, duplicate index) of the exact
    reducer. *)
Theorem strict_scorer_threshold_one_is_exact {A : Type}
    (jw : string → string → Q) (read : A → row) (alg : SimilarityAlgorithm)
    (data : list A) (columns : list string) :
  (∀ a b, (1 <= ProcessExcel.calculateSimilarity jw a b alg)%Q ↔ a = b) →
  ProcessExcel.uniqueRows (ProcessExcel.removeFuzzyDuplicates jw read data columns 1 alg)
  = ProcessExcel.uniqueRows (ProcessExcel.removeExactDuplicates read data columns)
  ∧ map duplicatePair
      (ProcessExcel.duplicatesFound
         (ProcessExcel.removeFuzzyDuplicates jw read data columns 1 alg))
    = map duplicatePair
        (ProcessExcel.duplicatesFound
           (ProcessExcel.removeExactDuplicates read data columns)).
Proof. intros H. now apply threshold_one_agrees. Qed.

Lemma strict_scorer_threshold_one_is_exact_witness :
  ProcessExcel.uniqueRows
    (ProcessExcel.removeFuzzyDuplicates constantJaroWinkler id sampleRows
       ["Name"; "Email"] 1 Levenshtein)
  = ProcessExcel.uniqueRows
      (ProcessExcel.removeExactDuplicates id sampleRows ["Name"; "Email"])
  ∧ map duplicatePair
      (ProcessExcel.duplicatesFound
         (ProcessExcel.removeFuzzyDuplicates constantJaroWinkler id sampleRows
            ["Name"; "Email"] 1 Levenshtein))
    = map duplicatePair
        (ProcessExcel.duplicatesFound
           (ProcessExcel.removeExactDuplicates id sampleRows ["Name"; "Email"])).
Proof.
  apply (strict_scorer_threshold_one_is_exact constantJaroWinkler id Levenshtein
           sampleRows ["Name"; "Email"]).
  intros a b. apply levenshtein_score_ge_1.
Defined.
